(** * Pixel-Forge PvP: the combat-match engine

    A shallow embedding of the match engine of the repository
    ([shared/types/game_types.py], [services/physics_engine.py],
    [services/match_manager.py], [services/weapon_generator.py] and the
    message handlers of [app/main.py]) together with the properties its
    specification states about it.

    Conventions of the embedding.
    - Python [int] is [Z]; Python [float] is idealised as an exact rational
      [Q] (no rounding error); [int(x)] on a float is truncation toward zero.
    - Every reading of [time.time()] is an explicit argument [now].
    - Python [dict]s are insertion-ordered association lists with unique keys.
    - Mutable objects reached through a list (players of a match) are updated
      in place at their position in that list. *)

From Stdlib Require Import ZArith QArith Qround String Ascii List Bool Lia Lqa.
From Stdlib Require DecimalString.
Import ListNotations.

Set Implicit Arguments.

(** ** Numbers *)

Module Num.

(** [x < y] on floats. *)
Definition Qltb (x y : Q) : bool := negb (Qle_bool y x).

(** Python's [int(x)] for a float [x]: truncation toward zero. *)
Definition py_int (x : Q) : Z := Z.quot (Qnum x) (Zpos (Qden x)).

(** Python's [round(x)] for a float [x]: nearest integer, ties to even. *)
Definition py_round (x : Q) : Z :=
  let f := Qfloor x in
  let twice_frac := (2 * Qnum x - 2 * f * Zpos (Qden x))%Z in
  match (twice_frac ?= Zpos (Qden x))%Z with
  | Lt => f
  | Gt => (f + 1)%Z
  | Eq => if Z.even f then f else (f + 1)%Z
  end.

(** The product a loop [acc *= v] accumulates, left to right. *)
Definition product (base : Q) (vs : list Q) : Q := fold_left Qmult vs base.

End Num.

(** ** Python dictionaries keyed by strings *)

Module Dict.
Section Defs.
Variable V : Type.

Definition t := list (string * V).

Fixpoint get (k : string) (d : t) : option V :=
  match d with
  | [] => None
  | (k', v) :: d' => if String.eqb k k' then Some v else get k d'
  end.

(** [d.get(k, default)] *)
Definition get_default (k : string) (default : V) (d : t) : V :=
  match get k d with Some v => v | None => default end.

(** [k in d] *)
Definition mem (k : string) (d : t) : bool :=
  match get k d with Some _ => true | None => false end.

(** [d[k] = v]: overwrite in place, or append a new key at the end. *)
Fixpoint set (k : string) (v : V) (d : t) : t :=
  match d with
  | [] => [(k, v)]
  | (k', v') :: d' =>
      if String.eqb k k' then (k', v) :: d' else (k', v') :: set k v d'
  end.

(** [del d[k]] (guarded by [k in d] where the key may be absent): no entry
    with key [k] is left. *)
Definition del (k : string) (d : t) : t :=
  filter (fun kv => negb (String.eqb k (fst kv))) d.

Definition keys (d : t) : list string := map fst d.
Definition values (d : t) : list V := map snd d.

End Defs.
End Dict.

(** ** Shared types ([shared/types/game_types.py]) *)

Inductive WeaponCategory := PROJECTILE | MELEE | AREA_EFFECT | UTILITY | MAGIC.

Inductive PhysicsModType := GRAVITY | FRICTION | BOUNCE | TIME_SCALE | WEAPON_BEHAVIOR.

Inductive MatchStatus := WAITING | STARTING | ACTIVE | FINISHED | CANCELLED.

Definition WeaponCategory_eqb (a b : WeaponCategory) : bool :=
  match a, b with
  | PROJECTILE, PROJECTILE | MELEE, MELEE | AREA_EFFECT, AREA_EFFECT
  | UTILITY, UTILITY | MAGIC, MAGIC => true
  | _, _ => false
  end.

Definition PhysicsModType_eqb (a b : PhysicsModType) : bool :=
  match a, b with
  | GRAVITY, GRAVITY | FRICTION, FRICTION | BOUNCE, BOUNCE
  | TIME_SCALE, TIME_SCALE | WEAPON_BEHAVIOR, WEAPON_BEHAVIOR => true
  | _, _ => false
  end.

Definition MatchStatus_eqb (a b : MatchStatus) : bool :=
  match a, b with
  | WAITING, WAITING | STARTING, STARTING | ACTIVE, ACTIVE
  | FINISHED, FINISHED | CANCELLED, CANCELLED => true
  | _, _ => false
  end.

(** A [Dict[str, float]] that only ever holds the keys ["x"] and ["y"]. *)
Record Vec2 := mkVec2 { x : Q; y : Q }.

Definition Vec2_eqb (a b : Vec2) : bool :=
  Qeq_bool (x a) (x b) && Qeq_bool (y a) (y b).

Module WeaponProperties.
Record t := mk {
  damage : Z;
  speed : Z;
  range : Z;
  ammo : Z;
  cooldown : Z;
  special_effect : string
}.
Definition set_damage (v : Z) (p : t) : t :=
  mk v (speed p) (range p) (ammo p) (cooldown p) (special_effect p).
Definition set_speed (v : Z) (p : t) : t :=
  mk (damage p) v (range p) (ammo p) (cooldown p) (special_effect p).
Definition set_cooldown (v : Z) (p : t) : t :=
  mk (damage p) (speed p) (range p) (ammo p) v (special_effect p).
End WeaponProperties.

Module Weapon.
Record t := mk {
  id : string;
  name : string;
  category : WeaponCategory;
  properties : WeaponProperties.t;
  sprite_url : string;
  generated_at : Q;
  balance_score : Q;
  player_id : string
}.
End Weapon.

Module PhysicsModification.
Record t := mk {
  id : string;
  type : PhysicsModType;
  description : string;
  parameters : Dict.t Q;
  duration : Q;
  start_time : Q;
  match_id : string
}.
(** [time.time() < self.start_time + self.duration] *)
Definition is_active (now : Q) (m : t) : bool :=
  Num.Qltb now (start_time m + duration m).
End PhysicsModification.

Module PhysicsState.
Record t := mk {
  gravity : Q;
  friction : Q;
  restitution : Q;
  time_scale : Q;
  active_modifications : list PhysicsModification.t
}.
Definition default : t := mk 800 (4 # 5) (3 # 10) 1 [].

Definition apply_one (now : Q) (s : t) (m : PhysicsModification.t) : t :=
  if PhysicsModification.is_active now m then
    match PhysicsModification.type m with
    | GRAVITY =>
        mk (gravity s * Dict.get_default "multiplier" 1 (PhysicsModification.parameters m))
           (friction s) (restitution s) (time_scale s) (active_modifications s)
    | FRICTION =>
        mk (gravity s)
           (friction s * Dict.get_default "multiplier" 1 (PhysicsModification.parameters m))
           (restitution s) (time_scale s) (active_modifications s)
    | BOUNCE =>
        mk (gravity s) (friction s)
           (restitution s * Dict.get_default "multiplier" 1 (PhysicsModification.parameters m))
           (time_scale s) (active_modifications s)
    | TIME_SCALE =>
        mk (gravity s) (friction s) (restitution s)
           (Dict.get_default "scale" 1 (PhysicsModification.parameters m))
           (active_modifications s)
    | WEAPON_BEHAVIOR => s
    end
  else s.

(** [apply_modifications]: reset to the base values, then one pass over the
    list. *)
Definition apply_modifications (now : Q) (s : t) : t :=
  fold_left (apply_one now) (active_modifications s)
            (mk 800 (4 # 5) (3 # 10) 1 (active_modifications s)).

Definition append_modification (m : PhysicsModification.t) (s : t) : t :=
  mk (gravity s) (friction s) (restitution s) (time_scale s)
     (active_modifications s ++ [m]).
End PhysicsState.

Module PlayerState.
Record t := mk {
  id : string;
  name : string;
  health : Z;
  position : Vec2;
  velocity : Vec2;
  weapons : list Weapon.t;
  weapon_cooldown : Q;
  is_alive : bool;
  kills : Z;
  deaths : Z
}.
(** [PlayerState(id=..., name=..., position=...)] with the class defaults. *)
Definition create (id name : string) (position : Vec2) : t :=
  mk id name 100 position (mkVec2 0 0) [] 0 true 0 0.
Definition set_health (v : Z) (p : t) : t :=
  mk (id p) (name p) v (position p) (velocity p) (weapons p)
     (weapon_cooldown p) (is_alive p) (kills p) (deaths p).
Definition set_position (v : Vec2) (p : t) : t :=
  mk (id p) (name p) (health p) v (velocity p) (weapons p)
     (weapon_cooldown p) (is_alive p) (kills p) (deaths p).
Definition set_velocity (v : Vec2) (p : t) : t :=
  mk (id p) (name p) (health p) (position p) v (weapons p)
     (weapon_cooldown p) (is_alive p) (kills p) (deaths p).
Definition set_weapons (v : list Weapon.t) (p : t) : t :=
  mk (id p) (name p) (health p) (position p) (velocity p) v
     (weapon_cooldown p) (is_alive p) (kills p) (deaths p).
Definition set_weapon_cooldown (v : Q) (p : t) : t :=
  mk (id p) (name p) (health p) (position p) (velocity p) (weapons p)
     v (is_alive p) (kills p) (deaths p).
Definition set_is_alive (v : bool) (p : t) : t :=
  mk (id p) (name p) (health p) (position p) (velocity p) (weapons p)
     (weapon_cooldown p) v (kills p) (deaths p).
Definition set_kills (v : Z) (p : t) : t :=
  mk (id p) (name p) (health p) (position p) (velocity p) (weapons p)
     (weapon_cooldown p) (is_alive p) v (deaths p).
Definition set_deaths (v : Z) (p : t) : t :=
  mk (id p) (name p) (health p) (position p) (velocity p) (weapons p)
     (weapon_cooldown p) (is_alive p) (kills p) v.
End PlayerState.

Module Projectile.
Record t := mk {
  id : string;
  weapon_id : string;
  player_id : string;
  position : Vec2;
  velocity : Vec2;
  damage : Z;
  created_at : Q;
  expires_at : Q
}.
(** [time.time() > self.expires_at] *)
Definition is_expired (now : Q) (p : t) : bool := Num.Qltb (expires_at p) now.
(** Field-wise [==] of two projectiles (pydantic model equality). *)
Definition eqb (a b : t) : bool :=
  String.eqb (id a) (id b) && String.eqb (weapon_id a) (weapon_id b)
  && String.eqb (player_id a) (player_id b)
  && Vec2_eqb (position a) (position b) && Vec2_eqb (velocity a) (velocity b)
  && Z.eqb (damage a) (damage b)
  && Qeq_bool (created_at a) (created_at b)
  && Qeq_bool (expires_at a) (expires_at b).
End Projectile.

(** Python's [max(xs, key=f)] on a list: the first element whose key is
    maximal ([None] stands for the [ValueError] on an empty list). *)
Section PyMax.
Variable A : Type.
Variable key : A -> Z.

Definition max_step (best x : A) : A :=
  if (key best <? key x)%Z then x else best.

Definition py_max (xs : list A) : option A :=
  match xs with
  | [] => None
  | x :: xs' => Some (fold_left max_step xs' x)
  end.

End PyMax.

Module MatchState.
Record t := mk {
  id : string;
  status : MatchStatus;
  players : list PlayerState.t;
  projectiles : list Projectile.t;
  physics : PhysicsState.t;
  start_time : option Q;
  end_time : option Q;
  winner_id : option string;
  last_master_prompt : Q
}.

(** [MatchState(id=..., status=WAITING, players=[...])] with the class defaults. *)
Definition create (id : string) (players : list PlayerState.t) : t :=
  mk id WAITING players [] PhysicsState.default None None None 0.

Definition set_status (v : MatchStatus) (m : t) : t :=
  mk (id m) v (players m) (projectiles m) (physics m) (start_time m)
     (end_time m) (winner_id m) (last_master_prompt m).
Definition set_players (v : list PlayerState.t) (m : t) : t :=
  mk (id m) (status m) v (projectiles m) (physics m) (start_time m)
     (end_time m) (winner_id m) (last_master_prompt m).
Definition set_projectiles (v : list Projectile.t) (m : t) : t :=
  mk (id m) (status m) (players m) v (physics m) (start_time m)
     (end_time m) (winner_id m) (last_master_prompt m).
Definition set_physics (v : PhysicsState.t) (m : t) : t :=
  mk (id m) (status m) (players m) (projectiles m) v (start_time m)
     (end_time m) (winner_id m) (last_master_prompt m).
Definition set_start_time (v : option Q) (m : t) : t :=
  mk (id m) (status m) (players m) (projectiles m) (physics m) v
     (end_time m) (winner_id m) (last_master_prompt m).
Definition set_end_time (v : option Q) (m : t) : t :=
  mk (id m) (status m) (players m) (projectiles m) (physics m) (start_time m)
     v (winner_id m) (last_master_prompt m).
Definition set_winner_id (v : option string) (m : t) : t :=
  mk (id m) (status m) (players m) (projectiles m) (physics m) (start_time m)
     (end_time m) v (last_master_prompt m).
Definition set_last_master_prompt (v : Q) (m : t) : t :=
  mk (id m) (status m) (players m) (projectiles m) (physics m) (start_time m)
     (end_time m) (winner_id m) v.

(** Truthiness of an [Optional[float]]: set and not zero. *)
Definition truthy (o : option Q) : option Q :=
  match o with
  | Some v => if Qeq_bool v 0 then None else Some v
  | None => None
  end.

Definition get_duration (now : Q) (m : t) : Q :=
  match truthy (start_time m) with
  | Some st =>
      let e := match truthy (end_time m) with Some e => e | None => now end in
      e - st
  | None => 0
  end.

Definition alive_players (m : t) : list PlayerState.t :=
  filter PlayerState.is_alive (players m).

Definition is_finished (now : Q) (m : t) : bool :=
  (length (alive_players m) <=? 1)%nat
  || Num.Qltb 90 (get_duration now m)
  || MatchStatus_eqb (status m) FINISHED.

Definition get_winner (now : Q) (m : t) : option PlayerState.t :=
  match alive_players m with
  | [p] => Some p
  | [] => py_max PlayerState.kills (players m)
  | _ =>
      if Num.Qltb 90 (get_duration now m)
      then py_max PlayerState.health (players m)
      else None
  end.
End MatchState.

(** ** Python string methods (on ASCII text) *)

Module PyStr.
Open Scope string_scope.

(** [c.isspace()] *)
Definition is_space (c : ascii) : bool :=
  let n := nat_of_ascii c in
  ((9 <=? n) && (n <=? 13) || (28 <=? n) && (n <=? 32))%nat.

Definition lower_char (c : ascii) : ascii :=
  let n := nat_of_ascii c in
  if ((65 <=? n) && (n <=? 90))%nat then ascii_of_nat (n + 32) else c.

Definition upper_char (c : ascii) : ascii :=
  let n := nat_of_ascii c in
  if ((97 <=? n) && (n <=? 122))%nat then ascii_of_nat (n - 32) else c.

(** [s.lower()] *)
Fixpoint lower (s : string) : string :=
  match s with
  | EmptyString => EmptyString
  | String c s' => String (lower_char c) (lower s')
  end.

(** [s.capitalize()] *)
Definition capitalize (s : string) : string :=
  match s with
  | EmptyString => EmptyString
  | String c s' => String (upper_char c) (lower s')
  end.

(** [s.lstrip()] *)
Fixpoint lstrip (s : string) : string :=
  match s with
  | EmptyString => EmptyString
  | String c s' => if is_space c then lstrip s' else s
  end.

(** [s.rstrip()] *)
Fixpoint rstrip (s : string) : string :=
  match s with
  | EmptyString => EmptyString
  | String c s' =>
      match rstrip s' with
      | EmptyString => if is_space c then EmptyString else String c EmptyString
      | r => String c r
      end
  end.

(** [s.strip()] *)
Definition strip (s : string) : string := rstrip (lstrip s).

(** [needle in hay] *)
Fixpoint contains (needle hay : string) : bool :=
  String.prefix needle hay
  || match hay with
     | EmptyString => false
     | String _ hay' => contains needle hay'
     end.

(** [s.split()]: the maximal runs of non-blank characters. *)
Fixpoint split_aux (s : string) (cur : string) : list string :=
  match s with
  | EmptyString => match cur with EmptyString => [] | _ => [cur] end
  | String c s' =>
      if is_space c
      then match cur with
           | EmptyString => split_aux s' EmptyString
           | _ => cur :: split_aux s' EmptyString
           end
      else split_aux s' (cur ++ String c EmptyString)
  end.

Definition split (s : string) : list string := split_aux s EmptyString.

(** [s[:n]] *)
Definition take (n : nat) (s : string) : string := String.substring 0 n s.

(** [x in xs] for a list of strings. *)
Definition mem (x : string) (xs : list string) : bool :=
  existsb (String.eqb x) xs.

(** [str(n)] for an integer. *)
Definition of_Z (n : Z) : string := DecimalString.NilZero.string_of_int (Z.to_int n).

(** [" ".join(xs)] *)
Fixpoint join_space (xs : list string) : string :=
  match xs with
  | [] => EmptyString
  | [a] => a
  | a :: rest => a ++ " " ++ join_space rest
  end.

End PyStr.

(** ** The physics engine ([services/physics_engine.py]) *)

(** The dictionary [calculate_current_physics] returns: always these seven
    keys (so [physics.get(k, default)] on any other key is [default]). *)
Module Physics.
Record t := mk {
  gravity : Q;
  friction : Q;
  restitution : Q;
  time_scale : Q;
  damage_multiplier : Q;
  cooldown_multiplier : Q;
  size_multiplier : Q
}.
Definition base : t := mk 800 (4 # 5) (3 # 10) 1 1 1 1.
(** [physics.get("direction_multiplier", 1.0)]: never a key of the dictionary. *)
Definition direction_multiplier (_ : t) : Q := 1.
End Physics.

Module PhysicsEngine.
Import PhysicsModification.
Open Scope string_scope.

Record LibraryEntry := entry {
  e_type : PhysicsModType;
  e_description : string;
  e_keywords : list string;
  e_parameters : Dict.t Q;
  e_duration : Q
}.

(** [_create_physics_library] *)
Definition physics_library : list LibraryEntry :=
  [ entry GRAVITY "Low Gravity"
      ["low gravity"; "moon gravity"; "float"; "weightless"]
      [("multiplier", 3 # 10)] 15
  ; entry GRAVITY "High Gravity"
      ["high gravity"; "heavy gravity"; "weight"; "pull down"]
      [("multiplier", 2)] 15
  ; entry GRAVITY "Zero Gravity"
      ["zero gravity"; "no gravity"; "space"; "float free"]
      [("multiplier", 0)] 10
  ; entry GRAVITY "Reverse Gravity"
      ["reverse gravity"; "upside down"; "gravity flip"]
      [("multiplier", -1)] 12
  ; entry FRICTION "Ice Floor"
      ["ice"; "slippery"; "slide"; "slick"; "smooth"]
      [("multiplier", 1 # 10)] 20
  ; entry FRICTION "Sticky Ground"
      ["sticky"; "mud"; "tar"; "glue"; "slow movement"]
      [("multiplier", 3)] 15
  ; entry FRICTION "Super Slippery"
      ["super slippery"; "oil"; "banana peel"; "slide everywhere"]
      [("multiplier", 5 # 100)] 18
  ; entry BOUNCE "Bouncy World"
      ["bouncy"; "rubber"; "trampoline"; "bounce"; "elastic"]
      [("multiplier", 5 # 2)] 18
  ; entry BOUNCE "Super Bouncy"
      ["super bouncy"; "mega bounce"; "spring"; "boing"]
      [("multiplier", 4)] 15
  ; entry BOUNCE "No Bounce"
      ["no bounce"; "dead bounce"; "flat"; "absorb"]
      [("multiplier", 0)] 15
  ; entry TIME_SCALE "Slow Motion"
      ["slow motion"; "bullet time"; "matrix"; "slow down"]
      [("scale", 1 # 2)] 8
  ; entry TIME_SCALE "Super Speed"
      ["super speed"; "fast forward"; "speed up"; "quick"]
      [("scale", 3 # 2)] 12
  ; entry TIME_SCALE "Hyper Speed"
      ["hyper speed"; "lightning fast"; "blur"; "sonic"]
      [("scale", 2)] 6
  ; entry WEAPON_BEHAVIOR "Double Damage"
      ["double damage"; "power up"; "stronger"; "boost"]
      [("damage_multiplier", 2)] 12
  ; entry WEAPON_BEHAVIOR "Rapid Fire"
      ["rapid fire"; "machine gun"; "spray"; "burst"]
      [("cooldown_multiplier", 3 # 10)] 10
  ; entry WEAPON_BEHAVIOR "Giant Weapons"
      ["giant weapons"; "big weapons"; "huge"; "massive"]
      [("size_multiplier", 2); ("damage_multiplier", 3 # 2)] 15
  ; entry WEAPON_BEHAVIOR "Explosive Weapons"
      ["explosive"; "boom"; "explode"; "blast"]
      [("add_explosion", 1); ("explosion_radius", 50)] 15
  ; entry WEAPON_BEHAVIOR "Backwards Weapons"
      ["backwards"; "reverse"; "opposite"; "wrong way"]
      [("direction_multiplier", -1)] 10
  ].

(** The values one call of [_generate_random_modification] draws:
    eight [random.uniform] results and the index [random.choice] picks. *)
Record Random := mkRandom {
  gravity_multiplier : Q;  gravity_duration : Q;
  bounce_multiplier : Q;   bounce_duration : Q;
  friction_multiplier : Q; friction_duration : Q;
  time_scale_value : Q;    time_duration : Q;
  choice : nat
}.

Record t := mk {
  active_modifications : Dict.t (list PhysicsModification.t);
  modification_history : list PhysicsModification.t
}.

Definition init : t := mk [] [].

(** The id suffix [int(time.time() * 1000)]. *)
Definition millis (now : Q) : string := PyStr.of_Z (Num.py_int (now * 1000)).

Definition _generate_random_modification (rnd : Random) (now : Q) (match_id : string)
  : PhysicsModification.t :=
  let random_mods :=
    [ (GRAVITY, "Random Gravity", [("multiplier", gravity_multiplier rnd)], gravity_duration rnd)
    ; (BOUNCE, "Random Bounce", [("multiplier", bounce_multiplier rnd)], bounce_duration rnd)
    ; (FRICTION, "Random Friction", [("multiplier", friction_multiplier rnd)], friction_duration rnd)
    ; (TIME_SCALE, "Random Time", [("scale", time_scale_value rnd)], time_duration rnd) ] in
  let '(ty, descr, params, dur) :=
    nth (choice rnd mod 4) random_mods
        (GRAVITY, "Random Gravity", [("multiplier", gravity_multiplier rnd)], gravity_duration rnd) in
  PhysicsModification.mk ("random_" ++ millis now) ty descr params dur now match_id.

(** The first library entry one of whose keywords occurs in the prompt. *)
Definition find_entry (prompt_lower : string) : option LibraryEntry :=
  find (fun e => existsb (fun kw => PyStr.contains kw prompt_lower) (e_keywords e))
       physics_library.

Definition _parse_physics_prompt (rnd : Random) (now : Q) (prompt match_id : string)
  : option PhysicsModification.t :=
  let prompt_lower := PyStr.strip (PyStr.lower prompt) in
  match find_entry prompt_lower with
  | Some e =>
      Some (PhysicsModification.mk ("mod_" ++ millis now) (e_type e) (e_description e)
              (e_parameters e) (e_duration e) now match_id)
  | None => Some (_generate_random_modification rnd now match_id)
  end.

Definition mods_of (match_id : string) (eng : t) : list PhysicsModification.t :=
  Dict.get_default match_id [] (active_modifications eng).

Definition apply_master_prompt (rnd : Random) (now : Q) (prompt match_id : string) (eng : t)
  : option PhysicsModification.t * t :=
  match _parse_physics_prompt rnd now prompt match_id with
  | None => (None, eng)
  | Some modification =>
      (Some modification,
       mk (Dict.set match_id (mods_of match_id eng ++ [modification])%list
             (active_modifications eng))
          (modification_history eng ++ [modification])%list)
  end.

(** [get_active_modifications]: the non-expired modifications of the match;
    the engine forgets the expired ones as a side effect. *)
Definition get_active_modifications (now : Q) (match_id : string) (eng : t)
  : list PhysicsModification.t * t :=
  match Dict.get match_id (active_modifications eng) with
  | None => ([], eng)
  | Some mods =>
      let active_mods := filter (is_active now) mods in
      (active_mods,
       mk (Dict.set match_id active_mods (active_modifications eng))
          (modification_history eng))
  end.

(** [physics[k] *= mod.parameters[k]] when [k in mod.parameters]. *)
Definition scale_if_present (k : string) (params : Dict.t Q) (v : Q) : Q :=
  match Dict.get k params with Some f => v * f | None => v end.

(** The body of the loop of [calculate_current_physics]. *)
Definition apply_mod (physics : Physics.t) (m : PhysicsModification.t) : Physics.t :=
  let p := parameters m in
  match type m with
  | GRAVITY =>
      Physics.mk (Physics.gravity physics * Dict.get_default "multiplier" 1 p)
        (Physics.friction physics) (Physics.restitution physics)
        (Physics.time_scale physics) (Physics.damage_multiplier physics)
        (Physics.cooldown_multiplier physics) (Physics.size_multiplier physics)
  | FRICTION =>
      Physics.mk (Physics.gravity physics)
        (Physics.friction physics * Dict.get_default "multiplier" 1 p)
        (Physics.restitution physics)
        (Physics.time_scale physics) (Physics.damage_multiplier physics)
        (Physics.cooldown_multiplier physics) (Physics.size_multiplier physics)
  | BOUNCE =>
      Physics.mk (Physics.gravity physics) (Physics.friction physics)
        (Physics.restitution physics * Dict.get_default "multiplier" 1 p)
        (Physics.time_scale physics) (Physics.damage_multiplier physics)
        (Physics.cooldown_multiplier physics) (Physics.size_multiplier physics)
  | TIME_SCALE =>
      Physics.mk (Physics.gravity physics) (Physics.friction physics)
        (Physics.restitution physics)
        (Dict.get_default "scale" 1 p) (Physics.damage_multiplier physics)
        (Physics.cooldown_multiplier physics) (Physics.size_multiplier physics)
  | WEAPON_BEHAVIOR =>
      Physics.mk (Physics.gravity physics) (Physics.friction physics)
        (Physics.restitution physics) (Physics.time_scale physics)
        (scale_if_present "damage_multiplier" p (Physics.damage_multiplier physics))
        (scale_if_present "cooldown_multiplier" p (Physics.cooldown_multiplier physics))
        (scale_if_present "size_multiplier" p (Physics.size_multiplier physics))
  end.

Definition calculate_current_physics (now : Q) (match_id : string) (eng : t)
  : Physics.t * t :=
  let '(active_mods, eng') := get_active_modifications now match_id eng in
  (fold_left apply_mod active_mods Physics.base, eng').


(** [remove_match_modifications] *)
Definition remove_match_modifications (match_id : string) (eng : t) : t :=
  mk (Dict.del match_id (active_modifications eng)) (modification_history eng).

End PhysicsEngine.

(** What the specification says [currentPhysics] is, as a function of the
    active modifications in arrival order. *)
Module PhysicsSpec.
Import PhysicsModification.
Open Scope string_scope.

Definition of_type (ty : PhysicsModType) (mods : list PhysicsModification.t) :=
  filter (fun m => PhysicsModType_eqb (type m) ty) mods.

(** The [multiplier] parameters of the modifications of one type. *)
Definition multipliers (ty : PhysicsModType) (mods : list PhysicsModification.t) : list Q :=
  map (fun m => Dict.get_default "multiplier" 1 (parameters m)) (of_type ty mods).

(** The [scale] parameters of the time-scale modifications. *)
Definition scales (mods : list PhysicsModification.t) : list Q :=
  map (fun m => Dict.get_default "scale" 1 (parameters m)) (of_type TIME_SCALE mods).

(** The values of parameter [k] in the weapon-behaviour modifications that
    carry it. *)
Definition behavior_factors (k : string) (mods : list PhysicsModification.t) : list Q :=
  flat_map (fun m => match Dict.get k (parameters m) with
                     | Some f => [f]
                     | None => []
                     end)
           (of_type WEAPON_BEHAVIOR mods).

Definition current (active : list PhysicsModification.t) : Physics.t :=
  Physics.mk
    (Num.product 800 (multipliers GRAVITY active))
    (Num.product (4 # 5) (multipliers FRICTION active))
    (Num.product (3 # 10) (multipliers BOUNCE active))
    (last (scales active) 1)
    (Num.product 1 (behavior_factors "damage_multiplier" active))
    (Num.product 1 (behavior_factors "cooldown_multiplier" active))
    (Num.product 1 (behavior_factors "size_multiplier" active)).

End PhysicsSpec.

(** ** List helpers for objects mutated in place *)

Section ListUpdate.
Variable A : Type.

(** Apply [f] to the first element that satisfies [p]: the mutation of the
    object a search loop ([for x in xs: if p(x): ...; break]) stops at. *)
Fixpoint update_first (p : A -> bool) (f : A -> A) (l : list A) : list A :=
  match l with
  | [] => []
  | a :: l' => if p a then f a :: l' else a :: update_first p f l'
  end.

(** [xs.remove(x)] guarded by [x in xs]: drop the first element equal to [x]. *)
Fixpoint remove_first (eqb : A -> A -> bool) (x : A) (l : list A) : list A :=
  match l with
  | [] => []
  | a :: l' => if eqb x a then l' else a :: remove_first eqb x l'
  end.

End ListUpdate.

(** Python's [max(a, b)] and [min(a, b)] on floats. *)
Definition py_Qmax (a b : Q) : Q := if Num.Qltb a b then b else a.
Definition py_Qmin (a b : Q) : Q := if Num.Qltb b a then b else a.
Definition Qabs_lt (v bound : Q) : bool := Num.Qltb v bound && Num.Qltb (- bound) v.

(** ** The match manager ([services/match_manager.py]) *)

Module MatchManager.
Open Scope string_scope.

(** The dictionary key of a match is always its [id]: a match is only ever
    stored by [self.matches[match.id] = match]. *)
Record t := mk {
  matches : Dict.t MatchState.t;
  waiting_players : list string;
  player_match_map : Dict.t string;
  physics_engine : PhysicsEngine.t
}.

Definition init : t := mk [] [] [] PhysicsEngine.init.

Definition arena_width : Q := 1200.
Definition arena_height : Q := 600.
Definition max_match_duration : Q := 90.

Definition set_matches (v : Dict.t MatchState.t) (mm : t) : t :=
  mk v (waiting_players mm) (player_match_map mm) (physics_engine mm).
Definition set_player_match_map (v : Dict.t string) (mm : t) : t :=
  mk (matches mm) (waiting_players mm) v (physics_engine mm).
Definition set_physics_engine (v : PhysicsEngine.t) (mm : t) : t :=
  mk (matches mm) (waiting_players mm) (player_match_map mm) v.

Definition get_match (match_id : string) (mm : t) : option MatchState.t :=
  Dict.get match_id (matches mm).

Definition has_id (player_id : string) (p : PlayerState.t) : bool :=
  String.eqb (PlayerState.id p) player_id.

(** The search loop of [get_player_state] inside one match. *)
Definition player_of (player_id : string) (m : MatchState.t) : option PlayerState.t :=
  find (has_id player_id) (MatchState.players m).

Definition get_player_state (match_id player_id : string) (mm : t) : option PlayerState.t :=
  match get_match match_id mm with
  | None => None
  | Some m => player_of player_id m
  end.

(** Mutating the object [get_player_state] returned. *)
Definition update_player (player_id : string) (f : PlayerState.t -> PlayerState.t)
    (m : MatchState.t) : MatchState.t :=
  MatchState.set_players (update_first (has_id player_id) f (MatchState.players m)) m.

Definition player_name (player_id : string) : string :=
  "Player_" ++ PyStr.take 6 player_id.

Definition joinable (m : MatchState.t) : bool :=
  MatchStatus_eqb (MatchState.status m) WAITING
  && (length (MatchState.players m) <? 2)%nat.

Definition join (player_id : string) (m : MatchState.t) : MatchState.t :=
  MatchState.set_players
    (MatchState.players m ++
       [PlayerState.create player_id (player_name player_id) (mkVec2 1000 500)])%list
    m.

(** The first joinable match, in the order of the dictionary. *)
Fixpoint join_first (player_id : string) (d : Dict.t MatchState.t)
  : option (MatchState.t * Dict.t MatchState.t) :=
  match d with
  | [] => None
  | (k, m) :: d' =>
      if joinable m then Some (join player_id m, (k, join player_id m) :: d')
      else match join_first player_id d' with
           | Some (m', d'') => Some (m', (k, m) :: d'')
           | None => None
           end
  end.

Definition find_or_create_match (now : Q) (player_id : string) (mm : t)
  : option MatchState.t * t :=
  let existing :=
    match Dict.get player_id (player_match_map mm) with
    | Some match_id => Dict.get match_id (matches mm)
    | None => None
    end in
  match existing with
  | Some m => (Some m, mm)
  | None =>
      (* a stale mapping, if any, is dropped *)
      let pmm := Dict.del player_id (player_match_map mm) in
      match join_first player_id (matches mm) with
      | Some (m, matches') =>
          (Some m,
           mk matches' (waiting_players mm)
              (Dict.set player_id (MatchState.id m) pmm) (physics_engine mm))
      | None =>
          let match_id := "match_" ++ PhysicsEngine.millis now in
          let m := MatchState.create match_id
                     [PlayerState.create player_id (player_name player_id)
                        (mkVec2 200 500)] in
          (Some m,
           mk (Dict.set match_id m (matches mm)) (waiting_players mm)
              (Dict.set player_id match_id pmm) (physics_engine mm))
      end
  end.

Definition reset_player (p : PlayerState.t) : PlayerState.t :=
  PlayerState.set_weapon_cooldown 0
    (PlayerState.set_weapons []
       (PlayerState.set_is_alive true (PlayerState.set_health 100 p))).

Definition place_players (ps : list PlayerState.t) : list PlayerState.t :=
  match ps with
  | p0 :: p1 :: rest =>
      PlayerState.set_position (mkVec2 200 500) p0
      :: PlayerState.set_position (mkVec2 1000 500) p1 :: rest
  | _ => ps
  end.

Definition started (now : Q) (m : MatchState.t) : MatchState.t :=
  MatchState.set_players (map reset_player (place_players (MatchState.players m)))
    (MatchState.set_last_master_prompt now
       (MatchState.set_start_time (Some now)
          (MatchState.set_status ACTIVE m))).

Definition start_match (now : Q) (match_id : string) (mm : t) : bool * t :=
  match Dict.get match_id (matches mm) with
  | None => (false, mm)
  | Some m =>
      if (length (MatchState.players m) <? 2)%nat then (false, mm)
      else (true, set_matches (Dict.set match_id (started now m) (matches mm)) mm)
  end.

(** One projectile over one frame ([dt = 1/60]); [None] when it is dropped. *)
Definition advance_projectile (now : Q) (physics : Physics.t) (pr : Projectile.t)
  : option Projectile.t :=
  if Projectile.is_expired now pr then None
  else
    let dt := 1 # 60 in
    let vy := y (Projectile.velocity pr) + Physics.gravity physics * dt in
    let vx := x (Projectile.velocity pr) in
    let time_scale := Physics.time_scale physics in
    let px := x (Projectile.position pr) + vx * dt * time_scale in
    let py := y (Projectile.position pr) + vy * dt * time_scale in
    if Qle_bool 0 px && Qle_bool px arena_width
       && Qle_bool 0 py && Qle_bool py arena_height
    then Some (Projectile.mk (Projectile.id pr) (Projectile.weapon_id pr)
                 (Projectile.player_id pr) (mkVec2 px py) (mkVec2 vx vy)
                 (Projectile.damage pr) (Projectile.created_at pr)
                 (Projectile.expires_at pr))
    else None.

Definition _update_projectiles (now : Q) (m : MatchState.t) (eng : PhysicsEngine.t)
  : MatchState.t * PhysicsEngine.t :=
  let '(current_physics, eng') :=
    PhysicsEngine.calculate_current_physics now (MatchState.id m) eng in
  let active_projectiles :=
    flat_map (fun pr => match advance_projectile now current_physics pr with
                        | Some pr' => [pr']
                        | None => []
                        end)
             (MatchState.projectiles m) in
  (MatchState.set_projectiles active_projectiles m, eng').

Definition _check_projectile_player_collision (pr : Projectile.t) (p : PlayerState.t)
  : bool :=
  let player_left := x (PlayerState.position p) - 16 in
  let player_right := x (PlayerState.position p) + 16 in
  let player_top := y (PlayerState.position p) - 16 in
  let player_bottom := y (PlayerState.position p) + 16 in
  let projectile_left := x (Projectile.position pr) - 4 in
  let projectile_right := x (Projectile.position pr) + 4 in
  let projectile_top := y (Projectile.position pr) - 4 in
  let projectile_bottom := y (Projectile.position pr) + 4 in
  Num.Qltb player_left projectile_right
  && Num.Qltb projectile_left player_right
  && Num.Qltb player_top projectile_bottom
  && Num.Qltb projectile_top player_bottom.

(** The health, life and death count of a player who takes [final_damage]. *)
Definition take_damage (final_damage : Z) (p : PlayerState.t) : PlayerState.t :=
  let p1 := PlayerState.set_health (Z.max 0 (PlayerState.health p - final_damage)) p in
  if (PlayerState.health p1 <=? 0)%Z
  then PlayerState.set_deaths (PlayerState.deaths p1 + 1)
         (PlayerState.set_is_alive false p1)
  else p1.

Definition add_kill (p : PlayerState.t) : PlayerState.t :=
  PlayerState.set_kills (PlayerState.kills p + 1) p.

(** The damage a projectile deals under the current damage multiplier. *)
Definition final_damage (pr : Projectile.t) (physics : Physics.t) : Z :=
  Num.py_int (inject_Z (Projectile.damage pr) * Physics.damage_multiplier physics).

(** The player a projectile hits: the first one, in list order, who is not
    its owner, is alive and overlaps it. *)
Definition is_target (pr : Projectile.t) (p : PlayerState.t) : bool :=
  negb (String.eqb (PlayerState.id p) (Projectile.player_id pr))
  && PlayerState.is_alive p
  && _check_projectile_player_collision pr p.

(** [_apply_damage] to the player the collision loop stopped at. *)
Definition _apply_damage (now : Q) (pr : Projectile.t) (m : MatchState.t)
    (eng : PhysicsEngine.t) : MatchState.t * PhysicsEngine.t :=
  let '(current_physics, eng') :=
    PhysicsEngine.calculate_current_physics now (MatchState.id m) eng in
  let dmg := final_damage pr current_physics in
  let died :=
    match find (is_target pr) (MatchState.players m) with
    | Some p => (PlayerState.health (take_damage dmg p) <=? 0)%Z
    | None => false
    end in
  let players1 := update_first (is_target pr) (take_damage dmg) (MatchState.players m) in
  let players2 :=
    if died then update_first (has_id (Projectile.player_id pr)) add_kill players1
    else players1 in
  (MatchState.set_players players2 m, eng').

(** The body of the outer loop of [_check_collisions], for one projectile. *)
Definition collide_one (now : Q) (st : MatchState.t * PhysicsEngine.t)
    (pr : Projectile.t) : MatchState.t * PhysicsEngine.t :=
  let '(m, eng) := st in
  if existsb (is_target pr) (MatchState.players m) then
    let '(m1, eng1) := _apply_damage now pr m eng in
    (MatchState.set_projectiles
       (remove_first Projectile.eqb pr (MatchState.projectiles m1)) m1, eng1)
  else (m, eng).

Definition _check_collisions (now : Q) (m : MatchState.t) (eng : PhysicsEngine.t)
  : MatchState.t * PhysicsEngine.t :=
  fold_left (collide_one now) (MatchState.projectiles m) (m, eng).

Definition _end_match (now : Q) (m : MatchState.t) (eng : PhysicsEngine.t)
  : MatchState.t * PhysicsEngine.t :=
  let m1 := MatchState.set_end_time (Some now) (MatchState.set_status FINISHED m) in
  let m2 :=
    match MatchState.get_winner now m1 with
    | Some winner => MatchState.set_winner_id (Some (PlayerState.id winner)) m1
    | None => m1
    end in
  (m2, PhysicsEngine.remove_match_modifications (MatchState.id m) eng).

Definition _cleanup_match (match_id : string) (mm : t) : t :=
  match Dict.get match_id (matches mm) with
  | None => mm
  | Some m =>
      mk (Dict.del match_id (matches mm)) (waiting_players mm)
         (fold_left (fun pmm p => Dict.del (PlayerState.id p) pmm)
            (MatchState.players m) (player_match_map mm))
         (PhysicsEngine.remove_match_modifications match_id (physics_engine mm))
  end.

(** One frame of an ACTIVE match. *)
Definition tick_active (now : Q) (m : MatchState.t) (eng : PhysicsEngine.t)
  : MatchState.t * PhysicsEngine.t :=
  let '(m1, eng1) := _update_projectiles now m eng in
  let '(m2, eng2) := _check_collisions now m1 eng1 in
  if MatchState.is_finished now m2 then _end_match now m2 eng2 else (m2, eng2).

(** The body of the loop of [update_matches], for one key. *)
Definition update_match (now : Q) (mm : t) (match_id : string) : t :=
  match Dict.get match_id (matches mm) with
  | None => mm
  | Some m =>
      match MatchState.status m with
      | ACTIVE =>
          let '(m', eng') := tick_active now m (physics_engine mm) in
          mk (Dict.set match_id m' (matches mm)) (waiting_players mm)
             (player_match_map mm) eng'
      | FINISHED =>
          match MatchState.truthy (MatchState.end_time m) with
          | Some e => if Num.Qltb 300 (now - e) then _cleanup_match match_id mm else mm
          | None => mm
          end
      | WAITING =>
          let st := match MatchState.truthy (MatchState.start_time m) with
                    | Some s => s
                    | None => now
                    end in
          if Num.Qltb 120 (now - st) then _cleanup_match match_id mm else mm
      | _ => mm
      end
  end.

Definition update_matches (now : Q) (mm : t) : t :=
  fold_left (update_match now) (Dict.keys (matches mm)) mm.

(** The truthiness of the three keys of [input_data]. *)
Record Input := mkInput { left : bool; right : bool; jump : bool }.

Definition move_player (physics : Physics.t) (input : Input) (p : PlayerState.t)
  : PlayerState.t :=
  let time_scale := Physics.time_scale physics in
  let friction := Physics.friction physics in
  let move_speed := 200 * time_scale in
  let vx :=
    if left input then - move_speed
    else if right input then move_speed
    else x (PlayerState.velocity p) * friction in
  let vy0 := y (PlayerState.velocity p) in
  let vy1 := if jump input && Qabs_lt vy0 10 then (-400) * time_scale else vy0 in
  let dt := 1 # 60 in
  let px := x (PlayerState.position p) + vx * dt in
  let py := y (PlayerState.position p) + vy1 * dt in
  let vy2 := vy1 + Physics.gravity physics * dt in
  let grounded := Num.Qltb 500 py in
  let py1 := if grounded then 500 else py in
  let vy3 := if grounded then 0 else vy2 in
  let px2 := py_Qmax 16 (py_Qmin (arena_width - 16) px) in
  let py2 := py_Qmax 16 (py_Qmin (arena_height - 16) py1) in
  PlayerState.set_position (mkVec2 px2 py2)
    (PlayerState.set_velocity (mkVec2 vx vy3) p).

Definition handle_player_input (now : Q) (match_id player_id : string) (input : Input)
    (mm : t) : t :=
  match Dict.get match_id (matches mm) with
  | None => mm
  | Some m =>
      if negb (MatchStatus_eqb (MatchState.status m) ACTIVE) then mm
      else
        match player_of player_id m with
        | None => mm
        | Some player =>
            if negb (PlayerState.is_alive player) then mm
            else
              let '(current_physics, eng') :=
                PhysicsEngine.calculate_current_physics now match_id (physics_engine mm) in
              mk (Dict.set match_id
                    (update_player player_id (move_player current_physics input) m)
                    (matches mm))
                 (waiting_players mm) (player_match_map mm) eng'
        end
  end.

Section WeaponUse.
(** [math.sqrt]. *)
Variable sqrt : Q -> Q.

Definition distance (a b : Vec2) : Q :=
  let dx := x a - x b in
  let dy := y a - y b in
  sqrt (dx * dx + dy * dy).

(** [_create_projectile]: nothing is created when the target is the
    player's own position, when the target has no coordinates or when the
    projectile speed is zero (the exception is caught and logged). *)
Definition _create_projectile (now : Q) (m : MatchState.t) (player : PlayerState.t)
    (weapon : Weapon.t) (target_pos : option Vec2) (physics : Physics.t)
  : MatchState.t :=
  match target_pos with
  | None => m
  | Some target =>
      let dist := distance target (PlayerState.position player) in
      if Qeq_bool dist 0 then m
      else
        let dx := (x target - x (PlayerState.position player)) / dist in
        let dy := (y target - y (PlayerState.position player)) / dist in
        let direction_multiplier := Physics.direction_multiplier physics in
        let damage_multiplier := Physics.damage_multiplier physics in
        let projectile_speed :=
          (WeaponProperties.speed (Weapon.properties weapon) * 5)%Z in
        if (projectile_speed =? 0)%Z then m
        else
          let velocity_x := dx * inject_Z projectile_speed * direction_multiplier in
          let velocity_y := dy * inject_Z projectile_speed * direction_multiplier in
          let projectile :=
            Projectile.mk ("proj_" ++ PhysicsEngine.millis now) (Weapon.id weapon)
              (PlayerState.id player) (PlayerState.position player)
              (mkVec2 velocity_x velocity_y)
              (Num.py_int (inject_Z (WeaponProperties.damage (Weapon.properties weapon))
                           * damage_multiplier))
              now
              (now + inject_Z (WeaponProperties.range (Weapon.properties weapon))
                     / inject_Z projectile_speed) in
          MatchState.set_projectiles (MatchState.projectiles m ++ [projectile])%list m
  end.

(** A player the area effect reaches. *)
Definition in_area (player : PlayerState.t) (weapon : Weapon.t) (target : Vec2)
    (q : PlayerState.t) : bool :=
  negb (String.eqb (PlayerState.id q) (PlayerState.id player))
  && PlayerState.is_alive q
  && Qle_bool (distance (PlayerState.position q) target)
       (inject_Z (WeaponProperties.range (Weapon.properties weapon))).

Definition area_damage (weapon : Weapon.t) (physics : Physics.t) : Z :=
  Num.py_int (inject_Z (WeaponProperties.damage (Weapon.properties weapon))
              * Physics.damage_multiplier physics).

(** [_create_area_effect]: every other living player in range is damaged at
    once; each death is a kill of the firing player. *)
Definition _create_area_effect (m : MatchState.t) (player : PlayerState.t)
    (weapon : Weapon.t) (target_pos : option Vec2) (physics : Physics.t)
  : MatchState.t :=
  match target_pos with
  | None => m
  | Some target =>
      let hit q := in_area player weapon target q in
      let dmg := area_damage weapon physics in
      let players1 :=
        map (fun q => if hit q then take_damage dmg q else q) (MatchState.players m) in
      let kills :=
        length (filter (fun q => hit q && (PlayerState.health (take_damage dmg q) <=? 0)%Z)
                  (MatchState.players m)) in
      MatchState.set_players
        (update_first (has_id (PlayerState.id player))
           (fun p => PlayerState.set_kills (PlayerState.kills p + Z.of_nat kills) p)
           players1)
        m
  end.

Definition find_weapon (weapon_id : string) (player : PlayerState.t) : option Weapon.t :=
  find (fun w => String.eqb (Weapon.id w) weapon_id) (PlayerState.weapons player).

(** What firing [weapon] does to the match of the firing player: the effect
    of the weapon's category, then the cooldown of the player. *)
Definition fire (now : Q) (player_id : string) (player : PlayerState.t)
    (weapon : Weapon.t) (target_position : option Vec2) (current_physics : Physics.t)
    (m : MatchState.t) : MatchState.t :=
  let m1 :=
    match Weapon.category weapon with
    | PROJECTILE | MAGIC =>
        _create_projectile now m player weapon target_position current_physics
    | AREA_EFFECT =>
        _create_area_effect m player weapon target_position current_physics
    | _ => m
    end in
  let cooldown_multiplier := Physics.cooldown_multiplier current_physics in
  update_player player_id
    (PlayerState.set_weapon_cooldown
       (now + (inject_Z (WeaponProperties.cooldown (Weapon.properties weapon)) / 1000)
              * cooldown_multiplier))
    m1.

Definition use_weapon (now : Q) (match_id player_id weapon_id : string)
    (target_position : option Vec2) (mm : t) : t :=
  match Dict.get match_id (matches mm) with
  | None => mm
  | Some m =>
      if negb (MatchStatus_eqb (MatchState.status m) ACTIVE) then mm
      else
        match player_of player_id m with
        | None => mm
        | Some player =>
            if negb (PlayerState.is_alive player) then mm
            else
              match find_weapon weapon_id player with
              | None => mm
              | Some weapon =>
                  let '(current_physics, eng') :=
                    PhysicsEngine.calculate_current_physics now match_id
                      (physics_engine mm) in
                  mk (Dict.set match_id
                        (fire now player_id player weapon target_position
                           current_physics m)
                        (matches mm))
                     (waiting_players mm) (player_match_map mm) eng'
              end
        end
  end.

End WeaponUse.

(** The match without the player. *)
Definition leave (player_id : string) (m : MatchState.t) : MatchState.t :=
  MatchState.set_players
    (filter (fun p => negb (has_id player_id p)) (MatchState.players m)) m.

(** Whether a removal forces the end of the match. *)
Definition abandoned (m : MatchState.t) : bool :=
  (length (MatchState.players m) <? 2)%nat
  && MatchStatus_eqb (MatchState.status m) ACTIVE.

Definition remove_player (now : Q) (player_id : string) (mm : t) : t :=
  match Dict.get player_id (player_match_map mm) with
  | None => mm
  | Some match_id =>
      let mm1 :=
        match Dict.get match_id (matches mm) with
        | None => mm
        | Some m =>
            let m1 := leave player_id m in
            if abandoned m1
            then
              let '(m2, eng') := _end_match now m1 (physics_engine mm) in
              mk (Dict.set match_id m2 (matches mm)) (waiting_players mm)
                 (player_match_map mm) eng'
            else set_matches (Dict.set match_id m1 (matches mm)) mm
        end in
      set_player_match_map (Dict.del player_id (player_match_map mm1)) mm1
  end.

Definition get_active_matches (mm : t) : list MatchState.t :=
  filter (fun m => MatchStatus_eqb (MatchState.status m) ACTIVE)
         (Dict.values (matches mm)).

End MatchManager.

(** ** The weapon generator ([services/weapon_generator.py]) *)

Module WeaponGenerator.
Open Scope string_scope.

Record Template := template {
  t_name : string;
  t_category : WeaponCategory;
  t_keywords : list string;
  t_category_hints : list string;
  t_properties : WeaponProperties.t
}.

(** [_create_weapon_templates] (every template carries the default sprite). *)
Definition weapon_templates : list Template :=
  [ template "Fire Sword" MELEE
      ["fire"; "flame"; "sword"; "blade"; "burn"] ["sword"; "blade"; "melee"]
      (WeaponProperties.mk 65 70 40 1 2000 "burn_damage")
  ; template "Ice Spear" PROJECTILE
      ["ice"; "frost"; "spear"; "cold"; "freeze"] ["spear"; "arrow"; "projectile"]
      (WeaponProperties.mk 55 85 120 8 1800 "freeze_target")
  ; template "Lightning Hammer" MELEE
      ["lightning"; "thunder"; "hammer"; "electric"; "shock"] ["hammer"; "mace"; "melee"]
      (WeaponProperties.mk 75 45 50 1 2800 "area_lightning")
  ; template "Poison Dagger" MELEE
      ["poison"; "toxic"; "dagger"; "venom"; "green"] ["dagger"; "knife"; "blade"]
      (WeaponProperties.mk 40 90 30 1 1500 "poison_dot")
  ; template "Magic Shield" UTILITY
      ["shield"; "protect"; "defense"; "magic"; "barrier"] ["shield"; "defense"; "utility"]
      (WeaponProperties.mk 20 40 60 1 3500 "damage_reduction")
  ; template "Explosive Bomb" AREA_EFFECT
      ["bomb"; "explosive"; "boom"; "blast"; "explode"] ["bomb"; "grenade"; "explosive"]
      (WeaponProperties.mk 60 30 80 3 3000 "area_explosion")
  ].

Definition first_template : Template :=
  template "Fire Sword" MELEE
    ["fire"; "flame"; "sword"; "blade"; "burn"] ["sword"; "blade"; "melee"]
    (WeaponProperties.mk 65 70 40 1 2000 "burn_damage").

(** The parsed JSON object of the model's answer: the keys it may carry. *)
Record AIResponse := ai_response {
  ai_damage : option Z;
  ai_speed : option Z;
  ai_range : option Z;
  ai_ammo : option Z;
  ai_cooldown : option Z;
  ai_special_effect : option string;
  ai_category : option string
}.

Definition or_default (A : Type) (o : option A) (d : A) : A :=
  match o with Some v => v | None => d end.

(** [max(lo, min(hi, v))] on integers. *)
Definition clamp (lo hi v : Z) : Z := Z.max lo (Z.min hi v).

Definition effect_multiplier (special_effect : string) : Q :=
  if String.eqb special_effect "burn_damage" then 6 # 5
  else if String.eqb special_effect "freeze_target" then 23 # 20
  else if String.eqb special_effect "area_explosion" then 13 # 10
  else if String.eqb special_effect "poison_dot" then 5 # 4
  else if String.eqb special_effect "area_lightning" then 5 # 4
  else if String.eqb special_effect "damage_reduction" then 4 # 5
  else 1.

Definition power_score (properties : WeaponProperties.t) : Q :=
  let damage_norm := inject_Z (WeaponProperties.damage properties) / 100 in
  let speed_norm := inject_Z (WeaponProperties.speed properties) / 100 in
  let range_norm := inject_Z (WeaponProperties.range properties) / 200 in
  let cooldown_penalty :=
    (5000 - inject_Z (WeaponProperties.cooldown properties)) / 5000 in
  damage_norm * (4 # 10) + speed_norm * (3 # 10) + range_norm * (2 # 10)
  + cooldown_penalty * (1 # 10).

Definition _calculate_balance_score (properties : WeaponProperties.t) : Q :=
  let multiplier := effect_multiplier (WeaponProperties.special_effect properties) in
  let balance_score := power_score properties * multiplier * 100 in
  py_Qmin 100 (py_Qmax 0 balance_score).

Definition _apply_balance_nerf (properties : WeaponProperties.t) : WeaponProperties.t :=
  let p1 :=
    WeaponProperties.set_damage
      (Num.py_int (inject_Z (WeaponProperties.damage properties) * (8 # 10)))
      properties in
  WeaponProperties.set_cooldown
    (Num.py_int (inject_Z (WeaponProperties.cooldown p1) * (12 # 10))) p1.

Definition _generate_weapon_name (prompt : string) : string :=
  match PyStr.split (PyStr.strip prompt) with
  | [w] => PyStr.capitalize w
  | w1 :: w2 :: _ => PyStr.capitalize w1 ++ " " ++ PyStr.capitalize w2
  | [] => ""
  end.

Definition category_of_string (s : string) : WeaponCategory :=
  if String.eqb s "projectile" then PROJECTILE
  else if String.eqb s "melee" then MELEE
  else if String.eqb s "area_effect" then AREA_EFFECT
  else if String.eqb s "utility" then UTILITY
  else if String.eqb s "magic" then MAGIC
  else PROJECTILE.

Definition count_true (A : Type) (p : A -> bool) (l : list A) : Z :=
  Z.of_nat (length (filter p l)).

Definition template_score (prompt : string) (tpl : Template) : Z :=
  let prompt_words := PyStr.split (PyStr.lower prompt) in
  let template_name := PyStr.lower (t_name tpl) in
  (3 * count_true (fun word => PyStr.contains word template_name) prompt_words
   + 2 * count_true (fun keyword => PyStr.contains (PyStr.lower keyword) prompt)
           (t_keywords tpl)
   + count_true (fun word => PyStr.mem word (t_category_hints tpl)) prompt_words)%Z.

(** The loop of [_find_best_template]: the running best score and template. *)
Definition best_step (prompt : string) (best : Z * option Template) (tpl : Template)
  : Z * option Template :=
  let score := template_score prompt tpl in
  if (fst best <? score)%Z then (score, Some tpl) else best.

Definition _find_best_template (prompt : string) : Template :=
  match fold_left (best_step prompt) weapon_templates (0%Z, None) with
  | (best_score, Some best_match) =>
      if (0 <? best_score)%Z then best_match else first_template
  | (_, None) => first_template
  end.

Section Generator.
(** Python's [hash] of a string (seeded per process), the hex digest of
    [hashlib.md5], and the two sprite renderers, which draw images. *)
Variable hash : string -> Z.
Variable md5 : string -> string.
Variable _generate_weapon_sprite : string -> WeaponCategory -> string.
Variable _get_default_sprite : string.


(** [_generate_with_ai]: [None] when no model is configured, or the call
    or the parsing of its answer fails. *)
Definition _generate_with_ai (now : Q) (fresh_id : string) (ai : option AIResponse)
    (prompt player_id : string) : option Weapon.t :=
  match ai with
  | None => None
  | Some properties_data =>
      let properties :=
        WeaponProperties.mk
          (clamp 15 85 (or_default (ai_damage properties_data) 50%Z))
          (clamp 20 95 (or_default (ai_speed properties_data) 60%Z))
          (clamp 30 180 (or_default (ai_range properties_data) 100%Z))
          (clamp 3 25 (or_default (ai_ammo properties_data) 10%Z))
          (clamp 1500 4000 (or_default (ai_cooldown properties_data) 2000%Z))
          (or_default (ai_special_effect properties_data) "none") in
      let category :=
        category_of_string
          (PyStr.lower (or_default (ai_category properties_data) "projectile")) in
      let sprite_url := _generate_weapon_sprite prompt category in
      let balance_score := _calculate_balance_score properties in
      let properties' :=
        if Num.Qltb 80 balance_score then _apply_balance_nerf properties
        else properties in
      let balance_score' :=
        if Num.Qltb 80 balance_score then _calculate_balance_score properties'
        else balance_score in
      Some (Weapon.mk fresh_id (_generate_weapon_name prompt) category properties'
              sprite_url now balance_score' player_id)
  end.

Definition _generate_from_template (now : Q) (fresh_id prompt player_id : string)
  : option Weapon.t :=
  let best_template := _find_best_template prompt in
  let properties := t_properties best_template in
  let variation := (hash prompt mod 20 - 10)%Z in
  let p1 :=
    WeaponProperties.set_damage
      (clamp 15 85 (WeaponProperties.damage properties + variation)) properties in
  let p2 :=
    WeaponProperties.set_speed
      (clamp 20 95 (WeaponProperties.speed p1 + variation)) p1 in
  Some (Weapon.mk fresh_id (_generate_weapon_name prompt) (t_category best_template)
          p2 _get_default_sprite now (_calculate_balance_score p2) player_id).

(** The generator's only state that outlives a call is its cache (the
    request counters are telemetry). *)
Definition t := Dict.t Weapon.t.

Definition generate_weapon (now : Q) (fresh_id : string) (ai : option AIResponse)
    (prompt player_id match_id : string) (cache : t) : option Weapon.t * t :=
  if (String.length (PyStr.strip prompt) =? 0)%nat then (None, cache)
  else
    let prompt := PyStr.lower (PyStr.strip prompt) in
    let cache_key := md5 prompt in
    match Dict.get cache_key cache with
    | Some weapon =>
        (Some (Weapon.mk fresh_id (Weapon.name weapon) (Weapon.category weapon)
                 (Weapon.properties weapon) (Weapon.sprite_url weapon) now
                 (Weapon.balance_score weapon) player_id),
         cache)
    | None =>
        let weapon :=
          match _generate_with_ai now fresh_id ai prompt player_id with
          | Some w => Some w
          | None => _generate_from_template now fresh_id prompt player_id
          end in
        match weapon with
        | Some w =>
            (Some w,
             Dict.set cache_key
               (Weapon.mk "template" (Weapon.name w) (Weapon.category w)
                  (Weapon.properties w) (Weapon.sprite_url w) (Weapon.generated_at w)
                  (Weapon.balance_score w) "template")
               cache)
        | None => (None, cache)
        end
    end.

End Generator.
End WeaponGenerator.

(** ** The server ([app/main.py]): message handlers and background loops *)

Module Server.
Open Scope string_scope.

Record t := mk {
  match_manager : MatchManager.t;
  weapon_generator : WeaponGenerator.t
}.

Definition init : t := mk MatchManager.init [].

(** What [handle_weapon_generation] answers. *)
Inductive WeaponReply :=
| InvalidPrompt
| MatchNotFound
| PlayerNotInMatch
| Cooldown (remaining : Z)
| Generated (weapon : Weapon.t)
| GenerationFailed.

Definition with_manager (f : MatchManager.t -> MatchManager.t) (s : t) : t :=
  mk (f (match_manager s)) (weapon_generator s).

Definition handle_find_match (now : Q) (player_id : string) (s : t) : t :=
  match MatchManager.find_or_create_match now player_id (match_manager s) with
  | (Some m, mm1) =>
      if (2 <=? length (MatchState.players m))%nat
         && MatchStatus_eqb (MatchState.status m) WAITING
      then mk (snd (MatchManager.start_match now (MatchState.id m) mm1))
              (weapon_generator s)
      else mk mm1 (weapon_generator s)
  | (None, mm1) => mk mm1 (weapon_generator s)
  end.

(** The prompt check of [handle_weapon_generation], on the stripped prompt. *)
Definition prompt_rejected (prompt : string) : bool :=
  (String.length prompt =? 0)%nat || (20 <? String.length prompt)%nat.

Definition add_weapon (cooldown_until : Q) (weapon : Weapon.t) (p : PlayerState.t)
  : PlayerState.t :=
  PlayerState.set_weapons (PlayerState.weapons p ++ [weapon])%list
    (PlayerState.set_weapon_cooldown cooldown_until p).

(** [match.physics.active_modifications.append(m); match.physics.apply_modifications()] *)
Definition record_modification (now : Q) (modification : PhysicsModification.t)
    (m : MatchState.t) : MatchState.t :=
  MatchState.set_physics
    (PhysicsState.apply_modifications now
       (PhysicsState.append_modification modification (MatchState.physics m)))
    m.

Definition handle_master_prompt (now : Q) (rnd : PhysicsEngine.Random)
    (player_id prompt match_id : string) (s : t) : t :=
  let prompt := PyStr.strip prompt in
  if (String.length prompt =? 0)%nat then s
  else
    let mm := match_manager s in
    match MatchManager.get_match match_id mm with
    | None => s
    | Some m =>
        match PhysicsEngine.apply_master_prompt rnd now prompt match_id
                (MatchManager.physics_engine mm) with
        | (Some modification, eng') =>
            mk (MatchManager.mk
                  (Dict.set match_id (record_modification now modification m)
                     (MatchManager.matches mm))
                  (MatchManager.waiting_players mm)
                  (MatchManager.player_match_map mm) eng')
               (weapon_generator s)
        | (None, eng') =>
            mk (MatchManager.set_physics_engine eng' mm) (weapon_generator s)
        end
    end.

Definition handle_player_input (now : Q) (player_id match_id : string)
    (input_data : option MatchManager.Input) (s : t) : t :=
  match input_data with
  | Some input =>
      if (String.length match_id =? 0)%nat then s
      else
        match MatchManager.get_match match_id (match_manager s) with
        | Some _ =>
            with_manager (MatchManager.handle_player_input now match_id player_id input) s
        | None => s
        end
  | None => s
  end.

Definition handle_player_disconnect (now : Q) (player_id : string) (s : t) : t :=
  with_manager (MatchManager.remove_player now player_id) s.

(** The prompts [master_prompt_scheduler] draws from. *)
Definition random_prompts : list string :=
  [ "low gravity"; "bouncy world"; "ice floor"; "slow motion"; "high gravity";
    "super speed"; "sticky ground" ].

(** The body of the scheduler's loop for one match; [pick] is the index
    [random.choice] draws for it. *)
Definition schedule_match (now : Q) (rnd : PhysicsEngine.Random) (pick : string -> nat)
    (mm : MatchManager.t) (match_id : string) : MatchManager.t :=
  match Dict.get match_id (MatchManager.matches mm) with
  | None => mm
  | Some m =>
      if MatchStatus_eqb (MatchState.status m) ACTIVE
         && Num.Qltb 30 (now - MatchState.last_master_prompt m)
      then
        let prompt := nth (pick match_id mod 7) random_prompts "low gravity" in
        match PhysicsEngine.apply_master_prompt rnd now prompt (MatchState.id m)
                (MatchManager.physics_engine mm) with
        | (Some modification, eng') =>
            MatchManager.mk
              (Dict.set match_id
                 (MatchState.set_last_master_prompt now
                    (record_modification now modification m))
                 (MatchManager.matches mm))
              (MatchManager.waiting_players mm)
              (MatchManager.player_match_map mm) eng'
        | (None, eng') => MatchManager.set_physics_engine eng' mm
        end
      else mm
  end.

Definition master_prompt_scheduler (now : Q) (rnd : PhysicsEngine.Random)
    (pick : string -> nat) (s : t) : t :=
  with_manager
    (fun mm => fold_left (schedule_match now rnd pick)
                 (Dict.keys (MatchManager.matches mm)) mm)
    s.

(** One iteration of [game_loop] (the state updates are sent, not stored). *)
Definition game_loop (now : Q) (s : t) : t :=
  with_manager (MatchManager.update_matches now) s.

Section Handlers.
Variable sqrt : Q -> Q.
Variable hash : string -> Z.
Variable md5 : string -> string.
Variable _generate_weapon_sprite : string -> WeaponCategory -> string.
Variable _get_default_sprite : string.

(** [handle_weapon_generation]; [now] is the clock when the request is
    checked, [now_done] the clock once the weapon has been generated. *)
Definition handle_weapon_generation (now now_done : Q) (fresh_id : string)
    (ai : option WeaponGenerator.AIResponse) (player_id prompt match_id : string)
    (s : t) : WeaponReply * t :=
  let prompt := PyStr.strip prompt in
  if prompt_rejected prompt then (InvalidPrompt, s)
  else
    let mm := match_manager s in
    match MatchManager.get_match match_id mm with
    | None => (MatchNotFound, s)
    | Some m =>
        match MatchManager.player_of player_id m with
        | None => (PlayerNotInMatch, s)
        | Some player_state =>
            if Num.Qltb now (PlayerState.weapon_cooldown player_state)
            then (Cooldown (Num.py_int (PlayerState.weapon_cooldown player_state - now)), s)
            else
              match WeaponGenerator.generate_weapon hash md5 _generate_weapon_sprite
                      _get_default_sprite now fresh_id ai prompt player_id match_id
                      (weapon_generator s) with
              | (Some weapon, cache') =>
                  (Generated weapon,
                   mk (MatchManager.set_matches
                         (Dict.set match_id
                            (MatchManager.update_player player_id
                               (add_weapon (now_done + 12) weapon) m)
                            (MatchManager.matches mm))
                         mm)
                      cache')
              | (None, cache') => (GenerationFailed, mk mm cache')
              end
        end
    end.

Definition handle_weapon_use (now : Q) (player_id match_id weapon_id : string)
    (target_position : option Vec2) (s : t) : t :=
  if (String.length match_id =? 0)%nat || (String.length weapon_id =? 0)%nat then s
  else
    with_manager
      (MatchManager.use_weapon sqrt now match_id player_id weapon_id target_position) s.

(** Everything that can happen to the server: a message from a player, a
    disconnect, an iteration of one of the two background loops, or a
    direct call of the two public matchmaking methods of the manager. *)
Inductive Op :=
| FindMatch (now : Q) (player_id : string)
| PlayerInput (now : Q) (player_id match_id : string)
    (input : option MatchManager.Input)
| WeaponGenerate (now now_done : Q) (fresh_id : string)
    (ai : option WeaponGenerator.AIResponse) (player_id prompt match_id : string)
| WeaponUse (now : Q) (player_id match_id weapon_id : string) (target : option Vec2)
| MasterPrompt (now : Q) (rnd : PhysicsEngine.Random) (player_id prompt match_id : string)
| Disconnect (now : Q) (player_id : string)
| GameLoop (now : Q)
| Scheduler (now : Q) (rnd : PhysicsEngine.Random) (pick : string -> nat)
| FindOrCreateMatch (now : Q) (player_id : string)
| StartMatch (now : Q) (match_id : string).

Definition step (op : Op) (s : t) : t :=
  match op with
  | FindMatch now player_id => handle_find_match now player_id s
  | PlayerInput now player_id match_id input =>
      handle_player_input now player_id match_id input s
  | WeaponGenerate now now_done fresh_id ai player_id prompt match_id =>
      snd (handle_weapon_generation now now_done fresh_id ai player_id prompt match_id s)
  | WeaponUse now player_id match_id weapon_id target =>
      handle_weapon_use now player_id match_id weapon_id target s
  | MasterPrompt now rnd player_id prompt match_id =>
      handle_master_prompt now rnd player_id prompt match_id s
  | Disconnect now player_id => handle_player_disconnect now player_id s
  | GameLoop now => game_loop now s
  | Scheduler now rnd pick => master_prompt_scheduler now rnd pick s
  | FindOrCreateMatch now player_id =>
      with_manager (fun mm => snd (MatchManager.find_or_create_match now player_id mm)) s
  | StartMatch now match_id =>
      with_manager (fun mm => snd (MatchManager.start_match now match_id mm)) s
  end.

(** The states the server can be in. *)
Inductive reachable : t -> Prop :=
| reachable_init : reachable init
| reachable_step op s : reachable s -> reachable (step op s).

(** A sequence of operations, applied one after the other. *)
Definition run (ops : list Op) (s : t) : t :=
  fold_left (fun s op => step op s) ops s.

End Handlers.

(** The operations that neither add nor remove a player nor restart a
    match: input, weapon generation and use, physics prompts and the two
    background loops. *)
Definition in_place (op : Op) : bool :=
  match op with
  | PlayerInput _ _ _ _ | WeaponGenerate _ _ _ _ _ _ _ | WeaponUse _ _ _ _ _
  | MasterPrompt _ _ _ _ _ | GameLoop _ | Scheduler _ _ _ => true
  | _ => false
  end.

(** The operations that call [start_match]. *)
Definition may_start (op : Op) : bool :=
  match op with
  | FindMatch _ _ | StartMatch _ _ => true
  | _ => false
  end.

End Server.

(** ** Stat ranges of generated weapons *)

Module Balance.
Open Scope Z_scope.

(** The clamps of the specification. *)
Definition claimed (p : WeaponProperties.t) : Prop :=
  15 <= WeaponProperties.damage p <= 85
  /\ 20 <= WeaponProperties.speed p <= 95
  /\ 30 <= WeaponProperties.range p <= 180
  /\ 3 <= WeaponProperties.ammo p <= 25
  /\ 1500 <= WeaponProperties.cooldown p <= 4000.

(** The ranges the generator keeps: ammo starts at 1 (melee templates) and
    the cooldown reaches 4800 (a nerfed cooldown of 4000). *)
Definition kept (p : WeaponProperties.t) : Prop :=
  15 <= WeaponProperties.damage p <= 85
  /\ 20 <= WeaponProperties.speed p <= 95
  /\ 30 <= WeaponProperties.range p <= 180
  /\ 1 <= WeaponProperties.ammo p <= 25
  /\ 1500 <= WeaponProperties.cooldown p <= 4800.

Definition cache_kept (cache : WeaponGenerator.t) : Prop :=
  forall w, In w (Dict.values cache) -> kept (Weapon.properties w).

End Balance.

(** ** The prompt check of the sibling server ([simple_server.py]) *)

Module SimpleServer.

(** [handle_weapon_generate]: "Empty prompt" or "Prompt too long (max 100
    chars)", on the stripped prompt. *)
Definition prompt_rejected (prompt : string) : bool :=
  (String.length prompt =? 0)%nat || (100 <? String.length prompt)%nat.

End SimpleServer.

(** ** Vocabulary of the specification *)

Module Spec.


(** [p] is the first element of [xs] whose [key] is maximal. *)
Definition first_max (A : Type) (key : A -> Z) (xs : list A) (p : A) : Prop :=
  exists l1 l2, xs = (l1 ++ p :: l2)%list
    /\ (forall a, In a l1 -> (key a < key p)%Z)
    /\ (forall a, In a l2 -> (key a <= key p)%Z).

End Spec.

(** Relations between the state of one player before and after an
    operation. *)
Module PlayerRel.

(** The player is the same and has not been healed. *)
Definition no_heal (q q' : PlayerState.t) : Prop :=
  PlayerState.id q' = PlayerState.id q
  /\ (PlayerState.health q' <= PlayerState.health q)%Z.

(** Within one life: a dead player keeps health, death count and state; the
    death count grows by at most one, and only when a living player dies. *)
Definition same_life (q q' : PlayerState.t) : Prop :=
  PlayerState.id q' = PlayerState.id q
  /\ (PlayerState.is_alive q = false ->
        PlayerState.health q' = PlayerState.health q
        /\ PlayerState.deaths q' = PlayerState.deaths q
        /\ PlayerState.is_alive q' = false)
  /\ (PlayerState.deaths q' = PlayerState.deaths q
      \/ (PlayerState.deaths q' = PlayerState.deaths q + 1)%Z
         /\ PlayerState.is_alive q = true /\ PlayerState.is_alive q' = false).

(** Health, life and death count are the same. *)
Definition same_vitals (q q' : PlayerState.t) : Prop :=
  PlayerState.health q' = PlayerState.health q
  /\ PlayerState.is_alive q' = PlayerState.is_alive q
  /\ PlayerState.deaths q' = PlayerState.deaths q.

End PlayerRel.

(** What a frame leaves alone: everything but the players and the
    projectiles. *)
Definition same_frame (m m' : MatchState.t) : Prop :=
  MatchState.id m' = MatchState.id m
  /\ MatchState.status m' = MatchState.status m
  /\ MatchState.start_time m' = MatchState.start_time m
  /\ MatchState.end_time m' = MatchState.end_time m
  /\ MatchState.winner_id m' = MatchState.winner_id m
  /\ length (MatchState.players m') = length (MatchState.players m).

(** The two ways a match comes to its end. *)
Module Ending.






End Ending.

(** ** Concrete matches used to exercise the statements *)

Module Example.
Open Scope string_scope.

Definition no_random : PhysicsEngine.Random :=
  PhysicsEngine.mkRandom 1 10 1 12 1 15 1 8 0.

Definition alice : PlayerState.t := PlayerState.create "alice" "Player_alice" (mkVec2 200 500).
Definition bob : PlayerState.t := PlayerState.create "bob" "Player_bob" (mkVec2 1000 500).

(** Bob with 10 health left. *)
Definition bob_weak : PlayerState.t := PlayerState.set_health 10 bob.

(** A projectile of alice's that has reached bob. *)
Definition shot (damage : Z) : Projectile.t :=
  Projectile.mk "proj_0" "w1" "alice" (mkVec2 1000 500) (mkVec2 300 0) damage 0 100.

(** An ACTIVE match between the two, started at time 0. *)
Definition duel (players : list PlayerState.t) (projectiles : list Projectile.t)
  : MatchState.t :=
  MatchState.mk "match_0" ACTIVE players projectiles PhysicsState.default
    (Some (1 # 10)) None None 0.

(** The engine after the prompt "giant weapons" was applied twice to the
    match at time 0. *)
Definition two_giants : PhysicsEngine.t :=
  snd (PhysicsEngine.apply_master_prompt no_random 0 "Giant Weapons" "match_0"
         (snd (PhysicsEngine.apply_master_prompt no_random 0 "giant weapons!" "match_0"
                 PhysicsEngine.init))).


(** A server whose only match is the given one, with both players mapped
    to it. *)
Definition server_with (m : MatchState.t) : Server.t :=
  Server.mk
    (MatchManager.mk [(MatchState.id m, m)] []
       [("alice", MatchState.id m); ("bob", MatchState.id m)] PhysicsEngine.init)
    [].

(** Stand-ins for the library functions the server is parameterised by. *)
Definition sqrt0 (v : Q) : Q := v.
Definition hash0 (s : string) : Z := Z.of_nat (String.length s).
Definition md50 (s : string) : string := s.
Definition sprite0 (prompt : string) (c : WeaponCategory) : string := "data:image/png;base64,".
Definition default_sprite0 : string := "data:image/png;base64,".

Definition step0 : Server.Op -> Server.t -> Server.t :=
  Server.step sqrt0 hash0 md50 sprite0 default_sprite0.


(** Weapons as the templates make them, and alice carrying them, 12
    seconds of generation cooldown still running at time 1. *)
Definition sword : Weapon.t :=
  Weapon.mk "w-sword" "Fire Sword" MELEE
    (WeaponProperties.mk 65 70 40 1 2000 "burn_damage") default_sprite0 0 59 "alice".
Definition spear : Weapon.t :=
  Weapon.mk "w-spear" "Ice Spear" PROJECTILE
    (WeaponProperties.mk 55 85 120 8 1800 "freeze_target") default_sprite0 0 64 "alice".
Definition bomb : Weapon.t :=
  Weapon.mk "w-bomb" "Explosive Bomb" AREA_EFFECT
    (WeaponProperties.mk 60 30 80 3 3000 "area_explosion") default_sprite0 0 60 "alice".

Definition alice_armed : PlayerState.t :=
  PlayerState.set_weapon_cooldown 12
    (PlayerState.set_weapons [sword; spear; bomb] alice).

Definition armed_duel : MatchState.t := duel [alice_armed; bob] [].

Definition armed : MatchManager.t :=
  Server.match_manager (server_with armed_duel).




(** The prompt the repository's own test sends. *)
Definition test_prompt : string := "ice crystal sword of frozen death".

(** The server after alice and then bob asked for a match at time 0: bob
    joined the match alice opened, and the match was started. *)
Definition lobby : Server.t :=
  step0 (Server.FindMatch 0 "bob") (step0 (Server.FindMatch 0 "alice") Server.init).

(** The strongest answer the model may give, and alice asking for a weapon
    with it and without it. *)
Definition strongest : WeaponGenerator.AIResponse :=
  WeaponGenerator.ai_response (Some 85%Z) (Some 95%Z) (Some 180%Z) (Some 25%Z)
    (Some 4000%Z) (Some "area_explosion") (Some "area_effect").

Definition generate (ai : option WeaponGenerator.AIResponse) (prompt : string)
  : option Weapon.t :=
  fst (WeaponGenerator.generate_weapon hash0 md50 sprite0 default_sprite0
         100 "w-1" ai prompt "alice" "match_0" []).

End Example.

(** Every weapon a player carries and every projectile in flight stores a
    damage value that satisfies [G]. *)
Definition arsenal_ok (G : Z -> Prop) (m : MatchState.t) : Prop :=
  (forall pr, In pr (MatchState.projectiles m) -> G (Projectile.damage pr))
  /\ (forall p w, In p (MatchState.players m) -> In w (PlayerState.weapons p) ->
        G (WeaponProperties.damage (Weapon.properties w))).

(** The manager's physics engine satisfies [Eeng] and every stored damage
    value of every match satisfies [G]. *)
Definition manager_ok (Eeng : PhysicsEngine.t -> Prop) (G : Z -> Prop)
    (mm : MatchManager.t) : Prop :=
  Eeng (MatchManager.physics_engine mm)
  /\ forall mid m, Dict.get mid (MatchManager.matches mm) = Some m -> arsenal_ok G m.

(** ** Well-formed servers *)

Module Wf.
Open Scope string_scope.

(** No modification the engine holds carries a negative damage multiplier. *)
Definition engine_ok (eng : PhysicsEngine.t) : Prop :=
  forall mid m f,
    In m (PhysicsEngine.mods_of mid eng) ->
    Dict.get "damage_multiplier" (PhysicsModification.parameters m) = Some f ->
    (0 <= f)%Q.

Definition physics_ok (ph : Physics.t) : Prop :=
  (0 <= Physics.damage_multiplier ph)%Q.

Definition damage_ok (z : Z) : Prop := (0 <= z)%Z.

Definition health_ok (m : MatchState.t) : Prop :=
  forall p, In p (MatchState.players m) -> (0 <= PlayerState.health p <= 100)%Z.

Definition match_ok (m : MatchState.t) : Prop :=
  arsenal_ok damage_ok m /\ health_ok m.

Definition server_ok (s : Server.t) : Prop :=
  engine_ok (MatchManager.physics_engine (Server.match_manager s))
  /\ (forall mid m,
        Dict.get mid (MatchManager.matches (Server.match_manager s)) = Some m ->
        match_ok m)
  /\ Balance.cache_kept (Server.weapon_generator s).

(** A player whose health was not negative has not been healed and still
    has no negative health. *)
Definition worn (q q' : PlayerState.t) : Prop :=
  (0 <= PlayerState.health q)%Z ->
  PlayerRel.no_heal q q' /\ (0 <= PlayerState.health q')%Z.

End Wf.

(** ** What an operation may do to the players of a match *)

Module HealthSpec.

(** A new player with full health is appended to the players, or is the
    only player of a new match that takes the place of the one stored
    under the same key. *)
Definition joined (pid : string) (m m' : MatchState.t) : Prop :=
  exists fresh,
    PlayerState.id fresh = pid /\ PlayerState.health fresh = 100%Z
    /\ (MatchState.players m' = (MatchState.players m ++ [fresh])%list
        \/ MatchState.players m' = [fresh]).

Definition unchanged (m m' : MatchState.t) : Prop :=
  MatchState.players m' = MatchState.players m.

(** How the players of a match stored before and after [op] compare:
    a disconnect may drop the player, matchmaking may add one and may
    start the match, and every other operation keeps the players, in their
    order, and raises nobody's health. *)
Definition health_change (op : Server.Op) (m m' : MatchState.t) : Prop :=
  match op with
  | Server.Disconnect _ pid =>
      unchanged m m'
      \/ MatchState.players m'
         = filter (fun p => negb (MatchManager.has_id pid p)) (MatchState.players m)
  | Server.FindOrCreateMatch _ pid => unchanged m m' \/ joined pid m m'
  | Server.FindMatch now pid =>
      unchanged m m' \/ joined pid m m'
      \/ exists m1, (unchanged m m1 \/ joined pid m m1)
                    /\ m' = MatchManager.started now m1
  | Server.StartMatch now _ => unchanged m m' \/ m' = MatchManager.started now m
  | _ => Forall2 PlayerRel.no_heal (MatchState.players m) (MatchState.players m')
  end.

End HealthSpec.

(** ** Queries of the physics engine ([services/physics_engine.py]) *)

Module PhysicsQueries.

(** Python's [xs[-n:]]: the last [n] elements for a positive [n], the whole
    list for [n = 0] (the slice starts at index [-0 = 0]), and the list
    without its first [-n] elements for a negative [n]. *)
Definition py_suffix (A : Type) (n : Z) (xs : list A) : list A :=
  if (0 <? n)%Z then skipn (length xs - Z.to_nat n) xs
  else skipn (Z.to_nat (- n)) xs.

(** [get_modification_history] *)
Definition get_modification_history (limit : Z) (eng : PhysicsEngine.t)
  : list PhysicsModification.t :=
  py_suffix limit (PhysicsEngine.modification_history eng).

End PhysicsQueries.

(** ** The keywords of the physics library that can never select their own
    entry *)

Module Keywords.
Open Scope string_scope.

(** A keyword together with the description of the library entry that
    lists it. *)
Definition shadowed : list (string * string) :=
  [ ("float free", "Zero Gravity")
  ; ("super slippery", "Super Slippery")
  ; ("slide everywhere", "Super Slippery")
  ; ("super bouncy", "Super Bouncy")
  ; ("mega bounce", "Super Bouncy")
  ; ("no bounce", "No Bounce")
  ; ("dead bounce", "No Bounce") ].

(** [kw] is a keyword of the library entry described as [descr]. *)
Definition keyword_of (kw descr : string) : bool :=
  existsb (fun e => String.eqb (PhysicsEngine.e_description e) descr
                    && PyStr.mem kw (PhysicsEngine.e_keywords e))
          PhysicsEngine.physics_library.

End Keywords.

(** ** Vocabulary for the weapon generator *)

Module Generated.

(** The score a weapon carries is the score of the stats it carries. *)
Definition scored (w : Weapon.t) : Prop :=
  Weapon.balance_score w = WeaponGenerator._calculate_balance_score (Weapon.properties w).

Definition cache_scored (cache : WeaponGenerator.t) : Prop :=
  forall w, In w (Dict.values cache) -> scored w.

(** The weapon a cache hit hands out: the stored stats under a new id, for
    the requesting player, stamped with the current time. *)
Definition reissued (fresh_id player_id : string) (now : Q) (w : Weapon.t) : Weapon.t :=
  Weapon.mk fresh_id (Weapon.name w) (Weapon.category w) (Weapon.properties w)
    (Weapon.sprite_url w) now (Weapon.balance_score w) player_id.

End Generated.

(** ** Vocabulary for the match manager *)

Module Arena.

(** Where [handle_player_input] keeps a player: 16 pixels inside the side
    walls and the ceiling, and not below the ground line at 500. *)
Definition holds_player (p : PlayerState.t) : Prop :=
  (16 <= x (PlayerState.position p) <= 1184)%Q
  /\ (16 <= y (PlayerState.position p) <= 500)%Q.

(** The bounds [_update_projectiles] keeps a projectile in. *)
Definition holds_projectile (pr : Projectile.t) : Prop :=
  (0 <= x (Projectile.position pr) <= 1200)%Q
  /\ (0 <= y (Projectile.position pr) <= 600)%Q.

(** The player can neither move nor fire in the match: the match is not
    stored or not ACTIVE, or the player is not in it or is dead. *)
Definition cannot_act (match_id player_id : string) (mm : MatchManager.t) : Prop :=
  match Dict.get match_id (MatchManager.matches mm) with
  | None => True
  | Some m =>
      MatchState.status m <> ACTIVE
      \/ match MatchManager.player_of player_id m with
         | None => True
         | Some p => PlayerState.is_alive p = false
         end
  end.

End Arena.

(** ** How one operation changes a stored match *)

Module Evolution.
Import MatchManager.

(** What the operations that work in place do to one player: damage to a
    living player, a new kill count, a new weapon cooldown, a movement
    step, a new weapon, in any number and order. *)
Inductive touched : PlayerState.t -> PlayerState.t -> Prop :=
| touched_refl p : touched p p
| touched_trans a b c : touched a b -> touched b c -> touched a c
| touched_damage dmg p :
    PlayerState.is_alive p = true -> touched p (take_damage dmg p)
| touched_kills k p : touched p (PlayerState.set_kills k p)
| touched_cooldown v p : touched p (PlayerState.set_weapon_cooldown v p)
| touched_move ph input p : touched p (move_player ph input p)
| touched_weapon v w p : touched p (Server.add_weapon v w p).

(** The id and the start time stay; the status stays or goes from ACTIVE
    to FINISHED. *)
Definition header_step (m m' : MatchState.t) : Prop :=
  MatchState.id m' = MatchState.id m
  /\ MatchState.start_time m' = MatchState.start_time m
  /\ (MatchState.status m' = MatchState.status m
      \/ MatchState.status m = ACTIVE /\ MatchState.status m' = FINISHED).

(** The five ways the match stored under a key after an operation comes
    from the match stored under it before: changed in place; a player
    left; a player left and the match was ended for it; a player joined;
    the match, possibly just joined, was started. *)
Definition evolved (m m' : MatchState.t) : Prop :=
  (header_step m m'
   /\ Forall2 touched (MatchState.players m) (MatchState.players m'))
  \/ (exists pid, abandoned (leave pid m) = false /\ m' = leave pid m)
  \/ (exists now pid eng,
        abandoned (leave pid m) = true
        /\ m' = fst (_end_match now (leave pid m) eng))
  \/ (exists pid, joinable m = true /\ m' = join pid m)
  \/ (exists now m1,
        (m1 = m \/ exists pid, joinable m = true /\ m1 = join pid m)
        /\ (2 <= length (MatchState.players m1))%nat
        /\ m' = started now m1).

(** The match a lone player opens. *)
Definition opened (mid : string) (m' : MatchState.t) : Prop :=
  exists pid,
    m' = MatchState.create mid
           [PlayerState.create pid (player_name pid) (mkVec2 200 500)].

(** What every player of a stored match satisfies. *)
Definition player_sound (p : PlayerState.t) : Prop :=
  Arena.holds_player p
  /\ (PlayerState.is_alive p = true <-> (0 < PlayerState.health p)%Z).

(** What every stored match satisfies. *)
Definition sound (mid : string) (m : MatchState.t) : Prop :=
  MatchState.id m = mid
  /\ (length (MatchState.players m) <= 2)%nat
  /\ (MatchState.status m = ACTIVE -> length (MatchState.players m) = 2%nat)
  /\ (MatchState.status m = WAITING -> MatchState.start_time m = None)
  /\ (MatchState.status m = WAITING \/ MatchState.status m = ACTIVE
      \/ MatchState.status m = FINISHED)
  /\ Forall player_sound (MatchState.players m).

(** No key occurs twice in the dictionary of matches. *)
Definition keys_ok (mm : MatchManager.t) : Prop := NoDup (Dict.keys (matches mm)).

Definition manager_sound (mm : MatchManager.t) : Prop :=
  keys_ok mm
  /\ forall mid m, Dict.get mid (matches mm) = Some m -> sound mid m.

End Evolution.

(** ** Queries of the match manager ([services/match_manager.py]) *)

Module ManagerQueries.
Import MatchManager.

(** [get_active_match_count] *)
Definition get_active_match_count (mm : MatchManager.t) : nat :=
  length (get_active_matches mm).

Definition with_status (st : MatchStatus) (mm : MatchManager.t) : list MatchState.t :=
  filter (fun m => MatchStatus_eqb (MatchState.status m) st) (Dict.values (matches mm)).

(** The dictionary [get_stats] returns. *)
Record Stats := mkStats {
  total_matches : nat;
  active_matches : nat;
  waiting_matches : nat;
  finished_matches : nat;
  total_players : nat
}.

Definition get_stats (mm : MatchManager.t) : Stats :=
  mkStats
    (length (matches mm))
    (length (get_active_matches mm))
    (length (with_status WAITING mm))
    (length (with_status FINISHED mm))
    (length (player_match_map mm)).

End ManagerQueries.

(** ** The automatic prompts ([master_prompt_scheduler] in [app/main.py]) *)

Module Scheduled.
Open Scope string_scope.

(** The effects the prompts of the scheduler select in the library. *)
Definition effects : list string :=
  [ "Low Gravity"; "Bouncy World"; "Ice Floor"; "Slow Motion"; "High Gravity";
    "Super Speed"; "Sticky Ground" ].

(** The scheduler is due for the match: it is ACTIVE and its last automatic
    prompt is more than 30 seconds old. *)
Definition due (now : Q) (m : MatchState.t) : bool :=
  MatchStatus_eqb (MatchState.status m) ACTIVE
  && Num.Qltb 30 (now - MatchState.last_master_prompt m).

End Scheduled.

(** ** More concrete states *)

Module Scenario.
Open Scope string_scope.

(** The server after alice, alone, asked for a match at time 0. *)
Definition waiting_room : Server.t :=
  Example.step0 (Server.FindMatch 0 "alice") Server.init.

(** The match of the lobby. *)
Definition lobby_match : option MatchState.t :=
  Dict.get "match_0" (MatchManager.matches (Server.match_manager Example.lobby)).

(** A match state that carries one low-gravity modification from time 0. *)
Definition floaty : PhysicsState.t :=
  PhysicsState.append_modification
    (PhysicsModification.mk "mod_0" GRAVITY "Low Gravity" [("multiplier", 3 # 10)]
       15 0 "match_0")
    PhysicsState.default.

Definition low_gravity_engine : PhysicsEngine.t :=
  snd (PhysicsEngine.apply_master_prompt Example.no_random 0 "low gravity" "match_0"
         PhysicsEngine.init).

End Scenario.

(** ** What [start_match] does to one player *)

Module Restart.

(** Health, life, weapons and cooldown are reset; the id, the name, the
    velocity and the kill and death counts are kept. *)
Definition reset (p p' : PlayerState.t) : Prop :=
  PlayerState.id p' = PlayerState.id p
  /\ PlayerState.name p' = PlayerState.name p
  /\ PlayerState.velocity p' = PlayerState.velocity p
  /\ PlayerState.kills p' = PlayerState.kills p
  /\ PlayerState.deaths p' = PlayerState.deaths p
  /\ PlayerState.health p' = 100%Z
  /\ PlayerState.is_alive p' = true
  /\ PlayerState.weapons p' = []
  /\ PlayerState.weapon_cooldown p' = 0%Q.

(** The weapons a player holds are the same. *)
Definition same_weapons (q q' : PlayerState.t) : Prop :=
  PlayerState.weapons q' = PlayerState.weapons q.

End Restart.

(** * Properties *)

(** ** Facts about the numeric helpers *)

Module NumFacts.
Import Num.

Lemma Qltb_lt x y : Qltb x y = true <-> (x < y)%Q.
Proof.
  unfold Qltb. rewrite negb_true_iff.
  split; intro H.
  - apply Qnot_le_lt. intro L. apply Qle_bool_iff in L. congruence.
  - destruct (Qle_bool y x) eqn:E; trivial.
    apply Qle_bool_iff in E. exfalso. exact (Qlt_not_le _ _ H E).
Qed.

Lemma Qltb_ge x y : Qltb x y = false <-> (y <= x)%Q.
Proof.
  unfold Qltb. rewrite negb_false_iff. apply Qle_bool_iff.
Qed.

Lemma py_int_nonneg x : (0 <= x)%Q -> (0 <= py_int x)%Z.
Proof.
  destruct x as [n d]. unfold Qle, py_int. simpl. intro H.
  apply Z.quot_pos; lia.
Qed.

Lemma py_int_inject (z : Z) : py_int (inject_Z z) = z.
Proof. unfold py_int. simpl. apply Z.quot_1_r. Qed.

End NumFacts.

(** ** Facts about dictionaries *)

Module DictFacts.
Import Dict.
Section Facts.
Variable V : Type.
Implicit Types (d : Dict.t V) (k : string) (v : V).

Lemma get_set_same k v d : get k (set k v d) = Some v.
Proof.
  induction d as [|[k' v'] d IH]; simpl.
  - now rewrite String.eqb_refl.
  - destruct (String.eqb k k') eqn:E; simpl; rewrite E; auto.
Qed.

Lemma get_set_other k k' v d : k <> k' -> get k' (set k v d) = get k' d.
Proof.
  intro N. induction d as [|[k0 v0] d IH]; simpl.
  - destruct (String.eqb k' k) eqn:E; trivial.
    apply String.eqb_eq in E. congruence.
  - destruct (String.eqb k k0) eqn:E; simpl.
    + apply String.eqb_eq in E. subst k0.
      destruct (String.eqb k' k) eqn:E'; trivial.
      apply String.eqb_eq in E'. congruence.
    + now rewrite IH.
Qed.

Lemma get_del_other k k' d : k <> k' -> get k' (del k d) = get k' d.
Proof.
  intro N. induction d as [|[k0 v0] d IH]; simpl; trivial.
  destruct (String.eqb k k0) eqn:E; simpl.
  - apply String.eqb_eq in E. subst k0.
    destruct (String.eqb k' k) eqn:E'; trivial.
    apply String.eqb_eq in E'. congruence.
  - now rewrite IH.
Qed.

Lemma get_del_same k d : get k (del k d) = None.
Proof.
  induction d as [|[k0 v0] d IH]; simpl; trivial.
  destruct (String.eqb k k0) eqn:E; simpl; trivial. now rewrite E.
Qed.

Lemma get_set k k' v d :
  get k' (set k v d) = if String.eqb k k' then Some v else get k' d.
Proof.
  destruct (String.eqb k k') eqn:E.
  - apply String.eqb_eq in E. subst. apply get_set_same.
  - apply get_set_other. intro. subst. now rewrite String.eqb_refl in E.
Qed.

Lemma get_del k k' d :
  get k' (del k d) = if String.eqb k k' then None else get k' d.
Proof.
  destruct (String.eqb k k') eqn:E.
  - apply String.eqb_eq in E. subst. apply get_del_same.
  - apply get_del_other. intro. subst. now rewrite String.eqb_refl in E.
Qed.

Lemma get_keys k v d : get k d = Some v -> In k (keys d).
Proof.
  induction d as [|[k' v'] d IH]; simpl; [discriminate|].
  destruct (String.eqb k k') eqn:E.
  - apply String.eqb_eq in E. now left.
  - intro H. right. auto.
Qed.

Lemma get_In k v d : get k d = Some v -> In (k, v) d.
Proof.
  induction d as [|[k' v'] d IH]; simpl; [discriminate|].
  destruct (String.eqb k k') eqn:E.
  - apply String.eqb_eq in E. intro H. inversion H. subst. now left.
  - intro H. right. auto.
Qed.

Lemma In_values_set k v d a :
  In a (values (set k v d)) -> a = v \/ In a (values d).
Proof.
  induction d as [|[k' v'] d IH]; simpl.
  - intros [H|[]]. now left.
  - destruct (String.eqb k k'); simpl.
    + intros [H|H]; auto.
    + intros [H|H]; auto. destruct (IH H); auto.
Qed.

Lemma In_values_del k d a : In a (values (del k d)) -> In a (values d).
Proof.
  unfold values, del. rewrite !in_map_iff.
  intros (kv & E & H). apply filter_In in H. exists kv. tauto.
Qed.

Lemma get_values k v d : get k d = Some v -> In v (values d).
Proof.
  intro H. apply get_In in H. unfold values.
  change v with (snd (k, v)). now apply in_map.
Qed.

End Facts.
End DictFacts.

(** ** Facts about the enumerations and [max] *)

Lemma MatchStatus_eqb_eq a b : MatchStatus_eqb a b = true <-> a = b.
Proof. destruct a, b; simpl; split; congruence. Qed.

Lemma WeaponCategory_eqb_eq a b : WeaponCategory_eqb a b = true <-> a = b.
Proof. destruct a, b; simpl; split; congruence. Qed.

Lemma PhysicsModType_eqb_eq a b : PhysicsModType_eqb a b = true <-> a = b.
Proof. destruct a, b; simpl; split; congruence. Qed.

Section PyMaxFacts.
Variable A : Type.
Variable key : A -> Z.

Lemma fold_max_step_In xs b :
  fold_left (max_step key) xs b = b \/ In (fold_left (max_step key) xs b) xs.
Proof.
  revert b. induction xs as [|a xs IH]; intro b; simpl; [now left|].
  destruct (IH (max_step key b a)) as [E|I]; [|now right; right].
  rewrite E. unfold max_step. destruct (key b <? key a)%Z; auto.
Qed.

Lemma fold_max_step_ge xs b :
  (key b <= key (fold_left (max_step key) xs b))%Z /\
  forall a, In a xs -> (key a <= key (fold_left (max_step key) xs b))%Z.
Proof.
  revert b. induction xs as [|a xs IH]; intro b; simpl.
  - split; [lia | tauto].
  - destruct (IH (max_step key b a)) as [Hb Hxs].
    assert (key b <= key (max_step key b a) /\ key a <= key (max_step key b a))%Z as [H1 H2].
    { unfold max_step. destruct (key b <? key a)%Z eqn:E.
      - apply Z.ltb_lt in E. lia.
      - apply Z.ltb_ge in E. lia. }
    split; [lia|]. intros c [<-|Hc]; [lia | auto].
Qed.

Lemma py_max_In xs m : py_max key xs = Some m -> In m xs.
Proof.
  destruct xs as [|a xs]; simpl; [discriminate|].
  intro H. inversion H.
  destruct (fold_max_step_In xs a) as [E|I]; [left; congruence | now right].
Qed.

Lemma py_max_ge xs m : py_max key xs = Some m -> forall a, In a xs -> (key a <= key m)%Z.
Proof.
  destruct xs as [|b xs]; simpl; [discriminate|].
  intro H. inversion H. subst m.
  destruct (fold_max_step_ge xs b) as [Hb Hxs].
  intros a [<-|Ha]; auto.
Qed.


End PyMaxFacts.

(** ** The physics engine *)

Module PhysicsFacts.
Import PhysicsModification PhysicsEngine.
Open Scope string_scope.

Lemma last_cons_default (A : Type) (l : list A) (a d : A) :
  last (a :: l) d = last l a.
Proof.
  revert a d. induction l as [|b l IH]; intros a d; [reflexivity|].
  change (last (a :: b :: l) d) with (last (b :: l) d).
  now rewrite (IH b d), (IH b a).
Qed.

Lemma multipliers_cons ty m mods :
  PhysicsSpec.multipliers ty (m :: mods) =
  if PhysicsModType_eqb (type m) ty
  then Dict.get_default "multiplier" 1 (parameters m) :: PhysicsSpec.multipliers ty mods
  else PhysicsSpec.multipliers ty mods.
Proof.
  unfold PhysicsSpec.multipliers, PhysicsSpec.of_type. simpl.
  destruct (PhysicsModType_eqb (type m) ty); reflexivity.
Qed.

Lemma scales_cons m mods :
  PhysicsSpec.scales (m :: mods) =
  if PhysicsModType_eqb (type m) TIME_SCALE
  then Dict.get_default "scale" 1 (parameters m) :: PhysicsSpec.scales mods
  else PhysicsSpec.scales mods.
Proof.
  unfold PhysicsSpec.scales, PhysicsSpec.of_type. simpl.
  destruct (PhysicsModType_eqb (type m) TIME_SCALE); reflexivity.
Qed.

Lemma behavior_factors_cons k m mods :
  PhysicsSpec.behavior_factors k (m :: mods) =
  if PhysicsModType_eqb (type m) WEAPON_BEHAVIOR
  then match Dict.get k (parameters m) with
       | Some f => f :: PhysicsSpec.behavior_factors k mods
       | None => PhysicsSpec.behavior_factors k mods
       end
  else PhysicsSpec.behavior_factors k mods.
Proof.
  unfold PhysicsSpec.behavior_factors, PhysicsSpec.of_type. simpl.
  destruct (PhysicsModType_eqb (type m) WEAPON_BEHAVIOR); simpl; trivial.
  destruct (Dict.get k (parameters m)); reflexivity.
Qed.

Lemma product_cons b v vs : Num.product b (v :: vs) = Num.product (b * v) vs.
Proof. reflexivity. Qed.

(** The loop of [calculate_current_physics] from an arbitrary starting
    dictionary, field by field. *)
Lemma fold_apply_mod mods p :
  fold_left apply_mod mods p =
  Physics.mk
    (Num.product (Physics.gravity p) (PhysicsSpec.multipliers GRAVITY mods))
    (Num.product (Physics.friction p) (PhysicsSpec.multipliers FRICTION mods))
    (Num.product (Physics.restitution p) (PhysicsSpec.multipliers BOUNCE mods))
    (last (PhysicsSpec.scales mods) (Physics.time_scale p))
    (Num.product (Physics.damage_multiplier p)
       (PhysicsSpec.behavior_factors "damage_multiplier" mods))
    (Num.product (Physics.cooldown_multiplier p)
       (PhysicsSpec.behavior_factors "cooldown_multiplier" mods))
    (Num.product (Physics.size_multiplier p)
       (PhysicsSpec.behavior_factors "size_multiplier" mods)).
Proof.
  revert p. induction mods as [|m mods IH]; intro p.
  - destruct p; reflexivity.
  - change (fold_left apply_mod (m :: mods) p)
      with (fold_left apply_mod mods (apply_mod p m)).
    rewrite IH, !multipliers_cons, scales_cons, !behavior_factors_cons.
    unfold apply_mod, scale_if_present.
    destruct (type m); cbn [PhysicsModType_eqb];
      rewrite ?product_cons, ?last_cons_default; cbn [Physics.gravity
        Physics.friction Physics.restitution Physics.time_scale
        Physics.damage_multiplier Physics.cooldown_multiplier
        Physics.size_multiplier]; try reflexivity.
    destruct (Dict.get "damage_multiplier" (parameters m));
    destruct (Dict.get "cooldown_multiplier" (parameters m));
    destruct (Dict.get "size_multiplier" (parameters m)); reflexivity.
Qed.

Lemma get_active_modifications_fst now mid eng :
  fst (get_active_modifications now mid eng) = filter (is_active now) (mods_of mid eng).
Proof.
  unfold get_active_modifications, mods_of, Dict.get_default.
  destruct (Dict.get mid (active_modifications eng)); reflexivity.
Qed.

Lemma mods_of_after_get now mid eng :
  mods_of mid (snd (get_active_modifications now mid eng)) =
  filter (is_active now) (mods_of mid eng).
Proof.
  unfold get_active_modifications, mods_of, Dict.get_default.
  destruct (Dict.get mid (active_modifications eng)) eqn:E; simpl.
  - now rewrite DictFacts.get_set_same.
  - now rewrite E.
Qed.

Lemma filter_idem (A : Type) (f : A -> bool) l : filter f (filter f l) = filter f l.
Proof.
  induction l as [|a l IH]; simpl; trivial.
  destruct (f a) eqn:E; simpl; [rewrite E|]; congruence.
Qed.

Lemma set_set_same (V : Type) k (v w : V) d : Dict.set k v (Dict.set k w d) = Dict.set k v d.
Proof.
  induction d as [|[k' v'] d IH]; simpl.
  - now rewrite String.eqb_refl.
  - destruct (String.eqb k k') eqn:E; simpl; rewrite E; congruence.
Qed.

(** A second read at the same instant finds nothing more to expire. *)
Lemma get_active_modifications_idem now mid eng :
  let r := get_active_modifications now mid eng in
  get_active_modifications now mid (snd r) = r.
Proof.
  unfold get_active_modifications.
  destruct (Dict.get mid (active_modifications eng)) eqn:E; simpl.
  - rewrite DictFacts.get_set_same, filter_idem, set_set_same. reflexivity.
  - now rewrite E.
Qed.



Lemma calculate_current_physics_idem now mid eng :
  let r := calculate_current_physics now mid eng in
  calculate_current_physics now mid (snd r) = r.
Proof.
  unfold calculate_current_physics.
  pose proof (get_active_modifications_idem now mid eng) as I. simpl in I.
  destruct (get_active_modifications now mid eng) as [a e'] eqn:G. simpl in *.
  rewrite I. reflexivity.
Qed.


End PhysicsFacts.

(** ** Ending a match: the winner *)

Module WinnerFacts.
Import MatchManager.

Section FirstMax.
Variable A : Type.
Variable key : A -> Z.



End FirstMax.



End WinnerFacts.

(** ** Combat: how one frame and one weapon use change the players *)

Module CombatFacts.
Import MatchManager.

Lemma update_first_length (A : Type) (p : A -> bool) f l :
  length (update_first p f l) = length l.
Proof.
  induction l as [|a l IH]; simpl; trivial. destruct (p a); simpl; congruence.
Qed.

Lemma Forall2_refl (A : Type) (P : A -> A -> Prop) :
  (forall a, P a a) -> forall l, Forall2 P l l.
Proof. intros H l. induction l; constructor; auto. Qed.

Lemma Forall2_trans (A : Type) (P : A -> A -> Prop) :
  (forall a b c, P a b -> P b c -> P a c) ->
  forall l1 l2 l3, Forall2 P l1 l2 -> Forall2 P l2 l3 -> Forall2 P l1 l3.
Proof.
  intros T l1 l2 l3 H. revert l3.
  induction H; intros l3 H3; inversion H3; subst; constructor; eauto.
Qed.

Lemma update_first_rel (A : Type) (P : A -> A -> Prop) (p : A -> bool) f l :
  (forall a, P a a) -> (forall a, In a l -> p a = true -> P a (f a)) ->
  Forall2 P l (update_first p f l).
Proof.
  intros R H. induction l as [|a l IH]; simpl; [constructor|].
  destruct (p a) eqn:E.
  - constructor; [apply H; simpl; auto | now apply Forall2_refl].
  - constructor; [apply R | apply IH; intros; apply H; simpl; auto].
Qed.

Lemma map_rel (A : Type) (P : A -> A -> Prop) (g : A -> A) l :
  (forall a, In a l -> P a (g a)) -> Forall2 P l (map g l).
Proof.
  intro H. induction l as [|a l IH]; simpl; constructor.
  - apply H. now left.
  - apply IH. intros. apply H. now right.
Qed.

(** The physics a frame computes is the same at every read of that frame. *)
Lemma physics_stable now mid eng :
  fst (PhysicsEngine.calculate_current_physics now mid
         (snd (PhysicsEngine.calculate_current_physics now mid eng)))
  = fst (PhysicsEngine.calculate_current_physics now mid eng).
Proof.
  pose proof (PhysicsFacts.calculate_current_physics_idem now mid eng) as H.
  simpl in H. now rewrite H.
Qed.

Lemma engine_stable now mid eng :
  snd (PhysicsEngine.calculate_current_physics now mid
         (snd (PhysicsEngine.calculate_current_physics now mid eng)))
  = snd (PhysicsEngine.calculate_current_physics now mid eng).
Proof.
  pose proof (PhysicsFacts.calculate_current_physics_idem now mid eng) as H.
  simpl in H. now rewrite H.
Qed.

Lemma same_frame_refl m : same_frame m m.
Proof. repeat split. Qed.

Lemma same_frame_trans a b c : same_frame a b -> same_frame b c -> same_frame a c.
Proof. unfold same_frame. intuition congruence. Qed.


Lemma apply_damage_frame now pr m eng :
  same_frame m (fst (_apply_damage now pr m eng)).
Proof.
  unfold _apply_damage.
  destruct (PhysicsEngine.calculate_current_physics now (MatchState.id m) eng) as [ph e1].
  repeat split. cbn.
  destruct (match find (is_target pr) (MatchState.players m) with
            | Some p => _ | None => false end);
    now rewrite ?update_first_length.
Qed.

Lemma apply_damage_engine now pr m eng :
  snd (_apply_damage now pr m eng)
  = snd (PhysicsEngine.calculate_current_physics now (MatchState.id m) eng).
Proof.
  unfold _apply_damage.
  now destruct (PhysicsEngine.calculate_current_physics now (MatchState.id m) eng).
Qed.

Lemma apply_damage_projectiles now pr m eng :
  MatchState.projectiles (fst (_apply_damage now pr m eng)) = MatchState.projectiles m.
Proof.
  unfold _apply_damage.
  now destruct (PhysicsEngine.calculate_current_physics now (MatchState.id m) eng).
Qed.

Lemma remove_first_incl (A : Type) (eqb : A -> A -> bool) a l :
  incl (remove_first eqb a l) l.
Proof.
  induction l as [|b l IH]; simpl; [apply incl_refl|].
  destruct (eqb a b).
  - apply incl_tl, incl_refl.
  - intros c [<-|H]; [now left | right; now apply IH].
Qed.

Lemma collide_one_frame now m eng pr :
  same_frame m (fst (collide_one now (m, eng) pr))
  /\ incl (MatchState.projectiles (fst (collide_one now (m, eng) pr)))
          (MatchState.projectiles m).
Proof.
  unfold collide_one.
  destruct (existsb (is_target pr) (MatchState.players m)); [|split; [apply same_frame_refl | apply incl_refl]].
  pose proof (apply_damage_frame now pr m eng) as F.
  pose proof (apply_damage_projectiles now pr m eng) as Q.
  destruct (_apply_damage now pr m eng) as [m1 e1]. simpl in *.
  split; [exact F|]. rewrite Q. apply remove_first_incl.
Qed.

Lemma check_collisions_frame_gen now prs : forall m eng,
  let r := fold_left (collide_one now) prs (m, eng) in
  same_frame m (fst r)
  /\ incl (MatchState.projectiles (fst r)) (MatchState.projectiles m).
Proof.
  induction prs as [|pr prs IH]; intros m eng; cbn [fold_left].
  - split; [apply same_frame_refl | apply incl_refl].
  - destruct (collide_one_frame now m eng pr) as [F I].
    destruct (collide_one now (m, eng) pr) as [m1 e1]. simpl in F, I.
    destruct (IH m1 e1) as [F' I']. split.
    + eapply same_frame_trans; eassumption.
    + eapply incl_tran; eassumption.
Qed.

Lemma advance_projectile_damage now ph pr pr' :
  advance_projectile now ph pr = Some pr' ->
  Projectile.damage pr' = Projectile.damage pr
  /\ Projectile.player_id pr' = Projectile.player_id pr.
Proof.
  unfold advance_projectile. destruct (Projectile.is_expired now pr); [discriminate|].
  match goal with |- context [if ?c then _ else _] => destruct c end; [|discriminate].
  intro H. inversion H. split; reflexivity.
Qed.

Lemma update_projectiles_spec now m eng :
  let r := _update_projectiles now m eng in
  same_frame m (fst r)
  /\ MatchState.players (fst r) = MatchState.players m
  /\ snd r = snd (PhysicsEngine.calculate_current_physics now (MatchState.id m) eng)
  /\ (forall pr', In pr' (MatchState.projectiles (fst r)) ->
        exists pr, In pr (MatchState.projectiles m)
                   /\ Projectile.damage pr' = Projectile.damage pr
                   /\ Projectile.player_id pr' = Projectile.player_id pr).
Proof.
  unfold _update_projectiles.
  destruct (PhysicsEngine.calculate_current_physics now (MatchState.id m) eng) as [ph e1].
  simpl. repeat split.
  intros pr' H. apply in_flat_map in H as (pr & Hin & H).
  destruct (advance_projectile now ph pr) as [q|] eqn:E; [|destruct H].
  destruct H as [<-|[]]. exists pr. split; trivial.
  now apply advance_projectile_damage with (now := now) (ph := ph).
Qed.

Lemma end_match_spec now m eng :
  let r := _end_match now m eng in
  MatchState.players (fst r) = MatchState.players m
  /\ MatchState.projectiles (fst r) = MatchState.projectiles m
  /\ MatchState.id (fst r) = MatchState.id m
  /\ MatchState.status (fst r) = FINISHED
  /\ MatchState.start_time (fst r) = MatchState.start_time m
  /\ MatchState.end_time (fst r) = Some now
  /\ snd r = PhysicsEngine.remove_match_modifications (MatchState.id m) eng.
Proof.
  unfold _end_match. simpl.
  destruct (MatchState.get_winner now _); repeat split.
Qed.

Section Frame.
(** A relation [P] between a player before and after, the damage amounts
    [D] it tolerates, the stored damage values [G] of weapons and
    projectiles and the physics [Eph] that produce tolerated amounts. *)
Variable P : PlayerState.t -> PlayerState.t -> Prop.
Variable D : Z -> Prop.
Variable G : Z -> Prop.
Variable Eph : Physics.t -> Prop.
Hypothesis P_refl : forall p, P p p.
Hypothesis P_trans : forall a b c, P a b -> P b c -> P a c.
Hypothesis P_damage :
  forall dmg p, D dmg -> PlayerState.is_alive p = true -> P p (take_damage dmg p).
Hypothesis P_kills : forall k p, P p (PlayerState.set_kills k p).
Hypothesis D_link :
  forall z ph, G z -> Eph ph ->
    D (Num.py_int (inject_Z z * Physics.damage_multiplier ph)).

Lemma apply_damage_rel now pr m eng :
  G (Projectile.damage pr) ->
  Eph (fst (PhysicsEngine.calculate_current_physics now (MatchState.id m) eng)) ->
  Forall2 P (MatchState.players m) (MatchState.players (fst (_apply_damage now pr m eng))).
Proof.
  intros Hg He. unfold _apply_damage.
  destruct (PhysicsEngine.calculate_current_physics now (MatchState.id m) eng) as [ph e1].
  simpl in He. cbn.
  set (dmg := final_damage pr ph).
  assert (Hd : D dmg) by (apply D_link; assumption).
  assert (H1 : Forall2 P (MatchState.players m)
                 (update_first (is_target pr) (take_damage dmg) (MatchState.players m))).
  { apply update_first_rel; trivial. intros a _ Ha. apply P_damage; trivial.
    unfold is_target in Ha. apply andb_true_iff in Ha as [Ha _].
    now apply andb_true_iff in Ha as [_ Ha]. }
  destruct (match find (is_target pr) (MatchState.players m) with
            | Some p => _ | None => false end); trivial.
  eapply Forall2_trans; [exact P_trans | exact H1 |].
  apply update_first_rel; trivial. intros a _ _. apply P_kills.
Qed.

Lemma collide_one_rel now pr m eng :
  G (Projectile.damage pr) ->
  Eph (fst (PhysicsEngine.calculate_current_physics now (MatchState.id m) eng)) ->
  Forall2 P (MatchState.players m)
    (MatchState.players (fst (collide_one now (m, eng) pr))).
Proof.
  intros Hg He. unfold collide_one.
  destruct (existsb (is_target pr) (MatchState.players m)); [|now apply Forall2_refl].
  pose proof (apply_damage_rel now pr m eng Hg He) as R.
  destruct (_apply_damage now pr m eng) as [m1 e1]. exact R.
Qed.

Lemma collide_one_engine now pr m eng :
  fst (PhysicsEngine.calculate_current_physics now (MatchState.id m)
         (snd (collide_one now (m, eng) pr)))
  = fst (PhysicsEngine.calculate_current_physics now (MatchState.id m) eng).
Proof.
  unfold collide_one.
  destruct (existsb (is_target pr) (MatchState.players m)); trivial.
  pose proof (apply_damage_engine now pr m eng) as E.
  destruct (_apply_damage now pr m eng) as [m1 e1]. simpl in *. subst e1.
  apply physics_stable.
Qed.

Lemma check_collisions_rel_gen now prs : forall m eng,
  Forall (fun pr => G (Projectile.damage pr)) prs ->
  Eph (fst (PhysicsEngine.calculate_current_physics now (MatchState.id m) eng)) ->
  Forall2 P (MatchState.players m)
    (MatchState.players (fst (fold_left (collide_one now) prs (m, eng)))).
Proof.
  induction prs as [|pr prs IH]; intros m eng Hg He; cbn [fold_left].
  - now apply Forall2_refl.
  - inversion Hg as [|? ? Hpr Hrest]; subst.
    pose proof (collide_one_rel now pr m eng Hpr He) as R1.
    pose proof (collide_one_engine now pr m eng) as E1.
    destruct (collide_one_frame now m eng pr) as [(Hid & _) _].
    destruct (collide_one now (m, eng) pr) as [m1 e1]. simpl in *.
    eapply Forall2_trans; [exact P_trans | exact R1 |].
    apply IH; trivial. rewrite Hid, E1. exact He.
Qed.

Lemma tick_active_rel now m eng :
  Forall (fun pr => G (Projectile.damage pr)) (MatchState.projectiles m) ->
  Eph (fst (PhysicsEngine.calculate_current_physics now (MatchState.id m) eng)) ->
  Forall2 P (MatchState.players m) (MatchState.players (fst (tick_active now m eng))).
Proof.
  intros Hg He. unfold tick_active.
  destruct (update_projectiles_spec now m eng) as ((Hid & _) & Hpl & Heng & Hpr).
  destruct (_update_projectiles now m eng) as [m1 e1]. simpl in *.
  assert (R : Forall2 P (MatchState.players m)
                (MatchState.players (fst (_check_collisions now m1 e1)))).
  { rewrite <- Hpl. apply check_collisions_rel_gen.
    - apply Forall_forall. intros pr' Hin. destruct (Hpr pr' Hin) as (pr & Hin' & -> & _).
      rewrite Forall_forall in Hg. now apply Hg.
    - rewrite Hid, Heng, physics_stable. exact He. }
  destruct (_check_collisions now m1 e1) as [m2 e2]. simpl in R.
  destruct (MatchState.is_finished now m2); trivial.
  destruct (end_match_spec now m2 e2) as (-> & _). exact R.
Qed.

End Frame.
End CombatFacts.

(** ** A projectile hits a player *)

Module HitFacts.
Import MatchManager.
Local Open Scope list_scope.

Section FirstMatch.
Variable A : Type.
Variable p : A -> bool.

Lemma update_first_split f (l1 : list A) a l2 :
  (forall b, In b l1 -> p b = false) -> p a = true ->
  update_first p f (l1 ++ a :: l2) = l1 ++ f a :: l2.
Proof.
  intros H1 Ha. induction l1 as [|b l1 IH]; simpl.
  - now rewrite Ha.
  - rewrite (H1 b) by now left. f_equal. apply IH. intros. apply H1. now right.
Qed.

Lemma find_split (l1 : list A) a l2 :
  (forall b, In b l1 -> p b = false) -> p a = true ->
  find p (l1 ++ a :: l2) = Some a.
Proof.
  intros H1 Ha. induction l1 as [|b l1 IH]; simpl.
  - now rewrite Ha.
  - rewrite (H1 b) by now left. apply IH. intros. apply H1. now right.
Qed.

Lemma existsb_split (l1 : list A) a l2 : p a = true -> existsb p (l1 ++ a :: l2) = true.
Proof.
  intro Ha. rewrite existsb_app. simpl. rewrite Ha. apply orb_true_r.
Qed.

Lemma find_update_first_other (q : A -> bool) f l :
  (forall a, q (f a) = q a) -> (forall a, p a = true -> q a = false) ->
  find q (update_first p f l) = find q l.
Proof.
  intros Hq Hpq. induction l as [|a l IH]; simpl; trivial.
  destruct (p a) eqn:E; simpl.
  - rewrite Hq, (Hpq a E). reflexivity.
  - destruct (q a); trivial.
Qed.

Lemma find_update_first_same f l a :
  (forall b, p (f b) = p b) ->
  find p l = Some a -> find p (update_first p f l) = Some (f a).
Proof.
  intros Hp. induction l as [|b l IH]; simpl; [discriminate|].
  destruct (p b) eqn:E; simpl.
  - intro H. inversion H. subst. now rewrite Hp, E.
  - rewrite E. exact IH.
Qed.

End FirstMatch.

Lemma remove_first_split (A : Type) (eqb : A -> A -> bool) x (a b : list A) :
  eqb x x = true -> (forall y, In y a -> eqb x y = false) ->
  remove_first eqb x (a ++ x :: b) = a ++ b.
Proof.
  intros Hx Ha. induction a as [|y a IH]; simpl.
  - now rewrite Hx.
  - rewrite (Ha y) by now left. f_equal. apply IH. intros. apply Ha. now right.
Qed.

Lemma Projectile_eqb_refl pr : Projectile.eqb pr pr = true.
Proof.
  unfold Projectile.eqb, Vec2_eqb.
  rewrite !String.eqb_refl, Z.eqb_refl. simpl.
  repeat (rewrite (proj2 (Qeq_bool_iff _ _) (Qeq_refl _)); simpl).
  reflexivity.
Qed.

Lemma take_damage_spec dmg p :
  let p' := take_damage dmg p in
  PlayerState.id p' = PlayerState.id p
  /\ PlayerState.health p' = Z.max 0 (PlayerState.health p - dmg)
  /\ PlayerState.kills p' = PlayerState.kills p
  /\ ((PlayerState.health p' <= 0)%Z ->
        PlayerState.is_alive p' = false
        /\ PlayerState.deaths p' = (PlayerState.deaths p + 1)%Z)
  /\ ((0 < PlayerState.health p')%Z ->
        PlayerState.is_alive p' = PlayerState.is_alive p
        /\ PlayerState.deaths p' = PlayerState.deaths p).
Proof.
  unfold take_damage. cbn [PlayerState.health PlayerState.set_health].
  destruct (Z.max 0 (PlayerState.health p - dmg) <=? 0)%Z eqn:E; cbn.
  - apply Z.leb_le in E. repeat split; trivial; lia.
  - apply Z.leb_gt in E. repeat split; trivial; lia.
Qed.

Lemma has_id_add_kill pid a : has_id pid (add_kill a) = has_id pid a.
Proof. reflexivity. Qed.

(** Awarding a kill changes nobody's health, life or death count. *)
Lemma award_kill_vitals pid l :
  Forall2 (fun q q' => PlayerState.health q' = PlayerState.health q
                       /\ PlayerState.is_alive q' = PlayerState.is_alive q
                       /\ PlayerState.deaths q' = PlayerState.deaths q)
          l (update_first (has_id pid) add_kill l).
Proof.
  apply CombatFacts.update_first_rel; [tauto|]. intros a _ _. repeat split.
Qed.

Lemma create_projectile_spec sqrt now m player weapon target ph :
  let m1 := _create_projectile sqrt now m player weapon target ph in
  MatchState.players m1 = MatchState.players m
  /\ (MatchState.projectiles m1 = MatchState.projectiles m
      \/ exists pr,
           MatchState.projectiles m1 = MatchState.projectiles m ++ [pr]
           /\ Projectile.damage pr =
                Num.py_int (inject_Z (WeaponProperties.damage (Weapon.properties weapon))
                            * Physics.damage_multiplier ph)
           /\ Projectile.player_id pr = PlayerState.id player).
Proof.
  unfold _create_projectile. destruct target as [target|]; [|simpl; auto].
  destruct (Qeq_bool _ 0); [simpl; auto|].
  destruct (_ =? 0)%Z; [simpl; auto|].
  simpl. split; trivial. right. eexists. repeat split.
Qed.

(** C5 (as the code has it). When a projectile meets its first target --
    the first player in list order who is not its owner, is alive and
    overlaps it -- the damage is the projectile's stored damage times the
    current damage multiplier, truncated toward zero; the target's health
    drops by it and is clamped at 0; a target whose health reaches 0 is
    marked dead, its deaths grow by one and the kills of the shooter (the
    first player with the projectile's owner id) grow by one; nobody else's
    health, life or deaths change; the projectile is removed. The damage a
    projectile stores is the weapon damage times the multiplier at the time
    it was fired, truncated. *)
Theorem projectile_hit now m eng pr l1 p l2 :
  MatchState.players m = l1 ++ p :: l2 ->
  (forall q, In q l1 -> is_target pr q = false) ->
  is_target pr p = true ->
  let ph := fst (PhysicsEngine.calculate_current_physics now (MatchState.id m) eng) in
  let dmg := Num.py_int (inject_Z (Projectile.damage pr) * Physics.damage_multiplier ph) in
  let p' := take_damage dmg p in
  let m' := fst (collide_one now (m, eng) pr) in
  PlayerState.health p' = Z.max 0 (PlayerState.health p - dmg)
  /\ ((PlayerState.health p' <= 0)%Z ->
        PlayerState.is_alive p' = false
        /\ PlayerState.deaths p' = (PlayerState.deaths p + 1)%Z
        /\ forall shooter,
             player_of (Projectile.player_id pr) m = Some shooter ->
             player_of (Projectile.player_id pr) m' = Some (add_kill shooter))
  /\ Forall2 PlayerRel.same_vitals (l1 ++ p' :: l2) (MatchState.players m')
  /\ (forall a b, MatchState.projectiles m = a ++ pr :: b ->
        (forall y, In y a -> Projectile.eqb pr y = false) ->
        MatchState.projectiles m' = a ++ b)
  /\ (forall sqrt t0 m0 player weapon target ph0 pr0,
        MatchState.projectiles (_create_projectile sqrt t0 m0 player weapon target ph0)
          = MatchState.projectiles m0 ++ [pr0] ->
        Projectile.damage pr0 =
          Num.py_int (inject_Z (WeaponProperties.damage (Weapon.properties weapon))
                      * Physics.damage_multiplier ph0)).
Proof.
  intros Hpl Hl1 Hp ph dmg p' m'.
  destruct (take_damage_spec dmg p) as (Hid & Hh & Hk & Hdead & Hlive).
  fold p' in Hid, Hh, Hk, Hdead, Hlive.
  assert (Hm' : MatchState.players m' =
                (if (PlayerState.health p' <=? 0)%Z
                 then update_first (has_id (Projectile.player_id pr)) add_kill
                        (l1 ++ p' :: l2)
                 else l1 ++ p' :: l2)
                /\ MatchState.projectiles m' =
                   remove_first Projectile.eqb pr (MatchState.projectiles m)).
  { unfold m', collide_one. rewrite Hpl, existsb_split by assumption.
    unfold _apply_damage. fold ph.
    destruct (PhysicsEngine.calculate_current_physics now (MatchState.id m) eng)
      as [ph0 e1] eqn:Ecalc.
    simpl in ph. subst ph. cbn.
    rewrite Hpl, (@find_split _ (is_target pr) l1 p l2 Hl1 Hp),
      (@update_first_split _ (is_target pr) (take_damage (final_damage pr ph0)) l1 p l2 Hl1 Hp).
    fold dmg. unfold final_damage. fold dmg. fold p'. split; reflexivity. }
  destruct Hm' as [Hplayers Hproj].
  split; [exact Hh|]. split.
  { intro Hz. destruct (Hdead Hz) as [Ha Hd]. repeat split; trivial.
    intros shooter Hs. unfold player_of in *. rewrite Hplayers.
    apply Z.leb_le in Hz. rewrite Hz.
    apply find_update_first_same; [intro; reflexivity|]. unfold p'.
    rewrite <- (@update_first_split _ (is_target pr) (take_damage dmg) l1 p l2 Hl1 Hp), <- Hpl.
    rewrite find_update_first_other; trivial.
    - intro a. unfold has_id. now destruct (take_damage_spec dmg a) as (-> & _).
    - intros a Ha'. unfold is_target in Ha'. unfold has_id.
      destruct (String.eqb (PlayerState.id a) (Projectile.player_id pr)); trivial.
      discriminate. }
  split.
  { rewrite Hplayers. destruct (PlayerState.health p' <=? 0)%Z.
    - apply award_kill_vitals.
    - apply CombatFacts.Forall2_refl. intro. repeat split. }
  split.
  { intros a b Hab Ha. rewrite Hproj, Hab.
    apply remove_first_split; [apply Projectile_eqb_refl | exact Ha]. }
  intros sqrt t0 m0 player weapon target ph0 pr0 H.
  destruct (create_projectile_spec sqrt t0 m0 player weapon target ph0) as [_ [E|(q & E & Hq & _)]].
  - rewrite E in H. exfalso. apply (f_equal (@length _)) in H.
    rewrite length_app in H. simpl in H. lia.
  - rewrite E in H. apply app_inj_tail in H as [_ <-]. exact Hq.
Qed.

(** The scenario of the specification: a player at 10 health hit by a
    projectile dealing 25 damage under multiplier 1 ends at health 0, dead,
    and the shooter's kills grow by one. *)
Lemma projectile_hit_witness :
  let m' := fst (collide_one 1 (Example.duel [Example.alice; Example.bob_weak]
                                  [Example.shot 25], PhysicsEngine.init)
                   (Example.shot 25)) in
  map PlayerState.health (MatchState.players m') = [100; 0]%Z
  /\ map PlayerState.is_alive (MatchState.players m') = [true; false]
  /\ map PlayerState.kills (MatchState.players m') = [1; 0]%Z
  /\ map PlayerState.deaths (MatchState.players m') = [0; 1]%Z
  /\ MatchState.projectiles m' = [].
Proof.
  pose proof (@projectile_hit 1
                (Example.duel [Example.alice; Example.bob_weak] [Example.shot 25])
                PhysicsEngine.init (Example.shot 25)
                [Example.alice] Example.bob_weak [] eq_refl) as H.
  assert (H1 : forall q, In q [Example.alice] -> is_target (Example.shot 25) q = false).
  { intros q [<-|[]]. reflexivity. }
  specialize (H H1 eq_refl). cbv zeta in H.
  destruct H as (_ & _ & _ & Hpr & _).
  specialize (Hpr [] [] eq_refl (fun y (F : In y []) => match F with end)).
  cbv zeta. rewrite Hpr. vm_compute. repeat split.
Defined.

(** C5 as stated fails: with two "giant weapons" modifications active the
    multiplier is 9/4, a projectile of damage 15 takes int(33.75) = 33
    health, not round(33.75) = 34. *)
Lemma projectile_hit_truncates :
  let ph := fst (PhysicsEngine.calculate_current_physics 1 "match_0" Example.two_giants) in
  let m' := fst (collide_one 1 (Example.duel [Example.alice; Example.bob]
                                  [Example.shot 15], Example.two_giants)
                   (Example.shot 15)) in
  Qeq (inject_Z 15 * Physics.damage_multiplier ph) (135 # 4)
  /\ Num.py_round (inject_Z 15 * Physics.damage_multiplier ph) = 34%Z
  /\ map PlayerState.health (MatchState.players m') = [100; 100 - 33]%Z
  /\ map PlayerState.health (MatchState.players m')
     <> [100; 100 - Num.py_round (inject_Z 15 * Physics.damage_multiplier ph)]%Z.
Proof.
  vm_compute. repeat split; congruence.
Qed.

End HitFacts.

(** ** The effect of each operation on one match *)

Module EffectFacts.
Import MatchManager.
Local Open Scope list_scope.

Lemma eqb_neq k k' : k <> k' -> String.eqb k k' = false.
Proof. intro N. destruct (String.eqb k k') eqn:E; trivial. apply String.eqb_eq in E. contradiction. Qed.

(** *** Folding an update over the keys of the dictionary *)

Section Fold.
Variable f : MatchManager.t -> string -> MatchManager.t.
Variable mid : string.
Variable R : MatchState.t -> MatchState.t -> Prop.
Variable Inv : MatchManager.t -> Prop.
Hypothesis R_trans : forall a b c, R a b -> R b c -> R a c.
Hypothesis f_inv : forall mm k, Inv mm -> Inv (f mm k).
Hypothesis f_local :
  forall mm k, k <> mid -> Dict.get mid (matches (f mm k)) = Dict.get mid (matches mm).
Hypothesis f_gone :
  forall mm, Dict.get mid (matches mm) = None -> Dict.get mid (matches (f mm mid)) = None.
Hypothesis f_at :
  forall mm m m', Inv mm -> Dict.get mid (matches mm) = Some m ->
    Dict.get mid (matches (f mm mid)) = Some m' -> R m m'.

Lemma fold_gone ks : forall mm,
  Dict.get mid (matches mm) = None ->
  Dict.get mid (matches (fold_left f ks mm)) = None.
Proof.
  induction ks as [|k ks IH]; intros mm H; simpl; trivial.
  apply IH. destruct (string_dec k mid) as [->|N].
  - now apply f_gone.
  - now rewrite f_local.
Qed.

Lemma fold_inv ks : forall mm, Inv mm -> Inv (fold_left f ks mm).
Proof. induction ks; simpl; auto. Qed.

(** A key that is not visited keeps its match. *)
Lemma fold_untouched ks : forall mm,
  ~ In mid ks ->
  Dict.get mid (matches (fold_left f ks mm)) = Dict.get mid (matches mm).
Proof.
  induction ks as [|k ks IH]; intros mm H; simpl; trivial.
  rewrite IH by (intro; apply H; now right).
  apply f_local. intro. apply H. now left.
Qed.

(** A key that is visited is related to what it was by [R]. *)
Lemma fold_visited ks : forall mm m m',
  Inv mm -> In mid ks ->
  Dict.get mid (matches mm) = Some m ->
  Dict.get mid (matches (fold_left f ks mm)) = Some m' -> R m m'.
Proof.
  induction ks as [|k ks IH]; intros mm m m' Hi Hin Hm Hm'; [destruct Hin|].
  simpl in Hm'. destruct (string_dec k mid) as [->|N].
  - destruct (Dict.get mid (matches (f mm mid))) as [m1|] eqn:E1.
    + pose proof (f_at Hi Hm E1) as R1.
      destruct (in_dec string_dec mid ks) as [I|NI].
      * eapply R_trans; [exact R1|]. apply (IH (f mm mid) m1 m'); auto.
      * rewrite fold_untouched in Hm' by assumption. congruence.
    + rewrite fold_gone in Hm' by assumption. discriminate.
  - destruct Hin as [->|Hin]; [contradiction|].
    apply (IH (f mm k) m m'); auto. now rewrite f_local.
Qed.

End Fold.

(** *** One key of [update_matches] *)

Lemma cleanup_match_get k mid mm :
  Dict.get mid (matches (_cleanup_match k mm)) =
  match Dict.get k (matches mm) with
  | Some _ => if String.eqb k mid then None else Dict.get mid (matches mm)
  | None => Dict.get mid (matches mm)
  end.
Proof.
  unfold _cleanup_match. destruct (Dict.get k (matches mm)); trivial.
  simpl. apply DictFacts.get_del.
Qed.

Lemma update_match_local now mm k mid :
  k <> mid ->
  Dict.get mid (matches (update_match now mm k)) = Dict.get mid (matches mm).
Proof.
  intro N. unfold update_match.
  destruct (Dict.get k (matches mm)) as [m|] eqn:E; trivial.
  destruct (MatchState.status m); trivial.
  - destruct (MatchState.truthy _); destruct (Num.Qltb 120 _); trivial;
      rewrite cleanup_match_get, E, (eqb_neq N); reflexivity.
  - destruct (tick_active now m (physics_engine mm)). simpl.
    now apply DictFacts.get_set_other.
  - destruct (MatchState.truthy _); trivial. destruct (Num.Qltb 300 _); trivial.
    rewrite cleanup_match_get, E, (eqb_neq N); reflexivity.
Qed.

Lemma update_match_gone now mm mid :
  Dict.get mid (matches mm) = None ->
  Dict.get mid (matches (update_match now mm mid)) = None.
Proof. intro H. unfold update_match. now rewrite H. Qed.

(** What [update_matches] does at a key: an ACTIVE match is advanced by one
    frame; any other match is left as it is or reclaimed. *)
Lemma update_match_at now mm mid m m' :
  Dict.get mid (matches mm) = Some m ->
  Dict.get mid (matches (update_match now mm mid)) = Some m' ->
  if MatchStatus_eqb (MatchState.status m) ACTIVE
  then m' = fst (tick_active now m (physics_engine mm))
  else m' = m.
Proof.
  intros Hm. unfold update_match. rewrite Hm.
  destruct (MatchState.status m) eqn:S; simpl; try congruence.
  - destruct (MatchState.truthy _); destruct (Num.Qltb 120 _);
      rewrite ?cleanup_match_get, ?Hm, ?String.eqb_refl; congruence.
  - destruct (tick_active now m (physics_engine mm)). simpl.
    rewrite DictFacts.get_set_same. congruence.
  - destruct (MatchState.truthy _); try congruence. destruct (Num.Qltb 300 _);
      rewrite ?cleanup_match_get, ?Hm, ?String.eqb_refl; congruence.
Qed.

Lemma update_match_engine now mm k :
  physics_engine (update_match now mm k) = physics_engine mm
  \/ (exists m, Dict.get k (matches mm) = Some m
                /\ MatchState.status m = ACTIVE
                /\ physics_engine (update_match now mm k)
                   = snd (tick_active now m (physics_engine mm)))
  \/ physics_engine (update_match now mm k)
     = PhysicsEngine.remove_match_modifications k (physics_engine mm).
Proof.
  unfold update_match.
  destruct (Dict.get k (matches mm)) as [m|] eqn:E; auto.
  assert (C : physics_engine (_cleanup_match k mm)
              = PhysicsEngine.remove_match_modifications k (physics_engine mm)).
  { unfold _cleanup_match. now rewrite E. }
  destruct (MatchState.status m) eqn:S; auto.
  - destruct (MatchState.truthy _); destruct (Num.Qltb 120 _); auto.
  - right. left. exists m. repeat split; trivial.
    destruct (tick_active now m (physics_engine mm)). reflexivity.
  - destruct (MatchState.truthy _); auto. destruct (Num.Qltb 300 _); auto.
Qed.

(** *** The methods of the manager *)

Ltac same_or_here E :=
  rewrite DictFacts.get_set;
  match goal with
  | |- context [String.eqb ?k ?mid] =>
      destruct (String.eqb k mid) eqn:E;
      [apply String.eqb_eq in E; subst | now left]
  end.

Lemma handle_player_input_effect now k pid input mm mid :
  Dict.get mid (matches (handle_player_input now k pid input mm))
    = Dict.get mid (matches mm)
  \/ exists m, k = mid /\ Dict.get mid (matches mm) = Some m
       /\ MatchState.status m = ACTIVE
       /\ Dict.get mid (matches (handle_player_input now k pid input mm))
          = Some (update_player pid
                    (move_player
                       (fst (PhysicsEngine.calculate_current_physics now k
                               (physics_engine mm))) input) m).
Proof.
  unfold handle_player_input.
  destruct (Dict.get k (matches mm)) as [m|] eqn:E; [|now left].
  destruct (MatchStatus_eqb (MatchState.status m) ACTIVE) eqn:S; [|now left]. simpl.
  destruct (player_of pid m) as [player|]; [|now left].
  destruct (PlayerState.is_alive player); [|now left]. simpl.
  destruct (PhysicsEngine.calculate_current_physics now k (physics_engine mm)) as [ph e1].
  simpl. same_or_here K. right. exists m. apply MatchStatus_eqb_eq in S. auto.
Qed.

Lemma handle_player_input_engine now k pid input mm :
  physics_engine (handle_player_input now k pid input mm) = physics_engine mm
  \/ physics_engine (handle_player_input now k pid input mm)
     = snd (PhysicsEngine.calculate_current_physics now k (physics_engine mm)).
Proof.
  unfold handle_player_input.
  destruct (Dict.get k (matches mm)) as [m|]; [|now left].
  destruct (negb _); [now left|].
  destruct (player_of pid m) as [player|]; [|now left].
  destruct (negb _); [now left|].
  destruct (PhysicsEngine.calculate_current_physics now k (physics_engine mm)).
  now right.
Qed.

Lemma use_weapon_effect sqrt now k pid wid target mm mid :
  Dict.get mid (matches (use_weapon sqrt now k pid wid target mm))
    = Dict.get mid (matches mm)
  \/ exists m player weapon,
       k = mid /\ Dict.get mid (matches mm) = Some m
       /\ MatchState.status m = ACTIVE
       /\ player_of pid m = Some player
       /\ PlayerState.is_alive player = true
       /\ find_weapon wid player = Some weapon
       /\ Dict.get mid (matches (use_weapon sqrt now k pid wid target mm))
          = Some (fire sqrt now pid player weapon target
                    (fst (PhysicsEngine.calculate_current_physics now k
                            (physics_engine mm))) m).
Proof.
  unfold use_weapon.
  destruct (Dict.get k (matches mm)) as [m|] eqn:E; [|now left].
  destruct (MatchStatus_eqb (MatchState.status m) ACTIVE) eqn:S; [|now left]. simpl.
  destruct (player_of pid m) as [player|] eqn:Ep; [|now left].
  destruct (PlayerState.is_alive player) eqn:Ea; [|now left]. simpl.
  destruct (find_weapon wid player) as [weapon|] eqn:Ew; [|now left].
  destruct (PhysicsEngine.calculate_current_physics now k (physics_engine mm)) as [ph e1].
  simpl. same_or_here K. right. exists m, player, weapon.
  apply MatchStatus_eqb_eq in S. auto 10.
Qed.

Lemma use_weapon_engine sqrt now k pid wid target mm :
  physics_engine (use_weapon sqrt now k pid wid target mm) = physics_engine mm
  \/ physics_engine (use_weapon sqrt now k pid wid target mm)
     = snd (PhysicsEngine.calculate_current_physics now k (physics_engine mm)).
Proof.
  unfold use_weapon.
  destruct (Dict.get k (matches mm)) as [m|]; [|now left].
  destruct (negb _); [now left|].
  destruct (player_of pid m) as [player|]; [|now left].
  destruct (negb _); [now left|].
  destruct (find_weapon wid player); [|now left].
  destruct (PhysicsEngine.calculate_current_physics now k (physics_engine mm)).
  now right.
Qed.

(** [remove_player] touches the match the player is mapped to, and only it. *)
Lemma remove_player_effect now pid mm mid :
  Dict.get mid (matches (remove_player now pid mm)) =
  match Dict.get pid (player_match_map mm) with
  | Some k =>
      if String.eqb k mid
      then match Dict.get mid (matches mm) with
           | Some m =>
               Some (if abandoned (leave pid m)
                     then fst (_end_match now (leave pid m) (physics_engine mm))
                     else leave pid m)
           | None => None
           end
      else Dict.get mid (matches mm)
  | None => Dict.get mid (matches mm)
  end.
Proof.
  unfold remove_player.
  destruct (Dict.get pid (player_match_map mm)) as [k|]; trivial.
  cbn [matches set_player_match_map].
  destruct (String.eqb k mid) eqn:K.
  - apply String.eqb_eq in K. subst k.
    destruct (Dict.get mid (matches mm)) as [m|] eqn:E; trivial.
    destruct (abandoned (leave pid m)).
    + destruct (_end_match now (leave pid m) (physics_engine mm)). simpl.
      apply DictFacts.get_set_same.
    + simpl. apply DictFacts.get_set_same.
  - destruct (Dict.get k (matches mm)) as [m|] eqn:E; trivial.
    destruct (abandoned (leave pid m)).
    + destruct (_end_match now (leave pid m) (physics_engine mm)). simpl.
      rewrite DictFacts.get_set, K. reflexivity.
    + simpl. rewrite DictFacts.get_set, K. reflexivity.
Qed.

Lemma remove_player_engine now pid mm :
  physics_engine (remove_player now pid mm) = physics_engine mm
  \/ exists k, physics_engine (remove_player now pid mm)
               = PhysicsEngine.remove_match_modifications k (physics_engine mm).
Proof.
  unfold remove_player.
  destruct (Dict.get pid (player_match_map mm)) as [k|]; [|now left].
  destruct (Dict.get k (matches mm)) as [m|]; [|now left].
  destruct (abandoned (leave pid m)); [|now left].
  right. exists (MatchState.id (leave pid m)).
  unfold _end_match. simpl. reflexivity.
Qed.

Lemma join_first_effect pid d m' d' mid :
  join_first pid d = Some (m', d') ->
  Dict.get mid d' = Dict.get mid d
  \/ exists m, Dict.get mid d = Some m /\ joinable m = true
               /\ Dict.get mid d' = Some (join pid m).
Proof.
  revert m' d'. induction d as [|[k m] d IH]; intros m' d'; simpl; [discriminate|].
  destruct (joinable m) eqn:J.
  - intro H. inversion H. subst. simpl.
    destruct (String.eqb mid k); [|now left]. right. exists m. auto.
  - destruct (join_first pid d) as [[m1 d1]|]; [|discriminate].
    intro H. inversion H. subst. simpl.
    destruct (String.eqb mid k); [now left|]. now apply (IH m').
Qed.

(** The new match a lone player gets. *)
Lemma find_or_create_match_effect now pid mm mid :
  let mm' := snd (find_or_create_match now pid mm) in
  physics_engine mm' = physics_engine mm
  /\ (Dict.get mid (matches mm') = Dict.get mid (matches mm)
      \/ (exists m, Dict.get mid (matches mm) = Some m /\ joinable m = true
                    /\ Dict.get mid (matches mm') = Some (join pid m))
      \/ Dict.get mid (matches mm')
         = Some (MatchState.create mid
                   [PlayerState.create pid (player_name pid) (mkVec2 200 500)])).
Proof.
  unfold find_or_create_match.
  destruct (match Dict.get pid (player_match_map mm) with
            | Some match_id => Dict.get match_id (matches mm)
            | None => None end); [simpl; auto|].
  destruct (join_first pid (matches mm)) as [[m1 d1]|] eqn:J; simpl.
  - split; trivial. destruct (join_first_effect _ _ mid J) as [H|H]; auto.
  - split; trivial. rewrite DictFacts.get_set.
    destruct (String.eqb _ mid) eqn:K; [|now left].
    apply String.eqb_eq in K. rewrite K. auto.
Qed.

Lemma start_match_effect now k mm mid :
  let mm' := snd (start_match now k mm) in
  physics_engine mm' = physics_engine mm
  /\ (Dict.get mid (matches mm') = Dict.get mid (matches mm)
      \/ exists m, k = mid /\ Dict.get mid (matches mm) = Some m
                   /\ (2 <= length (MatchState.players m))%nat
                   /\ Dict.get mid (matches mm') = Some (started now m)).
Proof.
  unfold start_match.
  destruct (Dict.get k (matches mm)) as [m|] eqn:E; [|simpl; auto].
  destruct (length (MatchState.players m) <? 2)%nat eqn:L; [simpl; auto|].
  simpl. split; trivial. apply Nat.ltb_ge in L.
  same_or_here K. right. exists m. auto.
Qed.

End EffectFacts.

(** ** The effect of each server operation on one match *)

Module ServerFacts.
Import MatchManager Server EffectFacts.
Local Open Scope list_scope.

Lemma handle_master_prompt_effect now rnd pid prompt k s mid :
  let s' := handle_master_prompt now rnd pid prompt k s in
  Dict.get mid (matches (match_manager s')) = Dict.get mid (matches (match_manager s))
  \/ exists m modification,
       k = mid /\ Dict.get mid (matches (match_manager s)) = Some m
       /\ Dict.get mid (matches (match_manager s'))
          = Some (record_modification now modification m).
Proof.
  unfold handle_master_prompt.
  destruct (String.length (PyStr.strip prompt) =? 0)%nat; [now left|].
  unfold get_match.
  destruct (Dict.get k (matches (match_manager s))) as [m|] eqn:E; [|now left].
  destruct (PhysicsEngine.apply_master_prompt rnd now (PyStr.strip prompt) k _)
    as [[modification|] e1]; [|now left].
  simpl. same_or_here K. right. exists m, modification. auto.
Qed.

Lemma schedule_match_local now rnd pick mm k mid :
  k <> mid ->
  Dict.get mid (matches (schedule_match now rnd pick mm k)) = Dict.get mid (matches mm).
Proof.
  intro N. unfold schedule_match.
  destruct (Dict.get k (matches mm)) as [m|]; trivial.
  destruct (_ && _); trivial.
  destruct (PhysicsEngine.apply_master_prompt rnd now _ (MatchState.id m) _)
    as [[modification|] e1]; trivial.
  simpl. now apply DictFacts.get_set_other.
Qed.

Lemma schedule_match_gone now rnd pick mm mid :
  Dict.get mid (matches mm) = None ->
  Dict.get mid (matches (schedule_match now rnd pick mm mid)) = None.
Proof. intro H. unfold schedule_match. now rewrite H. Qed.

Lemma schedule_match_at now rnd pick mm mid m m' :
  Dict.get mid (matches mm) = Some m ->
  Dict.get mid (matches (schedule_match now rnd pick mm mid)) = Some m' ->
  m' = m
  \/ exists modification,
       m' = MatchState.set_last_master_prompt now (record_modification now modification m).
Proof.
  intro Hm. unfold schedule_match. rewrite Hm.
  destruct (_ && _); [|left; congruence].
  destruct (PhysicsEngine.apply_master_prompt rnd now _ (MatchState.id m) _)
    as [[modification|] e1]; simpl; [|left; congruence].
  rewrite DictFacts.get_set_same. intro H. inversion H. right. now exists modification.
Qed.

Section Generation.
Variable hash : string -> Z.
Variable md5 : string -> string.
Variable _generate_weapon_sprite : string -> WeaponCategory -> string.
Variable _get_default_sprite : string.

Lemma handle_weapon_generation_effect now now_done fresh_id ai pid prompt k s mid :
  let r := handle_weapon_generation hash md5 _generate_weapon_sprite _get_default_sprite
             now now_done fresh_id ai pid prompt k s in
  physics_engine (match_manager (snd r)) = physics_engine (match_manager s)
  /\ (Dict.get mid (matches (match_manager (snd r)))
        = Dict.get mid (matches (match_manager s))
      \/ exists m weapon,
           k = mid /\ Dict.get mid (matches (match_manager s)) = Some m
           /\ fst r = Generated weapon
           /\ fst (WeaponGenerator.generate_weapon hash md5 _generate_weapon_sprite
                     _get_default_sprite now fresh_id ai (PyStr.strip prompt) pid k
                     (weapon_generator s)) = Some weapon
           /\ Dict.get mid (matches (match_manager (snd r)))
              = Some (update_player pid (add_weapon (now_done + 12) weapon) m)).
Proof.
  unfold handle_weapon_generation.
  destruct (prompt_rejected (PyStr.strip prompt)); [simpl; auto|].
  unfold get_match.
  destruct (Dict.get k (matches (match_manager s))) as [m|] eqn:E; [|simpl; auto].
  destruct (player_of pid m) as [player|]; [|simpl; auto].
  destruct (Num.Qltb now (PlayerState.weapon_cooldown player)); [simpl; auto|].
  destruct (WeaponGenerator.generate_weapon hash md5 _generate_weapon_sprite
              _get_default_sprite now fresh_id ai (PyStr.strip prompt) pid k
              (weapon_generator s)) as [[weapon|] c1] eqn:Eg; [|simpl; auto].
  simpl. split; trivial. same_or_here K. right. exists m, weapon. auto.
Qed.

End Generation.
End ServerFacts.

(** ** When a match becomes FINISHED *)

Module EndingFacts.
Import MatchManager Server EffectFacts ServerFacts Ending.
Local Open Scope list_scope.







(** The operations that end no match. *)









Section Server.
Variable sqrt : Q -> Q.
Variable hash : string -> Z.
Variable md5 : string -> string.
Variable _generate_weapon_sprite : string -> WeaponCategory -> string.
Variable _get_default_sprite : string.



End Server.


End EndingFacts.

(** ** Using a weapon *)

Module UseFacts.
Import MatchManager EffectFacts.
Local Open Scope list_scope.










End UseFacts.

(** ** Requesting a weapon: validation and rate limit *)

Module RequestFacts.
Import MatchManager Server EffectFacts.
Local Open Scope list_scope.


Section Requests.
Variable hash : string -> Z.
Variable md5 : string -> string.
Variable _generate_weapon_sprite : string -> WeaponCategory -> string.
Variable _get_default_sprite : string.

(** The answer to a request is "invalid prompt" exactly when the stripped
    prompt is empty or longer than 20 characters. *)
Lemma invalid_prompt_iff now now_done fresh_id ai pid prompt mid s :
  fst (handle_weapon_generation hash md5 _generate_weapon_sprite _get_default_sprite
         now now_done fresh_id ai pid prompt mid s) = InvalidPrompt
  <-> prompt_rejected (PyStr.strip prompt) = true.
Proof.
  unfold handle_weapon_generation.
  destruct (prompt_rejected (PyStr.strip prompt)); [simpl; tauto|].
  destruct (get_match mid (match_manager s)) as [m|]; [|simpl; split; discriminate].
  destruct (player_of pid m) as [p|]; [|simpl; split; discriminate].
  destruct (Num.Qltb now (PlayerState.weapon_cooldown p)); [simpl; split; discriminate|].
  destruct (WeaponGenerator.generate_weapon _ _ _ _ _ _ _ _ _ _ _) as [[w|] c];
    simpl; split; discriminate.
Qed.


End Requests.



(** C8 at the failing input: the prompt of the repository's own test, 33
    characters and six words long, is rejected by the server's handler
    whatever the state, while the check of the sibling server, whose bound
    is 100 characters, lets it through. *)
Theorem test_prompt_rejected hash md5 sprite default_sprite now now_done fresh_id ai pid
    mid s :
  String.length (PyStr.strip Example.test_prompt) = 33%nat
  /\ length (PyStr.split Example.test_prompt) = 6%nat
  /\ SimpleServer.prompt_rejected (PyStr.strip Example.test_prompt) = false
  /\ handle_weapon_generation hash md5 sprite default_sprite now now_done fresh_id ai pid
       Example.test_prompt mid s = (InvalidPrompt, s).
Proof. repeat split. Qed.

End RequestFacts.

(** ** Generated weapons stay in range *)

Module BalanceFacts.
Import WeaponGenerator Balance.
Local Open Scope Z_scope.

Lemma clamp_bounds lo hi v : lo <= hi -> lo <= clamp lo hi v <= hi.
Proof. unfold clamp. lia. Qed.

Lemma templates_in_range :
  Forall (fun t => 30 <= WeaponProperties.range (t_properties t) <= 180
                   /\ 1 <= WeaponProperties.ammo (t_properties t) <= 25
                   /\ 1500 <= WeaponProperties.cooldown (t_properties t) <= 4000)
         weapon_templates.
Proof. repeat constructor; simpl; lia. Qed.

Lemma best_step_In prompt l : forall best,
  snd (fold_left (best_step prompt) l best) = snd best
  \/ exists t, snd (fold_left (best_step prompt) l best) = Some t /\ In t l.
Proof.
  induction l as [|t l IH]; intro best; simpl; [now left|].
  destruct (IH (best_step prompt best t)) as [E | (t' & E & I)].
  - rewrite E. unfold best_step. destruct (fst best <? template_score prompt t).
    + right. exists t. simpl. auto.
    + now left.
  - right. exists t'. auto.
Qed.

Lemma find_best_template_In prompt : In (_find_best_template prompt) weapon_templates.
Proof.
  assert (F : In first_template weapon_templates) by (left; reflexivity).
  unfold _find_best_template.
  destruct (best_step_In prompt weapon_templates (0, None)) as [E | (t & E & I)].
  - destruct (fold_left (best_step prompt) weapon_templates (0, None)) as [z o].
    simpl in E. subst o. exact F.
  - destruct (fold_left (best_step prompt) weapon_templates (0, None)) as [z o].
    simpl in E. subst o. now destruct (0 <? z).
Qed.

(** The nerf applies only to weapons of damage 21 or more. *)
Lemma nerf_needs_damage p :
  claimed p ->
  Num.Qltb 80 (_calculate_balance_score p) = true ->
  21 <= WeaponProperties.damage p.
Proof.
  intros (Hd & Hs & Hr & _ & Hc) H.
  apply NumFacts.Qltb_lt in H.
  unfold _calculate_balance_score, py_Qmin, py_Qmax in H.
  set (raw := (power_score p * effect_multiplier (WeaponProperties.special_effect p)
               * 100)%Q) in H.
  assert (Hraw : (80 < raw)%Q).
  { destruct (Num.Qltb 0 raw) eqn:E0.
    - destruct (Num.Qltb raw 100) eqn:E1; trivial.
      apply NumFacts.Qltb_ge in E1. lra.
    - change (Num.Qltb 0 100) with true in H. cbv iota in H. lra. }
  clear H. unfold raw, power_score in Hraw. clear raw.
  destruct (Z_lt_le_dec (WeaponProperties.damage p) 21) as [L|L]; [|exact L]. exfalso.
  assert (inject_Z (WeaponProperties.damage p) <= 20)%Q by (unfold Qle; simpl; lia).
  assert (inject_Z (WeaponProperties.speed p) <= 95)%Q by (unfold Qle; simpl; lia).
  assert (inject_Z (WeaponProperties.range p) <= 180)%Q by (unfold Qle; simpl; lia).
  assert (1500 <= inject_Z (WeaponProperties.cooldown p))%Q by (unfold Qle; simpl; lia).
  assert (0 <= inject_Z (WeaponProperties.damage p))%Q by (unfold Qle; simpl; lia).
  assert (0 <= inject_Z (WeaponProperties.speed p))%Q by (unfold Qle; simpl; lia).
  assert (0 <= inject_Z (WeaponProperties.range p))%Q by (unfold Qle; simpl; lia).
  assert (inject_Z (WeaponProperties.cooldown p) <= 4000)%Q by (unfold Qle; simpl; lia).
  unfold Qdiv in Hraw. change (/ 100)%Q with (1 # 100)%Q in Hraw.
  change (/ 200)%Q with (1 # 200)%Q in Hraw. change (/ 5000)%Q with (1 # 5000)%Q in Hraw.
  unfold effect_multiplier in Hraw.
  repeat match type of Hraw with
         | context [if ?c then _ else _] => destruct c
         end; lra.
Qed.

Lemma nerf_kept p :
  claimed p -> 21 <= WeaponProperties.damage p -> kept (_apply_balance_nerf p).
Proof.
  intros (Hd & Hs & Hr & Ha & Hc) H21.
  unfold kept, _apply_balance_nerf, Num.py_int. simpl.
  rewrite !Z.quot_div_nonneg by lia.
  repeat split; try lia;
    first [apply Z.div_le_lower_bound; lia | apply Z.div_le_upper_bound; lia].
Qed.

Lemma claimed_kept p : claimed p -> kept p.
Proof. unfold claimed, kept. lia. Qed.

Section Generator.
Variable hash : string -> Z.
Variable md5 : string -> string.
Variable _generate_weapon_sprite : string -> WeaponCategory -> string.
Variable _get_default_sprite : string.


Lemma ai_path_kept now fresh_id ai prompt pid w :
  _generate_with_ai _generate_weapon_sprite now fresh_id ai prompt pid = Some w ->
  kept (Weapon.properties w).
Proof.
  unfold _generate_with_ai. destruct ai as [d|]; [|discriminate].
  intro H. inversion H. clear H. cbn [Weapon.properties].
  match goal with |- kept (if Num.Qltb 80 (_calculate_balance_score ?p) then _ else _) =>
    assert (C : claimed p)
  end.
  { unfold claimed. cbn. repeat split; apply clamp_bounds; lia. }
  destruct (Num.Qltb 80 _) eqn:E.
  - apply nerf_kept; trivial. now apply nerf_needs_damage.
  - now apply claimed_kept.
Qed.

Lemma template_path_kept now fresh_id prompt pid w :
  _generate_from_template hash _get_default_sprite now fresh_id prompt pid = Some w ->
  kept (Weapon.properties w).
Proof.
  unfold _generate_from_template. intro H. inversion H. clear H.
  cbn [Weapon.properties].
  pose proof (find_best_template_In prompt) as I.
  pose proof templates_in_range as T. rewrite Forall_forall in T.
  destruct (T _ I) as (Hr & Ha & Hc).
  unfold kept. cbn. repeat split; try apply clamp_bounds; lia.
Qed.


(** What [generate_weapon] returns is in the kept ranges, and so is what it
    caches. *)
Lemma generate_weapon_kept now fresh_id ai prompt pid mid cache w cache' :
  cache_kept cache ->
  generate_weapon hash md5 _generate_weapon_sprite _get_default_sprite
    now fresh_id ai prompt pid mid cache = (Some w, cache') ->
  kept (Weapon.properties w) /\ cache_kept cache'.
Proof.
  intros Hc H. unfold generate_weapon in H.
  destruct (String.length (PyStr.strip prompt) =? 0)%nat; [discriminate|].
  destruct (Dict.get _ cache) as [cached|] eqn:Eget.
  - inversion H. subst. cbn [Weapon.properties].
    split; [|assumption]. apply Hc. eapply DictFacts.get_values; eassumption.
  - assert (K : forall w0,
              match _generate_with_ai _generate_weapon_sprite now fresh_id ai
                      (PyStr.lower (PyStr.strip prompt)) pid with
              | Some w1 => Some w1
              | None => _generate_from_template hash _get_default_sprite now fresh_id
                          (PyStr.lower (PyStr.strip prompt)) pid
              end = Some w0 -> kept (Weapon.properties w0)).
    { intros w0. destruct (_generate_with_ai _ _ _ _ _ _) as [w1|] eqn:Eai.
      - intro E. inversion E. subst. eapply ai_path_kept; eassumption.
      - apply template_path_kept. }
    destruct (match _generate_with_ai _ _ _ _ _ _ with Some w1 => Some w1 | None => _ end)
      as [w0|]; [|discriminate].
    inversion H. subst. split; [now apply K|].
    intros x Hx. apply DictFacts.In_values_set in Hx as [-> | Hx]; [|now apply Hc].
    cbn [Weapon.properties]. now apply K.
Qed.

Lemma generate_weapon_cache now fresh_id ai prompt pid mid cache :
  cache_kept cache ->
  cache_kept (snd (generate_weapon hash md5 _generate_weapon_sprite _get_default_sprite
                     now fresh_id ai prompt pid mid cache)).
Proof.
  intro Hc.
  destruct (generate_weapon hash md5 _generate_weapon_sprite _get_default_sprite
              now fresh_id ai prompt pid mid cache) as [[w|] c] eqn:E.
  - now destruct (generate_weapon_kept _ _ _ _ _ _ Hc E).
  - unfold generate_weapon in E.
    destruct (String.length (PyStr.strip prompt) =? 0)%nat; [inversion E; now subst|].
    destruct (Dict.get _ cache); [discriminate|].
    destruct (match _generate_with_ai _ _ _ _ _ _ with Some w1 => Some w1 | None => _ end);
      [discriminate|]. inversion E. now subst.
Qed.


End Generator.



End BalanceFacts.

(** ** A relation on players kept by every operation that works in place *)

Module FrameFacts.
Import MatchManager Server EffectFacts ServerFacts.
Local Open Scope list_scope.

Lemma Forall2_In_r (A : Type) (R : A -> A -> Prop) l l' b :
  Forall2 R l l' -> In b l' -> exists a, In a l /\ R a b.
Proof.
  intro H. induction H as [|x y l l' Hxy _ IH]; simpl; [tauto|].
  intros [<-|Hb]; [exists x; auto|]. destruct (IH Hb) as (a & Ha & Hab).
  exists a. auto.
Qed.

Lemma take_damage_weapons dmg p :
  PlayerState.weapons (take_damage dmg p) = PlayerState.weapons p.
Proof. unfold take_damage. simpl. now destruct (_ <=? 0)%Z. Qed.

(** A frame changes nobody's weapons. *)
Lemma tick_keeps_weapons now m eng :
  Forall2 (fun q q' => PlayerState.weapons q' = PlayerState.weapons q)
    (MatchState.players m) (MatchState.players (fst (tick_active now m eng))).
Proof.
  apply CombatFacts.tick_active_rel
    with (D := fun _ => True) (G := fun _ => True) (Eph := fun _ => True); auto.
  - intros. congruence.
  - intros. apply take_damage_weapons.
  - now apply Forall_forall.
Qed.

(** Every projectile left after a frame was there before it, with the same
    damage and owner. *)
Lemma tick_projectiles now m eng pr' :
  In pr' (MatchState.projectiles (fst (tick_active now m eng))) ->
  exists pr, In pr (MatchState.projectiles m)
             /\ Projectile.damage pr' = Projectile.damage pr
             /\ Projectile.player_id pr' = Projectile.player_id pr.
Proof.
  unfold tick_active.
  destruct (CombatFacts.update_projectiles_spec now m eng) as (_ & _ & _ & H1).
  destruct (_update_projectiles now m eng) as [m1 e1]. simpl in H1.
  destruct (CombatFacts.check_collisions_frame_gen now (MatchState.projectiles m1) m1 e1)
    as (_ & I2).
  fold (_check_collisions now m1 e1) in I2.
  destruct (_check_collisions now m1 e1) as [m2 e2]. simpl in I2.
  intro H. apply H1, I2.
  destruct (MatchState.is_finished now m2); trivial.
  now destruct (CombatFacts.end_match_spec now m2 e2) as (_ & <- & _).
Qed.

Lemma tick_arsenal (G : Z -> Prop) now m eng :
  arsenal_ok G m -> arsenal_ok G (fst (tick_active now m eng)).
Proof.
  intros [Hpr Hw]. split.
  - intros pr' H. destruct (tick_projectiles now m eng pr' H) as (pr & I & -> & _). auto.
  - intros p' w Hp' Hw'.
    destruct (@Forall2_In_r _ _ _ _ p' (tick_keeps_weapons now m eng) Hp') as (p & Hp & E).
    rewrite E in Hw'. eauto.
Qed.

Section System.
Variable P : PlayerState.t -> PlayerState.t -> Prop.
Variable D : Z -> Prop.
Variable G : Z -> Prop.
Variable Eph : Physics.t -> Prop.
Variable Eeng : PhysicsEngine.t -> Prop.
Hypothesis P_refl : forall p, P p p.
Hypothesis P_trans : forall a b c, P a b -> P b c -> P a c.
Hypothesis P_damage :
  forall dmg p, D dmg -> PlayerState.is_alive p = true -> P p (take_damage dmg p).
Hypothesis P_kills : forall k p, P p (PlayerState.set_kills k p).
Hypothesis P_cooldown : forall v p, P p (PlayerState.set_weapon_cooldown v p).
Hypothesis P_move : forall ph input p, P p (move_player ph input p).
Hypothesis P_weapon : forall v w p, P p (add_weapon v w p).
Hypothesis D_link :
  forall z ph, G z -> Eph ph ->
    D (Num.py_int (inject_Z z * Physics.damage_multiplier ph)).
Hypothesis E_calc :
  forall now mid eng, Eeng eng ->
    Eph (fst (PhysicsEngine.calculate_current_physics now mid eng))
    /\ Eeng (snd (PhysicsEngine.calculate_current_physics now mid eng)).
Hypothesis E_remove :
  forall mid eng, Eeng eng -> Eeng (PhysicsEngine.remove_match_modifications mid eng).

Lemma players_rel_refl l : Forall2 P l l.
Proof. now apply CombatFacts.Forall2_refl. Qed.

Lemma players_rel_trans l1 l2 l3 : Forall2 P l1 l2 -> Forall2 P l2 l3 -> Forall2 P l1 l3.
Proof. now apply CombatFacts.Forall2_trans. Qed.

Lemma collisions_engine now prs : forall m eng,
  Eeng eng -> Eeng (snd (fold_left (collide_one now) prs (m, eng))).
Proof.
  induction prs as [|pr prs IH]; intros m eng He; cbn [fold_left]; trivial.
  assert (H1 : Eeng (snd (collide_one now (m, eng) pr))).
  { unfold collide_one. destruct (existsb _ _); trivial.
    pose proof (CombatFacts.apply_damage_engine now pr m eng) as E.
    destruct (_apply_damage now pr m eng) as [m1 e1]. simpl in *. subst e1.
    now apply E_calc. }
  destruct (collide_one now (m, eng) pr) as [m1 e1]. now apply IH.
Qed.

Lemma tick_engine now m eng : Eeng eng -> Eeng (snd (tick_active now m eng)).
Proof.
  intro He. unfold tick_active.
  destruct (CombatFacts.update_projectiles_spec now m eng) as (_ & _ & E1 & _).
  destruct (_update_projectiles now m eng) as [m1 e1]. simpl in E1.
  assert (H1 : Eeng e1) by (subst e1; now apply E_calc).
  pose proof (collisions_engine now (MatchState.projectiles m1) m1 H1) as H2.
  fold (_check_collisions now m1 e1) in H2.
  destruct (_check_collisions now m1 e1) as [m2 e2]. simpl in H2.
  destruct (MatchState.is_finished now m2); trivial.
  destruct (CombatFacts.end_match_spec now m2 e2) as (_ & _ & _ & _ & _ & _ & ->).
  now apply E_remove.
Qed.

Lemma tick_rel now m eng :
  Eeng eng -> arsenal_ok G m ->
  Forall2 P (MatchState.players m) (MatchState.players (fst (tick_active now m eng))).
Proof.
  intros He [Hpr _].
  apply CombatFacts.tick_active_rel with (D := D) (G := G) (Eph := Eph); trivial.
  - now apply Forall_forall.
  - now apply E_calc.
Qed.

(** *** The game loop *)

Lemma update_match_ok now mm k :
  manager_ok Eeng G mm -> manager_ok Eeng G (update_match now mm k).
Proof.
  intros [He Hm]. split.
  - destruct (update_match_engine now mm k) as [-> | [(m & _ & _ & ->) | ->]]; trivial.
    + now apply tick_engine.
    + now apply E_remove.
  - intros mid m' H'. destruct (string_dec k mid) as [->|N].
    + destruct (Dict.get mid (matches mm)) as [m|] eqn:E.
      * pose proof (update_match_at now mm mid E H') as A.
        destruct (MatchStatus_eqb (MatchState.status m) ACTIVE); subst m'.
        -- apply tick_arsenal. eauto.
        -- eauto.
      * rewrite update_match_gone in H' by assumption. discriminate.
    + rewrite update_match_local in H' by assumption. eauto.
Qed.

Lemma update_matches_rel now mm mid m m' :
  manager_ok Eeng G mm ->
  Dict.get mid (matches mm) = Some m ->
  Dict.get mid (matches (update_matches now mm)) = Some m' ->
  Forall2 P (MatchState.players m) (MatchState.players m').
Proof.
  intros Hok Hm Hm'. unfold update_matches in Hm'.
  apply (@fold_visited (update_match now) mid
           (fun a b => Forall2 P (MatchState.players a) (MatchState.players b))
           (manager_ok Eeng G))
    with (ks := Dict.keys (matches mm)) (mm := mm); trivial.
  - intros a b c. apply players_rel_trans.
  - intros. now apply update_match_ok.
  - intros. now apply update_match_local.
  - intros. now apply update_match_gone.
  - intros mm0 m0 m0' [He0 Hm0] H0 H0'.
    pose proof (update_match_at now mm0 mid H0 H0') as A.
    destruct (MatchStatus_eqb (MatchState.status m0) ACTIVE); subst m0'.
    + apply tick_rel; eauto.
    + apply players_rel_refl.
  - eapply DictFacts.get_keys; eassumption.
Qed.

Lemma update_matches_ok now mm :
  manager_ok Eeng G mm -> manager_ok Eeng G (update_matches now mm).
Proof.
  unfold update_matches. generalize (Dict.keys (matches mm)). intro ks.
  revert mm. induction ks as [|k ks IH]; intros mm H; simpl; trivial.
  apply IH. now apply update_match_ok.
Qed.

(** *** Using a weapon *)

Lemma in_area_alive sqrt player weapon target q :
  in_area sqrt player weapon target q = true -> PlayerState.is_alive q = true.
Proof.
  unfold in_area. intro H. apply andb_true_iff in H as [H _].
  now apply andb_true_iff in H as [_ H].
Qed.

Lemma fire_rel sqrt now pid player weapon target ph m :
  Eph ph ->
  G (WeaponProperties.damage (Weapon.properties weapon)) ->
  Forall2 P (MatchState.players m)
    (MatchState.players (fire sqrt now pid player weapon target ph m)).
Proof.
  intros He Hg. unfold fire, update_player.
  cbn [MatchState.players MatchState.set_players].
  eapply players_rel_trans;
    [| apply CombatFacts.update_first_rel; [exact P_refl | intros; apply P_cooldown]].
  destruct (Weapon.category weapon); try apply players_rel_refl.
  - destruct (HitFacts.create_projectile_spec sqrt now m player weapon target ph) as [-> _].
    apply players_rel_refl.
  - unfold _create_area_effect. destruct target as [t|]; [|apply players_rel_refl].
    cbn [MatchState.players MatchState.set_players].
    eapply players_rel_trans;
      [| apply CombatFacts.update_first_rel; [exact P_refl | intros; apply P_kills]].
    apply CombatFacts.map_rel. intros a _.
    destruct (in_area sqrt player weapon t a) eqn:E; [|apply P_refl].
    apply P_damage; [|eapply in_area_alive; eassumption].
    unfold area_damage. now apply D_link.
  - destruct (HitFacts.create_projectile_spec sqrt now m player weapon target ph) as [-> _].
    apply players_rel_refl.
Qed.

Lemma find_In (A : Type) (p : A -> bool) l a : find p l = Some a -> In a l.
Proof. intro H. now apply find_some in H. Qed.

Section Ops.
Variable sqrt : Q -> Q.
Variable hash : string -> Z.
Variable md5 : string -> string.
Variable _generate_weapon_sprite : string -> WeaponCategory -> string.
Variable _get_default_sprite : string.

(** Every operation that works in place relates the players of a match
    before and after by [P], one by one. *)
Lemma in_place_rel op s mid m m' :
  manager_ok Eeng G (match_manager s) ->
  in_place op = true ->
  Dict.get mid (matches (match_manager s)) = Some m ->
  Dict.get mid (matches (match_manager
     (step sqrt hash md5 _generate_weapon_sprite _get_default_sprite op s))) = Some m' ->
  Forall2 P (MatchState.players m) (MatchState.players m').
Proof.
  intros [He Hok] Hop Hm Hm'.
  assert (Same : Dict.get mid (matches (match_manager s)) = Some m' ->
                 Forall2 P (MatchState.players m) (MatchState.players m')).
  { intro E. rewrite Hm in E. inversion E. apply players_rel_refl. }
  destruct op; try discriminate; cbn [step] in Hm'.
  - (* input *)
    unfold Server.handle_player_input in Hm'.
    destruct input as [input|]; [|now apply Same].
    destruct (String.length match_id =? 0)%nat; [now apply Same|].
    destruct (get_match match_id (match_manager s)); [|now apply Same].
    unfold with_manager in Hm'. cbn [match_manager] in Hm'.
    destruct (handle_player_input_effect now match_id player_id input (match_manager s) mid)
      as [E | (m0 & _ & E0 & _ & E)]; rewrite E in Hm'; [now apply Same|].
    inversion Hm'. assert (m0 = m) by congruence. subst.
    unfold update_player. cbn [MatchState.players MatchState.set_players].
    apply CombatFacts.update_first_rel; [exact P_refl | intros; apply P_move].
  - (* weapon generation *)
    destruct (handle_weapon_generation_effect hash md5 _generate_weapon_sprite
                _get_default_sprite now now_done fresh_id ai player_id prompt match_id s mid)
      as (_ & [E | (m0 & w & _ & E0 & _ & _ & E)]); rewrite E in Hm'; [now apply Same|].
    inversion Hm'. assert (m0 = m) by congruence. subst.
    unfold update_player. cbn [MatchState.players MatchState.set_players].
    apply CombatFacts.update_first_rel; [exact P_refl | intros; apply P_weapon].
  - (* weapon use *)
    unfold handle_weapon_use in Hm'.
    destruct (_ || _); [now apply Same|].
    unfold with_manager in Hm'. cbn [match_manager] in Hm'.
    destruct (use_weapon_effect sqrt now match_id player_id weapon_id target
                (match_manager s) mid)
      as [E | (m0 & pl & w & _ & E0 & _ & Hpl & _ & Hw & E)]; rewrite E in Hm';
      [now apply Same|].
    inversion Hm'. assert (m0 = m) by congruence. subst.
    apply fire_rel.
    + now apply E_calc.
    + destruct (Hok mid m Hm) as [_ Hws]. apply (Hws pl w).
      * eapply find_In. exact Hpl.
      * eapply find_In. exact Hw.
  - (* master prompt *)
    destruct (handle_master_prompt_effect now rnd player_id prompt match_id s mid)
      as [E | (m0 & md & _ & E0 & E)]; rewrite E in Hm'; [now apply Same|].
    inversion Hm'. assert (m0 = m) by congruence. subst. apply players_rel_refl.
  - (* game loop *)
    unfold game_loop, with_manager in Hm'. cbn [match_manager] in Hm'.
    eapply update_matches_rel; try eassumption. now split.
  - (* scheduler *)
    unfold master_prompt_scheduler, with_manager in Hm'. cbn [match_manager] in Hm'.
    apply (@fold_visited (schedule_match now rnd pick) mid
             (fun a b => Forall2 P (MatchState.players a) (MatchState.players b))
             (fun _ => True))
      with (ks := Dict.keys (matches (match_manager s))) (mm := match_manager s); trivial.
    + intros a b c. apply players_rel_trans.
    + intros. now apply schedule_match_local.
    + intros. now apply schedule_match_gone.
    + intros mm0 m0 m0' _ H0 H0'.
      destruct (schedule_match_at now rnd pick mm0 mid H0 H0') as [->|(md & ->)];
        apply players_rel_refl.
    + eapply DictFacts.get_keys; eassumption.
Qed.

(** No operation that works in place creates a match. *)
Lemma in_place_no_creation op s mid m' :
  in_place op = true ->
  Dict.get mid (matches (match_manager
     (step sqrt hash md5 _generate_weapon_sprite _get_default_sprite op s))) = Some m' ->
  exists m, Dict.get mid (matches (match_manager s)) = Some m.
Proof.
  intros Hop Hm'.
  destruct (Dict.get mid (matches (match_manager s))) as [m|] eqn:E; [eauto|].
  exfalso. destruct op; try discriminate; cbn [step] in Hm'.
  - unfold Server.handle_player_input in Hm'.
    destruct input as [input|]; [|congruence].
    destruct (String.length match_id =? 0)%nat; [congruence|].
    destruct (get_match match_id (match_manager s)); [|congruence].
    unfold with_manager in Hm'. cbn [match_manager] in Hm'.
    destruct (handle_player_input_effect now match_id player_id input (match_manager s) mid)
      as [E1 | (m0 & _ & E0 & _)]; congruence.
  - destruct (handle_weapon_generation_effect hash md5 _generate_weapon_sprite
                _get_default_sprite now now_done fresh_id ai player_id prompt match_id s mid)
      as (_ & [E1 | (m0 & w & _ & E0 & _)]); congruence.
  - unfold handle_weapon_use in Hm'.
    destruct (_ || _); [congruence|].
    unfold with_manager in Hm'. cbn [match_manager] in Hm'.
    destruct (use_weapon_effect sqrt now match_id player_id weapon_id target
                (match_manager s) mid)
      as [E1 | (m0 & pl & w & _ & E0 & _)]; congruence.
  - destruct (handle_master_prompt_effect now rnd player_id prompt match_id s mid)
      as [E1 | (m0 & md & _ & E0 & _)]; congruence.
  - unfold game_loop, with_manager, update_matches in Hm'. cbn [match_manager] in Hm'.
    rewrite (@fold_gone (update_match now) mid) in Hm'; try discriminate; trivial.
    + intros. now apply update_match_local.
    + intros. now apply update_match_gone.
  - unfold master_prompt_scheduler, with_manager in Hm'. cbn [match_manager] in Hm'.
    rewrite (@fold_gone (schedule_match now rnd pick) mid) in Hm'; try discriminate; trivial.
    + intros. now apply schedule_match_local.
    + intros. now apply schedule_match_gone.
Qed.

End Ops.
End System.
End FrameFacts.

(** ** Dead players are left alone *)

Module LifeFacts.
Import MatchManager Server PlayerRel.
Local Open Scope list_scope.

Lemma same_life_refl p : same_life p p.
Proof. unfold same_life. auto. Qed.

Lemma same_life_trans a b c : same_life a b -> same_life b c -> same_life a c.
Proof.
  unfold same_life. intros (I1 & D1 & L1) (I2 & D2 & L2).
  split; [congruence|]. split.
  - intro Ha. destruct (D1 Ha) as (H1 & H2 & H3). destruct (D2 H3) as (H4 & H5 & H6).
    repeat split; congruence.
  - destruct L1 as [E1 | (E1 & A1 & B1)].
    + destruct L2 as [E2 | (E2 & A2 & B2)]; [left; congruence|].
      right. repeat split; trivial; [congruence|].
      destruct (PlayerState.is_alive a) eqn:Ea; trivial.
      destruct (D1 eq_refl) as (_ & _ & H). congruence.
    + destruct (D2 B1) as (_ & H2 & H3). right. repeat split; trivial. congruence.
Qed.

Lemma same_life_damage dmg p :
  PlayerState.is_alive p = true -> same_life p (take_damage dmg p).
Proof.
  intro Ha. destruct (HitFacts.take_damage_spec dmg p) as (Hid & _ & _ & Hdead & Hlive).
  split; [exact Hid|]. split; [congruence|].
  destruct (Z_le_gt_dec (PlayerState.health (take_damage dmg p)) 0) as [L|L].
  - destruct (Hdead L) as [H1 H2]. right. auto.
  - destruct (Hlive ltac:(lia)) as [H1 H2]. left. exact H2.
Qed.

Lemma same_life_vitals p p' :
  PlayerState.id p' = PlayerState.id p -> same_vitals p p' -> same_life p p'.
Proof.
  intros Hid (Hh & Ha & Hd). split; [exact Hid|]. split.
  - intro E. repeat split; congruence.
  - now left.
Qed.

Lemma manager_ok_trivial mm : manager_ok (fun _ => True) (fun _ => True) mm.
Proof. split; [exact I|]. intros. split; intros; exact I. Qed.

Section Server.
Variable sqrt : Q -> Q.
Variable hash : string -> Z.
Variable md5 : string -> string.
Variable _generate_weapon_sprite : string -> WeaponCategory -> string.
Variable _get_default_sprite : string.

Lemma in_place_same_life op s mid m m' :
  in_place op = true ->
  Dict.get mid (matches (match_manager s)) = Some m ->
  Dict.get mid (matches (match_manager
     (step sqrt hash md5 _generate_weapon_sprite _get_default_sprite op s))) = Some m' ->
  Forall2 same_life (MatchState.players m) (MatchState.players m').
Proof.
  apply FrameFacts.in_place_rel
    with (D := fun _ => True) (G := fun _ => True) (Eph := fun _ => True)
         (Eeng := fun _ => True); auto.
  - exact same_life_refl.
  - exact same_life_trans.
  - intros. now apply same_life_damage.
  - intros. apply same_life_vitals; repeat split.
  - intros. apply same_life_vitals; repeat split.
  - intros. apply same_life_vitals; repeat split.
  - intros. apply same_life_vitals; repeat split.
  - apply manager_ok_trivial.
Qed.

Lemma run_no_creation ops : forall s mid m',
  forallb in_place ops = true ->
  Dict.get mid (matches (match_manager
     (run sqrt hash md5 _generate_weapon_sprite _get_default_sprite ops s))) = Some m' ->
  exists m, Dict.get mid (matches (match_manager s)) = Some m.
Proof.
  induction ops as [|op ops IH]; intros s mid m' Hops H; simpl in *; [eauto|].
  apply andb_true_iff in Hops as [Hop Hops].
  destruct (IH _ _ _ Hops H) as [m1 H1].
  eapply FrameFacts.in_place_no_creation; eassumption.
Qed.

Lemma run_same_life ops : forall s mid m m',
  forallb in_place ops = true ->
  Dict.get mid (matches (match_manager s)) = Some m ->
  Dict.get mid (matches (match_manager
     (run sqrt hash md5 _generate_weapon_sprite _get_default_sprite ops s))) = Some m' ->
  Forall2 same_life (MatchState.players m) (MatchState.players m').
Proof.
  induction ops as [|op ops IH]; intros s mid m m' Hops Hm Hm'; simpl in *.
  - assert (m' = m) by congruence. subst.
    apply CombatFacts.Forall2_refl, same_life_refl.
  - apply andb_true_iff in Hops as [Hop Hops].
    destruct (run_no_creation _ _ _ Hops Hm') as [m1 H1].
    eapply CombatFacts.Forall2_trans; [exact same_life_trans | |].
    + eapply in_place_same_life; eassumption.
    + eapply IH; eassumption.
Qed.

End Server.

(** C10. A player whose [is_alive] flag is false is skipped by projectile
    collision resolution and by area-effect damage: both leave the health
    and the death count of a dead player as they are, and raise a death
    count by at most one, only when a living player dies. Consequently,
    over any sequence of operations that does not restart the match, the
    deaths of a player grow by at most one, and not at all once the player
    is dead. *)
Theorem dead_players_untouched :
  (forall now m eng,
     Forall2 same_life (MatchState.players m)
       (MatchState.players (fst (_check_collisions now m eng))))
  /\ (forall sqrt m player weapon target ph,
        Forall2 same_life (MatchState.players m)
          (MatchState.players (_create_area_effect sqrt m player weapon target ph)))
  /\ (forall sqrt hash md5 sprite default_sprite ops s mid m m',
        forallb in_place ops = true ->
        Dict.get mid (matches (match_manager s)) = Some m ->
        Dict.get mid (matches (match_manager
           (run sqrt hash md5 sprite default_sprite ops s))) = Some m' ->
        Forall2 same_life (MatchState.players m) (MatchState.players m')).
Proof.
  split.
  { intros now m eng. unfold _check_collisions.
    apply CombatFacts.check_collisions_rel_gen
      with (D := fun _ => True) (G := fun _ => True) (Eph := fun _ => True); auto.
    - exact same_life_refl.
    - exact same_life_trans.
    - intros. now apply same_life_damage.
    - intros. apply same_life_vitals; repeat split.
    - now apply Forall_forall. }
  split.
  { intros sqrt m player weapon target ph. unfold _create_area_effect.
    destruct target as [t|]; [|apply CombatFacts.Forall2_refl, same_life_refl].
    cbn [MatchState.players MatchState.set_players].
    eapply CombatFacts.Forall2_trans;
      [ exact same_life_trans
      |
      | apply CombatFacts.update_first_rel;
        [exact same_life_refl | intros; apply same_life_vitals; repeat split] ].
    apply CombatFacts.map_rel. intros a _. cbv beta.
    destruct (in_area sqrt player weapon t a) eqn:E; [|apply same_life_refl].
    apply same_life_damage. eapply FrameFacts.in_area_alive. exact E. }
  intros. eapply run_same_life; eassumption.
Qed.

End LifeFacts.

(** ** Health stays in range and never grows *)

Module HealthFacts.
Import MatchManager Server EffectFacts ServerFacts Wf.
Local Open Scope list_scope.

(** *** The engine *)

Lemma product_nonneg vs : forall b,
  (0 <= b)%Q -> Forall (fun v => (0 <= v)%Q) vs -> (0 <= Num.product b vs)%Q.
Proof.
  induction vs as [|v vs IH]; intros b Hb Hvs; simpl; trivial.
  inversion Hvs; subst. apply IH; trivial. now apply Qmult_le_0_compat.
Qed.

Lemma mods_of_get_active now k mid eng m :
  In m (PhysicsEngine.mods_of mid (snd (PhysicsEngine.get_active_modifications now k eng))) ->
  In m (PhysicsEngine.mods_of mid eng).
Proof.
  destruct (string_dec k mid) as [->|N].
  - rewrite PhysicsFacts.mods_of_after_get. intro H. now apply filter_In in H.
  - unfold PhysicsEngine.get_active_modifications, PhysicsEngine.mods_of, Dict.get_default.
    destruct (Dict.get k (PhysicsEngine.active_modifications eng)); trivial.
    simpl. now rewrite DictFacts.get_set_other.
Qed.

Lemma calc_snd now k eng :
  snd (PhysicsEngine.calculate_current_physics now k eng)
  = snd (PhysicsEngine.get_active_modifications now k eng).
Proof.
  unfold PhysicsEngine.calculate_current_physics.
  now destruct (PhysicsEngine.get_active_modifications now k eng).
Qed.

Lemma calc_fst now k eng :
  fst (PhysicsEngine.calculate_current_physics now k eng)
  = PhysicsSpec.current (filter (PhysicsModification.is_active now)
                           (PhysicsEngine.mods_of k eng)).
Proof.
  unfold PhysicsEngine.calculate_current_physics.
  pose proof (PhysicsFacts.get_active_modifications_fst now k eng) as F.
  destruct (PhysicsEngine.get_active_modifications now k eng) as [a e']. simpl in *.
  rewrite F. apply PhysicsFacts.fold_apply_mod.
Qed.

Lemma engine_ok_calc now k eng :
  engine_ok eng ->
  physics_ok (fst (PhysicsEngine.calculate_current_physics now k eng))
  /\ engine_ok (snd (PhysicsEngine.calculate_current_physics now k eng)).
Proof.
  intro H. split.
  - unfold physics_ok. rewrite calc_fst. simpl.
    apply product_nonneg; [discriminate|].
    apply Forall_forall. intros v Hv.
    unfold PhysicsSpec.behavior_factors, PhysicsSpec.of_type in Hv.
    apply in_flat_map in Hv as (m & Hm & Hv).
    apply filter_In in Hm as [Hm _]. apply filter_In in Hm as [Hm _].
    destruct (Dict.get "damage_multiplier" (PhysicsModification.parameters m)) eqn:E;
      [|destruct Hv].
    destruct Hv as [<-|[]]. eapply H; eassumption.
  - rewrite calc_snd. intros mid m f Hm. apply (H mid). eapply mods_of_get_active. exact Hm.
Qed.

Lemma engine_ok_remove k eng :
  engine_ok eng -> engine_ok (PhysicsEngine.remove_match_modifications k eng).
Proof.
  intros H mid m f Hm. apply (H mid). revert Hm.
  unfold PhysicsEngine.remove_match_modifications, PhysicsEngine.mods_of, Dict.get_default.
  simpl. rewrite DictFacts.get_del. destruct (String.eqb k mid); [intros []|trivial].
Qed.

Lemma library_ok :
  Forall (fun e => forall f,
            Dict.get "damage_multiplier" (PhysicsEngine.e_parameters e) = Some f ->
            (0 <= f)%Q)
         PhysicsEngine.physics_library.
Proof.
  repeat constructor; intros f H; vm_compute in H;
    first [discriminate | inversion H; subst; unfold Qle; simpl; lia].
Qed.

Lemma parsed_ok rnd now prompt mid m f :
  PhysicsEngine._parse_physics_prompt rnd now prompt mid = Some m ->
  Dict.get "damage_multiplier" (PhysicsModification.parameters m) = Some f ->
  (0 <= f)%Q.
Proof.
  unfold PhysicsEngine._parse_physics_prompt.
  destruct (PhysicsEngine.find_entry _) as [e|] eqn:E.
  - intro H. inversion H. simpl.
    apply find_some in E as [E _].
    pose proof library_ok as L. rewrite Forall_forall in L. now apply L.
  - intro H. inversion H. unfold PhysicsEngine._generate_random_modification.
    destruct (PhysicsEngine.choice rnd mod 4)%nat as [|[|[|[|[|n]]]]]; simpl; discriminate.
Qed.

Lemma engine_ok_apply rnd now prompt k eng :
  engine_ok eng ->
  engine_ok (snd (PhysicsEngine.apply_master_prompt rnd now prompt k eng)).
Proof.
  intro H. unfold PhysicsEngine.apply_master_prompt.
  destruct (PhysicsEngine._parse_physics_prompt rnd now prompt k) as [md|] eqn:E; trivial.
  intros mid m f Hm Hf. revert Hm.
  unfold PhysicsEngine.mods_of at 1, Dict.get_default. simpl.
  rewrite DictFacts.get_set. destruct (String.eqb k mid) eqn:K.
  - apply String.eqb_eq in K. subst k. intro Hm. apply in_app_or in Hm as [Hm|[<-|[]]].
    + eapply H; eassumption.
    + eapply parsed_ok; eassumption.
  - intro Hm. eapply H; [|eassumption]. exact Hm.
Qed.

Lemma engine_ok_init : engine_ok PhysicsEngine.init.
Proof. intros mid m f []. Qed.

Lemma damage_link z ph :
  damage_ok z -> physics_ok ph ->
  damage_ok (Num.py_int (inject_Z z * Physics.damage_multiplier ph)).
Proof.
  unfold damage_ok, physics_ok. intros Hz Hp. apply NumFacts.py_int_nonneg.
  apply Qmult_le_0_compat; trivial. unfold Qle. simpl. lia.
Qed.

(** *** Players *)

Lemma worn_refl p : worn p p.
Proof. intro H. split; [split; [reflexivity|lia]|exact H]. Qed.

Lemma worn_trans a b c : worn a b -> worn b c -> worn a c.
Proof.
  intros H1 H2 Ha. destruct (H1 Ha) as [[I1 L1] Hb]. destruct (H2 Hb) as [[I2 L2] Hc].
  split; [split; [congruence|lia]|exact Hc].
Qed.

Lemma worn_damage dmg p : damage_ok dmg -> worn p (take_damage dmg p).
Proof.
  intros Hd Hp. destruct (HitFacts.take_damage_spec dmg p) as (Hid & Hh & _).
  unfold damage_ok in Hd. split; [split; [exact Hid|]|]; lia.
Qed.

Lemma worn_same p p' :
  PlayerState.id p' = PlayerState.id p ->
  PlayerState.health p' = PlayerState.health p -> worn p p'.
Proof. intros Hi Hh Hp. split; [split; [exact Hi|lia]|lia]. Qed.

Lemma worn_health l l' :
  Forall2 worn l l' ->
  (forall p, In p l -> (0 <= PlayerState.health p <= 100)%Z) ->
  (forall p', In p' l' -> (0 <= PlayerState.health p' <= 100)%Z)
  /\ Forall2 PlayerRel.no_heal l l'.
Proof.
  intro H. induction H as [|p p' l l' Hp _ IH]; intro Hl.
  - split; [intros ? []|constructor].
  - destruct (Hl p (or_introl eq_refl)) as [H0 H100].
    destruct (Hp H0) as [[Hi Hle] H0'].
    destruct IH as [IH1 IH2]; [intros; apply Hl; now right|].
    split.
    + intros q [<-|Hq]; [lia|now apply IH1].
    + constructor; [split; assumption | assumption].
Qed.

(** *** The stored damage values *)

Lemma In_update_first (A : Type) (p : A -> bool) (f : A -> A) l b :
  In b (update_first p f l) -> In b l \/ exists a, In a l /\ b = f a.
Proof.
  intro H.
  assert (F : Forall2 (fun a b => b = a \/ b = f a) l (update_first p f l))
    by (apply CombatFacts.update_first_rel; auto).
  destruct (@FrameFacts.Forall2_In_r _ _ _ _ b F H) as (a & Ha & [->| ->]); eauto.
Qed.

Lemma arsenal_kept m m' :
  arsenal_ok damage_ok m ->
  Forall2 (fun q q' => PlayerState.weapons q' = PlayerState.weapons q)
    (MatchState.players m) (MatchState.players m') ->
  (forall pr, In pr (MatchState.projectiles m') ->
     In pr (MatchState.projectiles m) \/ damage_ok (Projectile.damage pr)) ->
  arsenal_ok damage_ok m'.
Proof.
  intros [Hpr Hw] Hp Hq. split.
  - intros pr H. destruct (Hq pr H); auto.
  - intros p' w Hp' Hw'.
    destruct (@FrameFacts.Forall2_In_r _ _ _ _ p' Hp Hp') as (p & I & E).
    rewrite E in Hw'. eauto.
Qed.

Lemma arsenal_update_player pid f m :
  arsenal_ok damage_ok m ->
  (forall p, PlayerState.weapons (f p) = PlayerState.weapons p) ->
  arsenal_ok damage_ok (update_player pid f m).
Proof.
  intros H Hf. apply arsenal_kept with (m := m); [exact H | |].
  - unfold update_player. cbn [MatchState.players MatchState.set_players].
    apply CombatFacts.update_first_rel; [reflexivity | intros; apply Hf].
  - intros pr Hpr. now left.
Qed.

Lemma arsenal_add_weapon pid v w m :
  arsenal_ok damage_ok m ->
  damage_ok (WeaponProperties.damage (Weapon.properties w)) ->
  arsenal_ok damage_ok (update_player pid (add_weapon v w) m).
Proof.
  intros [Hpr Hw] Hd. split; [exact Hpr|].
  intros p' w' Hp' Hw'. unfold update_player in Hp'.
  cbn [MatchState.players MatchState.set_players] in Hp'.
  apply In_update_first in Hp' as [Hp'|(p & Hp & ->)]; [eauto|].
  unfold add_weapon in Hw'. cbn [PlayerState.weapons PlayerState.set_weapons] in Hw'.
  apply in_app_or in Hw' as [Hw'|[<-|[]]]; [|exact Hd].
  eapply Hw; eassumption.
Qed.

Lemma arsenal_record now md m :
  arsenal_ok damage_ok m -> arsenal_ok damage_ok (record_modification now md m).
Proof. intro H. exact H. Qed.

Lemma fire_projectiles sqrt now pid player weapon target ph m pr :
  In pr (MatchState.projectiles (fire sqrt now pid player weapon target ph m)) ->
  In pr (MatchState.projectiles m)
  \/ Projectile.damage pr
     = Num.py_int (inject_Z (WeaponProperties.damage (Weapon.properties weapon))
                   * Physics.damage_multiplier ph).
Proof.
  unfold fire, update_player. cbn [MatchState.projectiles MatchState.set_players].
  assert (C : In pr (MatchState.projectiles
                       (_create_projectile sqrt now m player weapon target ph)) ->
              In pr (MatchState.projectiles m)
              \/ Projectile.damage pr
                 = Num.py_int (inject_Z (WeaponProperties.damage (Weapon.properties weapon))
                               * Physics.damage_multiplier ph)).
  { destruct (HitFacts.create_projectile_spec sqrt now m player weapon target ph)
      as [_ [-> | (pr0 & -> & E & _)]]; [now left|].
    intro H. apply in_app_or in H as [H|[<-|[]]]; auto. }
  destruct (Weapon.category weapon); auto.
  unfold _create_area_effect. destruct target; auto.
Qed.

Lemma arsenal_fire sqrt now pid player weapon target ph m :
  arsenal_ok damage_ok m -> physics_ok ph ->
  damage_ok (WeaponProperties.damage (Weapon.properties weapon)) ->
  arsenal_ok damage_ok (fire sqrt now pid player weapon target ph m).
Proof.
  intros H Hph Hd. apply arsenal_kept with (m := m); [exact H | |].
  - apply FrameFacts.fire_rel
      with (D := fun _ => True) (G := fun _ => True) (Eph := fun _ => True); auto.
    + intros. congruence.
    + intros. apply FrameFacts.take_damage_weapons.
  - intros pr Hpr. destruct (fire_projectiles _ _ _ _ _ _ _ _ _ Hpr) as [I| ->]; [now left|].
    right. now apply damage_link.
Qed.

(** *** Matchmaking, removal and restart *)

Lemma started_health now m p :
  In p (MatchState.players (started now m)) -> PlayerState.health p = 100%Z.
Proof.
  unfold started. cbn [MatchState.players MatchState.set_players].
  intro H. apply in_map_iff in H as (q & <- & _). reflexivity.
Qed.

Lemma match_ok_started now m : match_ok m -> match_ok (started now m).
Proof.
  intros [[Hpr Hw] Hh]. split; [split|].
  - exact Hpr.
  - intros p w Hp. unfold started in Hp.
    cbn [MatchState.players MatchState.set_players] in Hp.
    apply in_map_iff in Hp as (q & <- & _). intros [].
  - intros p Hp. rewrite (started_health _ _ _ Hp). lia.
Qed.

Lemma match_ok_leave pid m : match_ok m -> match_ok (leave pid m).
Proof.
  intros [[Hpr Hw] Hh]. split; [split|].
  - exact Hpr.
  - intros p w Hp. unfold leave in Hp.
    cbn [MatchState.players MatchState.set_players] in Hp.
    apply filter_In in Hp as [Hp _]. now apply Hw.
  - intros p Hp. unfold leave in Hp.
    cbn [MatchState.players MatchState.set_players] in Hp.
    apply filter_In in Hp as [Hp _]. now apply Hh.
Qed.

Lemma match_ok_end now m eng : match_ok m -> match_ok (fst (_end_match now m eng)).
Proof.
  destruct (CombatFacts.end_match_spec now m eng) as (Hp & Hq & _).
  intros [[Hpr Hw] Hh]. split; [split|].
  - intros pr. rewrite Hq. apply Hpr.
  - intros p w. rewrite Hp. apply Hw.
  - intros p. rewrite Hp. apply Hh.
Qed.

Lemma match_ok_join pid m : match_ok m -> match_ok (join pid m).
Proof.
  intros [[Hpr Hw] Hh]. split; [split|].
  - exact Hpr.
  - intros p w Hp. unfold join in Hp.
    cbn [MatchState.players MatchState.set_players] in Hp.
    apply in_app_or in Hp as [Hp|[<-|[]]]; [now apply Hw|intros []].
  - intros p Hp. unfold join in Hp.
    cbn [MatchState.players MatchState.set_players] in Hp.
    apply in_app_or in Hp as [Hp|[<-|[]]]; [now apply Hh|simpl; lia].
Qed.

Lemma match_ok_create mid pid name pos :
  match_ok (MatchState.create mid [PlayerState.create pid name pos]).
Proof.
  split; [split|].
  - intros pr [].
  - intros p w [<-|[]] [].
  - intros p [<-|[]]. simpl. lia.
Qed.

Lemma joined_join pid m : HealthSpec.joined pid m (join pid m).
Proof. eexists. split; [|split; [|left; reflexivity]]; reflexivity. Qed.

Lemma joined_create pid mid m name pos :
  HealthSpec.joined pid m (MatchState.create mid [PlayerState.create pid name pos]).
Proof. eexists. split; [|split; [|right; reflexivity]]; reflexivity. Qed.

(** *** The three methods that add, remove or reset players *)

Lemma find_or_create_ok now pid mm mid m' :
  (forall k m, Dict.get k (matches mm) = Some m -> match_ok m) ->
  Dict.get mid (matches (snd (find_or_create_match now pid mm))) = Some m' ->
  match_ok m'
  /\ forall m, Dict.get mid (matches mm) = Some m ->
       HealthSpec.unchanged m m' \/ HealthSpec.joined pid m m'.
Proof.
  intros Hok H.
  destruct (find_or_create_match_effect now pid mm mid)
    as [_ [E|[(m0 & E0 & _ & E)|E]]]; simpl in E; rewrite E in H.
  - split; [eapply Hok; eassumption|]. intros m Hm. left.
    unfold HealthSpec.unchanged. congruence.
  - inversion H; subst. split; [apply match_ok_join; eauto|].
    intros m Hm. right. assert (m = m0) by congruence. subst. apply joined_join.
  - inversion H; subst. split; [apply match_ok_create|].
    intros. right. apply joined_create.
Qed.

Lemma start_match_ok now k mm mid m' :
  (forall k m, Dict.get k (matches mm) = Some m -> match_ok m) ->
  Dict.get mid (matches (snd (start_match now k mm))) = Some m' ->
  match_ok m'
  /\ exists m, Dict.get mid (matches mm) = Some m /\ (m' = m \/ m' = started now m).
Proof.
  intros Hok H.
  destruct (start_match_effect now k mm mid) as [_ [E|(m0 & _ & E0 & _ & E)]];
    simpl in E; rewrite E in H.
  - split; [eapply Hok; eassumption|]. exists m'. auto.
  - inversion H; subst. split; [apply match_ok_started; eauto|]. exists m0. auto.
Qed.

Lemma remove_player_ok now pid mm mid m' :
  (forall k m, Dict.get k (matches mm) = Some m -> match_ok m) ->
  Dict.get mid (matches (remove_player now pid mm)) = Some m' ->
  match_ok m'
  /\ forall m, Dict.get mid (matches mm) = Some m ->
       HealthSpec.unchanged m m'
       \/ MatchState.players m'
          = filter (fun p => negb (has_id pid p)) (MatchState.players m).
Proof.
  intros Hok H. rewrite remove_player_effect in H.
  assert (Same : Dict.get mid (matches mm) = Some m' ->
                 match_ok m'
                 /\ forall m, Dict.get mid (matches mm) = Some m ->
                      HealthSpec.unchanged m m'
                      \/ MatchState.players m'
                         = filter (fun p => negb (has_id pid p)) (MatchState.players m)).
  { intro E. split; [eapply Hok; eassumption|]. intros m Hm. left.
    unfold HealthSpec.unchanged. congruence. }
  destruct (Dict.get pid (player_match_map mm)) as [k|]; [|now apply Same].
  destruct (String.eqb k mid); [|now apply Same].
  destruct (Dict.get mid (matches mm)) as [m0|] eqn:E0; [|discriminate].
  inversion H. clear H. subst m'.
  assert (L : match_ok (leave pid m0)) by (apply match_ok_leave; eauto).
  split.
  - destruct (abandoned (leave pid m0)); [exact (match_ok_end now (physics_engine mm) L) | exact L].
  - intros m Hm. inversion Hm. subst m0. right.
    destruct (abandoned (leave pid m)); [|reflexivity].
    destruct (CombatFacts.end_match_spec now (leave pid m) (physics_engine mm))
      as [E _]. exact E.
Qed.

(** *** One operation *)

Section Server.
Variable sqrt : Q -> Q.
Variable hash : string -> Z.
Variable md5 : string -> string.
Variable _generate_weapon_sprite : string -> WeaponCategory -> string.
Variable _get_default_sprite : string.

Lemma server_manager_ok s :
  server_ok s -> manager_ok engine_ok damage_ok (match_manager s).
Proof. intros (He & Hm & _). split; [exact He|]. intros mid m H. now apply (Hm mid m). Qed.

Lemma in_place_worn op s mid m m' :
  server_ok s -> in_place op = true ->
  Dict.get mid (matches (match_manager s)) = Some m ->
  Dict.get mid (matches (match_manager
     (step sqrt hash md5 _generate_weapon_sprite _get_default_sprite op s))) = Some m' ->
  Forall2 worn (MatchState.players m) (MatchState.players m').
Proof.
  intro Hs.
  apply FrameFacts.in_place_rel
    with (D := damage_ok) (G := damage_ok) (Eph := physics_ok) (Eeng := engine_ok).
  - exact worn_refl.
  - exact worn_trans.
  - intros. now apply worn_damage.
  - intros. now apply worn_same.
  - intros. now apply worn_same.
  - intros. now apply worn_same.
  - intros. now apply worn_same.
  - exact damage_link.
  - intros. now apply engine_ok_calc.
  - intros. now apply engine_ok_remove.
  - now apply server_manager_ok.
Qed.

Lemma in_place_arsenal op s mid m m' :
  server_ok s -> in_place op = true ->
  Dict.get mid (matches (match_manager s)) = Some m ->
  Dict.get mid (matches (match_manager
     (step sqrt hash md5 _generate_weapon_sprite _get_default_sprite op s))) = Some m' ->
  arsenal_ok damage_ok m'.
Proof.
  intros Hs Hop Hm Hm'. pose proof Hs as (He & Hok & Hc).
  assert (Ha : arsenal_ok damage_ok m) by (apply (Hok mid m Hm)).
  assert (Same : Dict.get mid (matches (match_manager s)) = Some m' ->
                 arsenal_ok damage_ok m').
  { intro E. rewrite Hm in E. inversion E. now subst. }
  destruct op; try discriminate; cbn [step] in Hm'.
  - (* input *)
    unfold Server.handle_player_input in Hm'.
    destruct input as [input|]; [|now apply Same].
    destruct (String.length match_id =? 0)%nat; [now apply Same|].
    destruct (get_match match_id (match_manager s)); [|now apply Same].
    unfold with_manager in Hm'. cbn [match_manager] in Hm'.
    destruct (handle_player_input_effect now match_id player_id input (match_manager s) mid)
      as [E | (m0 & _ & E0 & _ & E)]; rewrite E in Hm'; [now apply Same|].
    inversion Hm'. assert (m0 = m) by congruence. subst.
    apply arsenal_update_player; trivial.
  - (* weapon generation *)
    destruct (handle_weapon_generation_effect hash md5 _generate_weapon_sprite
                _get_default_sprite now now_done fresh_id ai player_id prompt match_id s mid)
      as (_ & [E | (m0 & w & K & E0 & _ & Eg & E)]); rewrite E in Hm'; [now apply Same|].
    inversion Hm'. assert (m0 = m) by congruence. subst.
    apply arsenal_add_weapon; trivial.
    destruct (WeaponGenerator.generate_weapon hash md5 _generate_weapon_sprite
                _get_default_sprite now fresh_id ai (PyStr.strip prompt) player_id mid
                (weapon_generator s)) as [w0 c0] eqn:G.
    simpl in Eg. subst w0.
    edestruct BalanceFacts.generate_weapon_kept as [K _]; [exact Hc | exact G |].
    unfold damage_ok. destruct K as [K _]. lia.
  - (* weapon use *)
    unfold handle_weapon_use in Hm'.
    destruct (_ || _); [now apply Same|].
    unfold with_manager in Hm'. cbn [match_manager] in Hm'.
    destruct (use_weapon_effect sqrt now match_id player_id weapon_id target
                (match_manager s) mid)
      as [E | (m0 & pl & w & _ & E0 & _ & Hpl & _ & Hw & E)]; rewrite E in Hm';
      [now apply Same|].
    inversion Hm'. assert (m0 = m) by congruence. subst.
    apply arsenal_fire; trivial.
    + now apply engine_ok_calc.
    + destruct Ha as [_ Hws]. apply (Hws pl w).
      * eapply FrameFacts.find_In. exact Hpl.
      * eapply FrameFacts.find_In. exact Hw.
  - (* master prompt *)
    destruct (handle_master_prompt_effect now rnd player_id prompt match_id s mid)
      as [E | (m0 & md & _ & E0 & E)]; rewrite E in Hm'; [now apply Same|].
    inversion Hm'. assert (m0 = m) by congruence. subst. now apply arsenal_record.
  - (* game loop *)
    unfold game_loop, with_manager in Hm'. cbn [match_manager] in Hm'.
    assert (M : manager_ok engine_ok damage_ok (update_matches now (match_manager s))).
    { apply FrameFacts.update_matches_ok with (Eph := physics_ok).
      - intros. now apply engine_ok_calc.
      - intros. now apply engine_ok_remove.
      - now apply server_manager_ok. }
    destruct M as [_ M]. now apply (M mid m').
  - (* scheduler *)
    unfold master_prompt_scheduler, with_manager in Hm'. cbn [match_manager] in Hm'.
    revert Ha.
    apply (@fold_visited (schedule_match now rnd pick) mid
             (fun a b => arsenal_ok damage_ok a -> arsenal_ok damage_ok b)
             (fun _ => True))
      with (ks := Dict.keys (matches (match_manager s))) (mm := match_manager s); trivial.
    + intros a b c; auto.
    + intros. now apply schedule_match_local.
    + intros. now apply schedule_match_gone.
    + intros mm0 m0 m0' _ H0 H0'.
      destruct (schedule_match_at now rnd pick mm0 mid H0 H0') as [->|(md & ->)]; auto.
    + eapply DictFacts.get_keys; eassumption.
Qed.

Lemma schedule_match_engine now rnd pick mm k :
  engine_ok (physics_engine mm) ->
  engine_ok (physics_engine (schedule_match now rnd pick mm k)).
Proof.
  intro H. unfold schedule_match.
  destruct (Dict.get k (matches mm)) as [m|]; trivial.
  destruct (_ && _); trivial.
  pose proof (engine_ok_apply rnd now
                (nth (pick k mod 7) random_prompts "low gravity"%string)
                (MatchState.id m) H) as A.
  destruct (PhysicsEngine.apply_master_prompt rnd now _ (MatchState.id m) _)
    as [[modification|] e1]; exact A.
Qed.

Lemma step_engine op s :
  server_ok s ->
  engine_ok (physics_engine (match_manager
     (step sqrt hash md5 _generate_weapon_sprite _get_default_sprite op s))).
Proof.
  intros Hs. pose proof Hs as (He & Hok & Hc). destruct op; cbn [step].
  - (* find match *)
    unfold handle_find_match.
    destruct (find_or_create_match_effect now player_id (match_manager s) player_id)
      as [E _].
    destruct (find_or_create_match now player_id (match_manager s)) as [[m|] mm1];
      simpl in E; [|simpl; now rewrite E].
    destruct (_ && _); [|simpl; now rewrite E].
    destruct (start_match_effect now (MatchState.id m) mm1 player_id) as [E1 _].
    simpl in *. now rewrite E1, E.
  - (* input *)
    unfold Server.handle_player_input.
    destruct input as [input|]; trivial.
    destruct (String.length match_id =? 0)%nat; trivial.
    destruct (get_match match_id (match_manager s)); trivial.
    unfold with_manager. cbn [match_manager].
    destruct (handle_player_input_engine now match_id player_id input (match_manager s))
      as [-> | ->]; trivial. now apply engine_ok_calc.
  - (* weapon generation *)
    destruct (handle_weapon_generation_effect hash md5 _generate_weapon_sprite
                _get_default_sprite now now_done fresh_id ai player_id prompt match_id s
                match_id) as (-> & _). exact He.
  - (* weapon use *)
    unfold handle_weapon_use. destruct (_ || _); trivial.
    unfold with_manager. cbn [match_manager].
    destruct (use_weapon_engine sqrt now match_id player_id weapon_id target
                (match_manager s)) as [-> | ->]; trivial. now apply engine_ok_calc.
  - (* master prompt *)
    unfold handle_master_prompt.
    destruct (String.length (PyStr.strip prompt) =? 0)%nat; trivial.
    destruct (get_match match_id (match_manager s)); trivial.
    pose proof (engine_ok_apply rnd now (PyStr.strip prompt) match_id He) as A.
    destruct (PhysicsEngine.apply_master_prompt rnd now (PyStr.strip prompt) match_id _)
      as [[modification|] e1]; exact A.
  - (* disconnect *)
    unfold handle_player_disconnect, with_manager. cbn [match_manager].
    destruct (remove_player_engine now player_id (match_manager s)) as [-> | (k & ->)];
      trivial. now apply engine_ok_remove.
  - (* game loop *)
    unfold game_loop, with_manager. cbn [match_manager].
    assert (M : manager_ok engine_ok damage_ok (update_matches now (match_manager s))).
    { apply FrameFacts.update_matches_ok with (Eph := physics_ok).
      - intros. now apply engine_ok_calc.
      - intros. now apply engine_ok_remove.
      - now apply server_manager_ok. }
    now destruct M.
  - (* scheduler *)
    unfold master_prompt_scheduler, with_manager. cbn [match_manager].
    generalize (Dict.keys (matches (match_manager s))). intro ks.
    revert He. generalize (match_manager s).
    induction ks as [|k ks IH]; intros mm H; simpl; trivial.
    apply IH. now apply schedule_match_engine.
  - (* find or create *)
    unfold with_manager. cbn [match_manager].
    destruct (find_or_create_match_effect now player_id (match_manager s) player_id)
      as [E _]. simpl in E. now rewrite E.
  - (* start *)
    unfold with_manager. cbn [match_manager].
    destruct (start_match_effect now match_id (match_manager s) match_id) as [E _].
    simpl in E. now rewrite E.
Qed.

Lemma step_cache op s :
  server_ok s ->
  Balance.cache_kept (weapon_generator
     (step sqrt hash md5 _generate_weapon_sprite _get_default_sprite op s)).
Proof.
  intros (_ & _ & Hc). destruct op; cbn [step]; trivial.
  - unfold handle_find_match.
    destruct (find_or_create_match now player_id (match_manager s)) as [[m|] mm1]; trivial.
    destruct (_ && _); trivial.
  - unfold Server.handle_player_input.
    destruct input; trivial. destruct (_ =? _)%nat; trivial.
    destruct (get_match _ _); trivial.
  - unfold handle_weapon_generation.
    destruct (prompt_rejected _); trivial.
    destruct (get_match _ _) as [m|]; trivial.
    destruct (player_of _ _) as [p|]; trivial.
    destruct (Num.Qltb _ _); trivial.
    pose proof (BalanceFacts.generate_weapon_cache hash md5 _generate_weapon_sprite
                  _get_default_sprite now fresh_id ai (PyStr.strip prompt) player_id
                  match_id Hc) as G.
    destruct (WeaponGenerator.generate_weapon _ _ _ _ _ _ _ _ _ _ _) as [[w|] c]; exact G.
  - unfold handle_weapon_use. destruct (_ || _); trivial.
  - unfold handle_master_prompt.
    destruct (_ =? _)%nat; trivial. destruct (get_match _ _); trivial.
    destruct (PhysicsEngine.apply_master_prompt _ _ _ _ _) as [[md|] e]; trivial.
Qed.

Lemma handle_find_match_manager now pid s :
  match_manager (handle_find_match now pid s)
    = snd (find_or_create_match now pid (match_manager s))
  \/ exists k,
       match_manager (handle_find_match now pid s)
       = snd (start_match now k (snd (find_or_create_match now pid (match_manager s)))).
Proof.
  unfold handle_find_match.
  destruct (find_or_create_match now pid (match_manager s)) as [[m|] mm1]; [|now left].
  destruct (_ && _); [|now left]. right. now exists (MatchState.id m).
Qed.

(** The operations that add, remove or reset players. *)
Lemma step_other op s mid m' :
  server_ok s -> in_place op = false ->
  Dict.get mid (matches (match_manager
     (step sqrt hash md5 _generate_weapon_sprite _get_default_sprite op s))) = Some m' ->
  match_ok m'
  /\ forall m, Dict.get mid (matches (match_manager s)) = Some m ->
       HealthSpec.health_change op m m'.
Proof.
  intros (_ & Hok & _) Hop H. destruct op; try discriminate; cbn [step] in H;
    cbn [HealthSpec.health_change].
  - (* find match *)
    destruct (handle_find_match_manager now player_id s) as [E|(k & E)]; rewrite E in H.
    + destruct (find_or_create_ok _ _ _ _ Hok H) as [M C]. split; [exact M|].
      intros m Hm. destruct (C m Hm); auto.
    + assert (Hok1 : forall k0 m0,
                Dict.get k0 (matches (snd (find_or_create_match now player_id
                                             (match_manager s)))) = Some m0 ->
                match_ok m0).
      { intros k0 m0 H0. now destruct (find_or_create_ok _ _ _ _ Hok H0). }
      destruct (start_match_ok _ _ _ _ Hok1 H) as [M (m1 & H1 & C)].
      split; [exact M|]. intros m Hm.
      destruct (find_or_create_ok _ _ _ _ Hok H1) as [_ C1]. specialize (C1 m Hm).
      destruct C as [-> | ->].
      * destruct C1; auto.
      * right. right. exists m1. auto.
  - (* disconnect *)
    unfold handle_player_disconnect, with_manager in H. cbn [match_manager] in H.
    eapply remove_player_ok; eassumption.
  - (* find or create *)
    unfold with_manager in H. cbn [match_manager] in H.
    eapply find_or_create_ok; eassumption.
  - (* start *)
    unfold with_manager in H. cbn [match_manager] in H.
    destruct (start_match_ok _ _ _ _ Hok H) as [M (m1 & H1 & C)].
    split; [exact M|]. intros m Hm. assert (m1 = m) by congruence. subst m1.
    destruct C as [-> | ->]; [left; reflexivity | now right].
Qed.

(** The operations that work in place. *)
Lemma step_in_place op s mid m' :
  server_ok s -> in_place op = true ->
  Dict.get mid (matches (match_manager
     (step sqrt hash md5 _generate_weapon_sprite _get_default_sprite op s))) = Some m' ->
  match_ok m'
  /\ forall m, Dict.get mid (matches (match_manager s)) = Some m ->
       HealthSpec.health_change op m m'.
Proof.
  intros Hs Hop H.
  destruct (FrameFacts.in_place_no_creation sqrt hash md5 _generate_weapon_sprite
              _get_default_sprite op s mid Hop H) as [m0 H0].
  assert (Hh : health_ok m0) by (destruct Hs as (_ & Hok & _); apply (Hok mid m0 H0)).
  destruct (worn_health (@in_place_worn op s mid m0 m' Hs Hop H0 H) Hh) as [Hh' Hn].
  split.
  - split; [eapply in_place_arsenal; eassumption | exact Hh'].
  - intros m Hm. assert (m = m0) by congruence. subst m0.
    destruct op; try discriminate; exact Hn.
Qed.

Lemma server_ok_init : server_ok init.
Proof.
  split; [exact engine_ok_init|]. split; [intros mid m H; discriminate|intros w []].
Qed.

Lemma server_ok_step op s :
  server_ok s ->
  server_ok (step sqrt hash md5 _generate_weapon_sprite _get_default_sprite op s).
Proof.
  intro Hs. split; [now apply step_engine|]. split; [|now apply step_cache].
  intros mid m' H. destruct (in_place op) eqn:Hop.
  - now destruct (@step_in_place op s mid m' Hs Hop H).
  - now destruct (@step_other op s mid m' Hs Hop H).
Qed.

Lemma reachable_ok s :
  reachable sqrt hash md5 _generate_weapon_sprite _get_default_sprite s -> server_ok s.
Proof.
  intro H. induction H as [|op s _ IH]; [exact server_ok_init | now apply server_ok_step].
Qed.

End Server.

(** C3. In every state the server can reach, the health of every player of
    every match is in [0,100]. Between a match stored before an operation
    and the match stored under the same key after it, nobody's health has
    grown: input, weapon generation and use, physics prompts and the two
    background loops keep the players, one by one, each with a health no
    greater than before; a disconnect only drops players; matchmaking only
    appends a new player with health 100 (or stores a new match of one
    such player under the key). The one exception is [start_match], called
    directly or by [handle_find_match], which leaves every player of the
    match it starts with health 100. *)
Theorem health_bounded_and_monotone sqrt hash md5 sprite default_sprite s :
  reachable sqrt hash md5 sprite default_sprite s ->
  (forall mid m p,
     Dict.get mid (matches (match_manager s)) = Some m ->
     In p (MatchState.players m) -> (0 <= PlayerState.health p <= 100)%Z)
  /\ (forall op mid m m',
        Dict.get mid (matches (match_manager s)) = Some m ->
        Dict.get mid (matches (match_manager
           (step sqrt hash md5 sprite default_sprite op s))) = Some m' ->
        HealthSpec.health_change op m m')
  /\ (forall now m p,
        In p (MatchState.players (started now m)) -> PlayerState.health p = 100%Z).
Proof.
  intro R. apply reachable_ok in R. split; [|split].
  - intros mid m p Hm Hp. destruct R as (_ & Hok & _).
    destruct (Hok mid m Hm) as [_ Hh]. now apply Hh.
  - intros op mid m m' Hm Hm'. destruct (in_place op) eqn:Hop.
    + destruct (@step_in_place sqrt hash md5 sprite default_sprite op s mid m' R Hop Hm')
        as [_ C]. now apply C.
    + destruct (@step_other sqrt hash md5 sprite default_sprite op s mid m' R Hop Hm')
        as [_ C]. now apply C.
  - apply started_health.
Qed.

Lemma health_bounded_and_monotone_witness :
  reachable Example.sqrt0 Example.hash0 Example.md50 Example.sprite0
    Example.default_sprite0 Example.lobby
  /\ forall mid m p,
       Dict.get mid (matches (match_manager Example.lobby)) = Some m ->
       In p (MatchState.players m) -> (0 <= PlayerState.health p <= 100)%Z.
Proof.
  assert (R : reachable Example.sqrt0 Example.hash0 Example.md50 Example.sprite0
                Example.default_sprite0 Example.lobby).
  { unfold Example.lobby, Example.step0. apply reachable_step, reachable_step.
    apply reachable_init. }
  split; [exact R|]. apply (health_bounded_and_monotone R).
Defined.

End HealthFacts.

(** ** The physics engine beyond the current physics *)

Module EngineFacts.
Import PhysicsEngine PhysicsFacts.
Local Open Scope list_scope.

Lemma mods_of_set k k' l d h :
  mods_of k' (mk (Dict.set k l d) h) = if String.eqb k k' then l else mods_of k' (mk d h).
Proof.
  unfold mods_of, Dict.get_default. simpl. rewrite DictFacts.get_set.
  now destruct (String.eqb k k').
Qed.

(** X1. [apply_master_prompt] never fails: whatever the prompt, it returns a
    modification, tagged with the match and the current time, appends it to
    the modifications of that match and to the history, and leaves the
    modifications of every other match alone. *)
Theorem apply_master_prompt_appends rnd now prompt k eng :
  exists md,
    fst (apply_master_prompt rnd now prompt k eng) = Some md
    /\ PhysicsModification.match_id md = k
    /\ PhysicsModification.start_time md = now
    /\ mods_of k (snd (apply_master_prompt rnd now prompt k eng)) = mods_of k eng ++ [md]
    /\ (forall k', k' <> k ->
          mods_of k' (snd (apply_master_prompt rnd now prompt k eng)) = mods_of k' eng)
    /\ modification_history (snd (apply_master_prompt rnd now prompt k eng))
       = modification_history eng ++ [md].
Proof.
  unfold apply_master_prompt.
  assert (P : exists md, _parse_physics_prompt rnd now prompt k = Some md
                         /\ PhysicsModification.match_id md = k
                         /\ PhysicsModification.start_time md = now).
  { unfold _parse_physics_prompt. destruct (find_entry _); eexists; split; try reflexivity.
    - split; reflexivity.
    - unfold _generate_random_modification.
      destruct (nth _ _ _) as [[[ty descr] params] dur]. split; reflexivity. }
  destruct P as (md & -> & Hk & Hn). exists md. cbn [fst snd].
  split; [reflexivity|]. split; [exact Hk|]. split; [exact Hn|]. split; [|split].
  - rewrite mods_of_set, String.eqb_refl. reflexivity.
  - intros k' N. rewrite mods_of_set.
    destruct (String.eqb k k') eqn:E; [apply String.eqb_eq in E; congruence|].
    reflexivity.
  - reflexivity.
Qed.





Lemma physics_of_mods now k eng :
  fst (calculate_current_physics now k eng)
  = PhysicsSpec.current (filter (PhysicsModification.is_active now) (mods_of k eng)).
Proof.
  unfold calculate_current_physics.
  pose proof (get_active_modifications_fst now k eng) as F.
  destruct (get_active_modifications now k eng) as [a e']. simpl in *.
  rewrite F. apply fold_apply_mod.
Qed.

Lemma skipn_suffix (A : Type) n (l : list A) : exists pre, l = pre ++ skipn n l.
Proof. exists (firstn n l). symmetry. apply firstn_skipn. Qed.



(** X3. Once [remove_match_modifications] has run for a match -- as it does
    when the match ends -- the physics of that match is the base physics at
    every time, and the modifications of the other matches and the history
    are as they were. *)
Theorem remove_match_modifications_resets k eng :
  (forall now,
     fst (calculate_current_physics now k (remove_match_modifications k eng))
     = Physics.base)
  /\ (forall now now' m,
        fst (calculate_current_physics now' (MatchState.id m)
               (snd (MatchManager._end_match now m eng))) = Physics.base)
  /\ (forall k', k' <> k -> mods_of k' (remove_match_modifications k eng) = mods_of k' eng)
  /\ modification_history (remove_match_modifications k eng) = modification_history eng.
Proof.
  assert (R : forall k0 now,
            fst (calculate_current_physics now k0 (remove_match_modifications k0 eng))
            = Physics.base).
  { intros k0 now. unfold calculate_current_physics, get_active_modifications,
      remove_match_modifications. cbn [active_modifications].
    now rewrite DictFacts.get_del_same. }
  split; [apply R|]. split; [|split].
  - intros now now' m.
    destruct (CombatFacts.end_match_spec now m eng) as (_ & _ & _ & _ & _ & _ & ->).
    apply R.
  - intros k' N. unfold mods_of, Dict.get_default, remove_match_modifications.
    cbn [active_modifications]. rewrite DictFacts.get_del_other; trivial. congruence.
  - reflexivity.
Qed.

(** X4. [get_modification_history(limit)] returns the last [limit] entries
    of the history (all of it when it is shorter) for a positive [limit],
    but the whole history for [limit = 0], since the slice [[-0:]] starts at
    the first element. *)
Theorem get_modification_history_slice eng :
  (forall limit, (0 < limit)%Z ->
     length (PhysicsQueries.get_modification_history limit eng)
       = Nat.min (Z.to_nat limit) (length (modification_history eng))
     /\ exists older,
          modification_history eng
          = older ++ PhysicsQueries.get_modification_history limit eng)
  /\ PhysicsQueries.get_modification_history 0 eng = modification_history eng.
Proof.
  split.
  - intros limit H. unfold PhysicsQueries.get_modification_history, PhysicsQueries.py_suffix.
    destruct (0 <? limit)%Z eqn:E; [|apply Z.ltb_ge in E; lia].
    split; [rewrite length_skipn; lia | apply skipn_suffix].
  - reflexivity.
Qed.

(** The loop of [PhysicsState.apply_modifications] from an arbitrary
    starting state, field by field. *)
Lemma fold_apply_one now l : forall s,
  fold_left (PhysicsState.apply_one now) l s =
  let active := filter (PhysicsModification.is_active now) l in
  PhysicsState.mk
    (Num.product (PhysicsState.gravity s) (PhysicsSpec.multipliers GRAVITY active))
    (Num.product (PhysicsState.friction s) (PhysicsSpec.multipliers FRICTION active))
    (Num.product (PhysicsState.restitution s) (PhysicsSpec.multipliers BOUNCE active))
    (last (PhysicsSpec.scales active) (PhysicsState.time_scale s))
    (PhysicsState.active_modifications s).
Proof.
  induction l as [|m l IH]; intro s.
  - destruct s; reflexivity.
  - change (fold_left (PhysicsState.apply_one now) (m :: l) s)
      with (fold_left (PhysicsState.apply_one now) l (PhysicsState.apply_one now s m)).
    rewrite IH. cbv zeta. unfold PhysicsState.apply_one. cbn [filter].
    destruct (PhysicsModification.is_active now m); [|reflexivity].
    rewrite !multipliers_cons, scales_cons.
    destruct (PhysicsModification.type m); cbn [PhysicsModType_eqb];
      rewrite ?product_cons, ?last_cons_default; reflexivity.
Qed.

(** X5. The physics a match carries in its own [PhysicsState] after
    [apply_modifications] agrees with what the engine computes for the same
    list of modifications at the same time: same gravity, friction,
    restitution and time scale; the list itself is not touched. *)
Theorem apply_modifications_agrees now s k eng :
  mods_of k eng = PhysicsState.active_modifications s ->
  let ph := fst (calculate_current_physics now k eng) in
  let s' := PhysicsState.apply_modifications now s in
  PhysicsState.gravity s' = Physics.gravity ph
  /\ PhysicsState.friction s' = Physics.friction ph
  /\ PhysicsState.restitution s' = Physics.restitution ph
  /\ PhysicsState.time_scale s' = Physics.time_scale ph
  /\ PhysicsState.active_modifications s' = PhysicsState.active_modifications s.
Proof.
  intros E ph s'. unfold ph, s', PhysicsState.apply_modifications.
  rewrite physics_of_mods, fold_apply_one, E. cbv zeta. repeat split.
Qed.

Lemma apply_modifications_agrees_witness :
  PhysicsState.gravity (PhysicsState.apply_modifications 1 Scenario.floaty) == 240.
Proof.
  destruct (@apply_modifications_agrees 1 Scenario.floaty "match_0"
              Scenario.low_gravity_engine eq_refl) as (G & _).
  rewrite G. vm_compute. reflexivity.
Defined.

End EngineFacts.

(** ** Substrings and the keywords of the physics library *)

Module KeywordFacts.
Import PhysicsEngine.
Local Open Scope string_scope.

Lemma prefix_app n : forall h,
  String.prefix n h = true <-> exists post, h = n ++ post.
Proof.
  induction n as [|a n IH]; intro h.
  - destruct h; simpl; split; eauto.
  - destruct h as [|b h]; simpl;
      [split; [discriminate | intros [post H]; discriminate]|].
    destruct (ascii_dec a b) as [->|N].
    + rewrite IH. split; intros [post H]; exists post; [now subst | now inversion H].
    + split; [discriminate | intros [post H]; inversion H; congruence].
Qed.

Lemma contains_unfold n h :
  PyStr.contains n h
  = String.prefix n h
    || match h with EmptyString => false | String _ h' => PyStr.contains n h' end.
Proof. destruct h; reflexivity. Qed.

Lemma contains_app n : forall h,
  PyStr.contains n h = true <-> exists pre post, h = pre ++ n ++ post.
Proof.
  induction h as [|c h IH]; rewrite contains_unfold, orb_true_iff, prefix_app.
  - split.
    + intros [[post H]|H]; [|discriminate]. now exists "", post.
    + intros (pre & post & H). left. destruct pre; [now exists post|discriminate].
  - rewrite IH. split.
    + intros [[post H]|(pre & post & H)].
      * now exists "", post.
      * exists (String c pre), post. simpl. now rewrite H.
    + intros (pre & post & H). destruct pre as [|c' pre].
      * left. now exists post.
      * right. inversion H. now exists pre, post.
Qed.

Lemma append_assoc (a b c : string) : (a ++ b) ++ c = a ++ b ++ c.
Proof. induction a; simpl; congruence. Qed.

(** Whatever contains a string contains its substrings. *)
Lemma contains_trans a b c :
  PyStr.contains a b = true -> PyStr.contains b c = true -> PyStr.contains a c = true.
Proof.
  rewrite !contains_app. intros (p1 & q1 & ->) (p2 & q2 & ->).
  exists (p2 ++ p1), (q1 ++ q2). now rewrite !append_assoc.
Qed.

Lemma find_within (A : Type) (p : A -> bool) : forall l j a,
  nth_error l j = Some a -> p a = true ->
  exists b, find p l = Some b /\ In b (firstn (S j) l).
Proof.
  induction l as [|x l IH]; intros j a Hj Ha; [destruct j; discriminate|].
  cbn [find]. destruct (p x) eqn:E.
  - exists x. split; trivial. now left.
  - destruct j as [|j]; [inversion Hj; congruence|].
    destruct (IH j a Hj Ha) as (b & Hb & Hin). exists b. split; trivial. now right.
Qed.

(** A prompt that contains the keyword [inner] of the entry at index [j]
    selects that entry or an earlier one. *)
Lemma selects_within j e inner outer prompt_lower :
  nth_error physics_library j = Some e ->
  PyStr.mem inner (e_keywords e) = true ->
  PyStr.contains inner outer = true ->
  PyStr.contains outer prompt_lower = true ->
  exists b, find_entry prompt_lower = Some b /\ In b (firstn (S j) physics_library).
Proof.
  intros Hj Hk Hio Hop. unfold find_entry. eapply find_within; [exact Hj|].
  apply existsb_exists. unfold PyStr.mem in Hk. apply existsb_exists in Hk as (kw & Hkw & E).
  apply String.eqb_eq in E. subst kw. exists inner. split; trivial.
  eapply contains_trans; eassumption.
Qed.

(** X6. Seven keywords of the physics library can never select the entry
    that lists them: each contains a keyword of an earlier entry, and the
    first matching entry wins. A prompt with "super bouncy" or "mega
    bounce" never yields Super Bouncy, one with "no bounce" or "dead
    bounce" never No Bounce, one with "super slippery" or "slide
    everywhere" never Super Slippery, and one with "float free" never Zero
    Gravity. *)
Theorem shadowed_keywords rnd now prompt k eng kw descr md :
  In (kw, descr) Keywords.shadowed ->
  PyStr.contains kw (PyStr.strip (PyStr.lower prompt)) = true ->
  fst (apply_master_prompt rnd now prompt k eng) = Some md ->
  Keywords.keyword_of kw descr = true
  /\ PhysicsModification.description md <> descr.
Proof.
  intros Hin Hc Hmd.
  assert (S : forall j e inner,
            nth_error physics_library j = Some e ->
            PyStr.mem inner (e_keywords e) = true ->
            PyStr.contains inner kw = true ->
            ~ In descr (map e_description (firstn (S j) physics_library)) ->
            PhysicsModification.description md <> descr).
  { intros j e inner Hj Hk Hio Hno.
    destruct (@selects_within j e inner kw _ Hj Hk Hio Hc) as (b & Hb & Hbin).
    unfold apply_master_prompt, _parse_physics_prompt in Hmd. rewrite Hb in Hmd.
    cbn [fst] in Hmd. inversion Hmd. cbn [PhysicsModification.description].
    intro E. apply Hno. rewrite <- E. now apply in_map. }
  simpl in Hin.
  destruct Hin as [H|[H|[H|[H|[H|[H|[H|[]]]]]]]]; inversion H; subst kw descr;
    (split; [reflexivity|]).
  - apply (@S 0%nat _ "float" eq_refl eq_refl eq_refl). vm_compute. intuition discriminate.
  - apply (@S 4%nat _ "slippery" eq_refl eq_refl eq_refl). vm_compute. intuition discriminate.
  - apply (@S 4%nat _ "slide" eq_refl eq_refl eq_refl). vm_compute. intuition discriminate.
  - apply (@S 7%nat _ "bouncy" eq_refl eq_refl eq_refl). vm_compute. intuition discriminate.
  - apply (@S 7%nat _ "bounce" eq_refl eq_refl eq_refl). vm_compute. intuition discriminate.
  - apply (@S 7%nat _ "bounce" eq_refl eq_refl eq_refl). vm_compute. intuition discriminate.
  - apply (@S 7%nat _ "bounce" eq_refl eq_refl eq_refl). vm_compute. intuition discriminate.
Qed.

Lemma shadowed_keywords_witness :
  exists md,
    fst (apply_master_prompt Example.no_random 0 "SUPER bouncy!" "match_0" init) = Some md
    /\ PhysicsModification.description md <> "Super Bouncy".
Proof.
  destruct (fst (apply_master_prompt Example.no_random 0 "SUPER bouncy!" "match_0" init))
    as [md|] eqn:E; [|vm_compute in E; discriminate].
  exists md. split; [reflexivity|].
  apply (@shadowed_keywords Example.no_random 0 "SUPER bouncy!" "match_0" init
           "super bouncy" "Super Bouncy" md); [simpl; auto | reflexivity | exact E].
Defined.

End KeywordFacts.

(** ** The weapon generator beyond the stat ranges *)

Module GeneratorFacts.
Import WeaponGenerator.
Local Open Scope Z_scope.

Lemma length_lower s : String.length (PyStr.lower s) = String.length s.
Proof. induction s; simpl; congruence. Qed.

Lemma template_score_nonneg prompt t : 0 <= template_score prompt t.
Proof. unfold template_score, count_true. lia. Qed.

(** The loop of [_find_best_template] over any list of templates: either
    no template beats the starting score, or the result is the first
    template of maximal score. *)
Lemma best_step_fold prompt l : forall b o,
  (fold_left (best_step prompt) l (b, o) = (b, o)
   /\ forall t, In t l -> template_score prompt t <= b)
  \/ exists t,
       fold_left (best_step prompt) l (b, o) = (template_score prompt t, Some t)
       /\ b < template_score prompt t
       /\ Spec.first_max (template_score prompt) l t.
Proof.
  induction l as [|x l IH]; intros b o; cbn [fold_left].
  - left. split; [reflexivity | intros t []].
  - assert (B : best_step prompt (b, o) x
                = if b <? template_score prompt x
                  then (template_score prompt x, Some x) else (b, o)) by reflexivity.
    rewrite B. clear B.
    destruct (b <? template_score prompt x) eqn:E.
    + apply Z.ltb_lt in E. right.
      destruct (IH (template_score prompt x) (Some x)) as [[F A] | (t & F & L & l1 & l2 & El & B1 & B2)].
      * exists x. split; [exact F|]. split; [exact E|].
        exists [], l. split; [reflexivity|]. split; [intros a []|exact A].
      * exists t. split; [exact F|]. split; [lia|].
        exists (x :: l1), l2. split; [now rewrite El|]. split; [|exact B2].
        intros a [<-|Ha]; [exact L | now apply B1].
    + apply Z.ltb_ge in E.
      destruct (IH b o) as [[F A] | (t & F & L & l1 & l2 & El & B1 & B2)].
      * left. split; [exact F|]. intros t [<-|Ht]; [exact E | now apply A].
      * right. exists t. split; [exact F|]. split; [exact L|].
        exists (x :: l1), l2. split; [now rewrite El|]. split; [|exact B2].
        intros a [<-|Ha]; [lia | now apply B1].
Qed.

(** X7. [_find_best_template] returns the template with the highest
    matching score, the first one in library order when several share it;
    when no template matches at all that is the first template, Fire
    Sword. *)
Theorem find_best_template_first_max prompt :
  Spec.first_max (template_score prompt) weapon_templates (_find_best_template prompt)
  /\ ((forall t, In t weapon_templates -> template_score prompt t = 0) ->
      t_name (_find_best_template prompt) = "Fire Sword"%string).
Proof.
  unfold _find_best_template.
  destruct (best_step_fold prompt weapon_templates 0 None)
    as [[F A] | (t & F & L & M)]; rewrite F.
  - split.
    + exists [], (tl weapon_templates). split; [reflexivity|]. split; [intros a []|].
      intros a Ha. assert (In a weapon_templates) by now right.
      pose proof (A a H). pose proof (template_score_nonneg prompt first_template). lia.
    + reflexivity.
  - apply Z.ltb_lt in L. rewrite L. split; [exact M|].
    intro Z0. destruct M as (l1 & l2 & El & _).
    assert (In t weapon_templates) by (rewrite El; apply in_or_app; right; now left).
    apply Z.ltb_lt in L. rewrite (Z0 t H) in L. lia.
Qed.

Section Generator.
Variable hash : string -> Z.
Variable md5 : string -> string.
Variable _generate_weapon_sprite : string -> WeaponCategory -> string.
Variable _get_default_sprite : string.

Lemma templates_damage_speed :
  Forall (fun t => 15 <= WeaponProperties.damage (t_properties t) <= 85
                   /\ 20 <= WeaponProperties.speed (t_properties t) <= 95)
         weapon_templates.
Proof. repeat constructor; simpl; lia. Qed.

(** X8. A weapon made from a template is the best-matching template with
    its damage and its speed each moved by at most 10; category, range,
    ammo, cooldown and special effect are the template's, and the weapon
    belongs to the requesting player. *)
Theorem template_weapon_variation now fresh_id prompt pid :
  exists w,
    _generate_from_template hash _get_default_sprite now fresh_id prompt pid = Some w
    /\ let t := _find_best_template prompt in
       let p := Weapon.properties w in
       let tp := t_properties t in
       Weapon.category w = t_category t
       /\ Z.abs (WeaponProperties.damage p - WeaponProperties.damage tp) <= 10
       /\ Z.abs (WeaponProperties.speed p - WeaponProperties.speed tp) <= 10
       /\ WeaponProperties.range p = WeaponProperties.range tp
       /\ WeaponProperties.ammo p = WeaponProperties.ammo tp
       /\ WeaponProperties.cooldown p = WeaponProperties.cooldown tp
       /\ WeaponProperties.special_effect p = WeaponProperties.special_effect tp
       /\ Weapon.player_id w = pid.
Proof.
  eexists. split; [reflexivity|]. cbv zeta. cbn.
  pose proof (BalanceFacts.find_best_template_In prompt) as I.
  pose proof templates_damage_speed as T. rewrite Forall_forall in T.
  destruct (T _ I) as (Hd & Hs).
  pose proof (Z.mod_pos_bound (hash prompt) 20 ltac:(lia)) as Hv.
  unfold clamp. repeat split; lia.
Qed.


Lemma generate_weapon_blank now fresh_id ai prompt pid mid cache w cache' :
  generate_weapon hash md5 _generate_weapon_sprite _get_default_sprite
    now fresh_id ai prompt pid mid cache = (Some w, cache') ->
  String.length (PyStr.strip prompt) <> 0%nat.
Proof.
  unfold generate_weapon.
  destruct (String.length (PyStr.strip prompt) =? 0)%nat eqn:E; [discriminate|].
  intros _. now apply Nat.eqb_neq.
Qed.

(** X9. The cache of the generator: once a prompt has produced a weapon,
    every later request whose prompt is the same up to case and surrounding
    blanks, from whichever player and whatever the model would answer,
    gets the same name, category, stats, sprite and balance score, handed
    out under the new id for the requesting player; the cache is left as it
    is. *)
Theorem generate_weapon_cached now fresh_id ai prompt pid mid cache w cache'
    now2 fresh_id2 ai2 prompt2 pid2 mid2 :
  generate_weapon hash md5 _generate_weapon_sprite _get_default_sprite
    now fresh_id ai prompt pid mid cache = (Some w, cache') ->
  PyStr.lower (PyStr.strip prompt2) = PyStr.lower (PyStr.strip prompt) ->
  generate_weapon hash md5 _generate_weapon_sprite _get_default_sprite
    now2 fresh_id2 ai2 prompt2 pid2 mid2 cache'
  = (Some (Generated.reissued fresh_id2 pid2 now2 w), cache').
Proof.
  intros H E. pose proof (generate_weapon_blank _ _ _ _ _ _ _ H) as NB.
  assert (NB2 : (String.length (PyStr.strip prompt2) =? 0)%nat = false).
  { apply Nat.eqb_neq. rewrite <- (length_lower (PyStr.strip prompt2)), E, length_lower.
    exact NB. }
  unfold generate_weapon in *. rewrite NB2, E.
  apply Nat.eqb_neq in NB. rewrite NB in H.
  destruct (Dict.get (md5 (PyStr.lower (PyStr.strip prompt))) cache) as [c|] eqn:G.
  - inversion H. subst. rewrite G. reflexivity.
  - destruct (match _generate_with_ai _ _ _ _ _ _ with Some w1 => Some w1 | None => _ end)
      as [w0|]; [|discriminate].
    inversion H. subst. rewrite DictFacts.get_set_same. reflexivity.
Qed.

(** X10. [generate_weapon] refuses exactly the blank prompts, without
    touching its cache; for every other prompt it returns a weapon, and
    that weapon carries the new id, the requesting player and the current
    time, whether it was built from the model's answer, from a template or
    from the cache. *)
Theorem generate_weapon_result now fresh_id ai prompt pid mid cache :
  (String.length (PyStr.strip prompt) = 0%nat ->
   generate_weapon hash md5 _generate_weapon_sprite _get_default_sprite
     now fresh_id ai prompt pid mid cache = (None, cache))
  /\ (String.length (PyStr.strip prompt) <> 0%nat ->
      exists w,
        fst (generate_weapon hash md5 _generate_weapon_sprite _get_default_sprite
               now fresh_id ai prompt pid mid cache) = Some w
        /\ Weapon.id w = fresh_id
        /\ Weapon.player_id w = pid
        /\ Weapon.generated_at w = now).
Proof.
  unfold generate_weapon. split; intro H.
  - now rewrite H.
  - apply Nat.eqb_neq in H. rewrite H.
    destruct (Dict.get _ cache) as [c|]; [eexists; repeat split|].
    unfold _generate_with_ai, _generate_from_template.
    destruct ai as [d|]; eexists; repeat split.
Qed.

(** X11. The balance score a generated weapon carries is the score of the
    stats it carries -- after a nerf it is the score of the nerfed stats --
    and lies between 0 and 100; a cache that holds only such weapons keeps
    holding only such weapons. *)
Theorem generate_weapon_scored now fresh_id ai prompt pid mid cache w cache' :
  Generated.cache_scored cache ->
  generate_weapon hash md5 _generate_weapon_sprite _get_default_sprite
    now fresh_id ai prompt pid mid cache = (Some w, cache') ->
  Generated.scored w
  /\ (0 <= Weapon.balance_score w <= 100)%Q
  /\ Generated.cache_scored cache'.
Proof.
  intros Hc H.
  assert (R : forall p, (0 <= _calculate_balance_score p <= 100)%Q).
  { intro p. unfold _calculate_balance_score, py_Qmin, py_Qmax.
    set (raw := (power_score p * effect_multiplier (WeaponProperties.special_effect p)
                 * 100)%Q).
    destruct (Num.Qltb 0 raw) eqn:E0.
    - destruct (Num.Qltb raw 100) eqn:E1.
      + apply NumFacts.Qltb_lt in E0, E1. split; lra.
      + split; lra.
    - change (Num.Qltb 0 100) with true. cbv iota. split; lra. }
  assert (S : Generated.scored w /\ Generated.cache_scored cache').
  { unfold generate_weapon in H.
    destruct (String.length (PyStr.strip prompt) =? 0)%nat; [discriminate|].
    destruct (Dict.get _ cache) as [c|] eqn:G.
    - inversion H. subst. split; [|exact Hc].
      apply (Hc c). eapply DictFacts.get_values. exact G.
    - assert (K : forall w0,
                match _generate_with_ai _generate_weapon_sprite now fresh_id ai
                        (PyStr.lower (PyStr.strip prompt)) pid with
                | Some w1 => Some w1
                | None => _generate_from_template hash _get_default_sprite now fresh_id
                            (PyStr.lower (PyStr.strip prompt)) pid
                end = Some w0 -> Generated.scored w0).
      { intros w0. unfold _generate_with_ai, _generate_from_template.
        destruct ai as [d|]; intro E; inversion E; unfold Generated.scored;
          cbn [Weapon.balance_score Weapon.properties]; [|reflexivity].
        destruct (Num.Qltb 80 _); reflexivity. }
      destruct (match _generate_with_ai _ _ _ _ _ _ with Some w1 => Some w1 | None => _ end)
        as [w0|]; [|discriminate].
      inversion H. subst. split; [now apply K|].
      intros x Hx. apply DictFacts.In_values_set in Hx as [-> | Hx]; [|now apply Hc].
      apply (K w eq_refl). }
  destruct S as [S1 S2]. split; [exact S1|]. split; [|exact S2].
  rewrite S1. apply R.
Qed.

End Generator.

Lemma generate_weapon_cached_witness :
  fst (generate_weapon Example.hash0 Example.md50 Example.sprite0 Example.default_sprite0
         200 "w-2" (Some Example.strongest) "  FIRE Sword " "bob" "match_0"
         (snd (generate_weapon Example.hash0 Example.md50 Example.sprite0
                 Example.default_sprite0 100 "w-1" None "fire sword" "alice" "match_0" [])))
  = option_map (Generated.reissued "w-2" "bob" 200) (Example.generate None "fire sword").
Proof.
  unfold Example.generate.
  destruct (generate_weapon Example.hash0 Example.md50 Example.sprite0
              Example.default_sprite0 100 "w-1" None "fire sword" "alice" "match_0" [])
    as [[w|] c] eqn:G; [|vm_compute in G; discriminate].
  cbn [fst snd option_map].
  rewrite (@generate_weapon_cached Example.hash0 Example.md50 Example.sprite0
             Example.default_sprite0 100 "w-1" None "fire sword" "alice" "match_0" [] w c
             200 "w-2" (Some Example.strongest) "  FIRE Sword " "bob" "match_0" G eq_refl).
  reflexivity.
Defined.

Lemma generate_weapon_scored_witness :
  exists w, Example.generate (Some Example.strongest) "mega bomb" = Some w
            /\ Generated.scored w.
Proof.
  unfold Example.generate.
  destruct (generate_weapon Example.hash0 Example.md50 Example.sprite0
              Example.default_sprite0 100 "w-1" (Some Example.strongest) "mega bomb"
              "alice" "match_0" []) as [[w|] c] eqn:G; [|vm_compute in G; discriminate].
  exists w. split; [reflexivity|].
  now destruct (@generate_weapon_scored Example.hash0 Example.md50 Example.sprite0
             Example.default_sprite0 100 "w-1" (Some Example.strongest) "mega bomb"
                  "alice" "match_0" [] w c (fun _ (F : In _ []) => match F with end) G).
Defined.






End GeneratorFacts.

(** ** The methods of the match manager, one by one *)

Module ManagerFacts.
Import MatchManager.
Local Open Scope list_scope.

Lemma py_Qmax_spec a b : (a <= py_Qmax a b /\ b <= py_Qmax a b
                          /\ (py_Qmax a b == a \/ py_Qmax a b == b))%Q.
Proof.
  unfold py_Qmax. destruct (Num.Qltb a b) eqn:E.
  - apply NumFacts.Qltb_lt in E. repeat split; try lra; try (right; reflexivity).
  - apply NumFacts.Qltb_ge in E. repeat split; try lra; try (left; reflexivity).
Qed.

Lemma py_Qmin_spec a b : (py_Qmin a b <= a /\ py_Qmin a b <= b
                          /\ (py_Qmin a b == a \/ py_Qmin a b == b))%Q.
Proof.
  unfold py_Qmin. destruct (Num.Qltb b a) eqn:E.
  - apply NumFacts.Qltb_lt in E. repeat split; try lra; try (right; reflexivity).
  - apply NumFacts.Qltb_ge in E. repeat split; try lra; try (left; reflexivity).
Qed.

Lemma move_player_inside ph input p : Arena.holds_player (move_player ph input p).
Proof.
  unfold Arena.holds_player, move_player. cbv zeta.
  cbn [PlayerState.position PlayerState.set_position x y].
  unfold arena_width, arena_height.
  match goal with
  | |- (_ <= py_Qmax 16 (py_Qmin ?a ?b) <= _)%Q /\ (_ <= py_Qmax 16 (py_Qmin ?c ?d) <= _)%Q =>
      pose proof (py_Qmax_spec 16 (py_Qmin a b)) as (X1 & X2 & X3);
      pose proof (py_Qmin_spec a b) as (X4 & X5 & X6);
      pose proof (py_Qmax_spec 16 (py_Qmin c d)) as (Y1 & Y2 & Y3);
      pose proof (py_Qmin_spec c d) as (Y4 & Y5 & Y6);
      assert (G : (d <= 500)%Q)
  end.
  { match goal with |- ((if ?c then _ else _) <= _)%Q => destruct c eqn:E end;
      [lra | apply NumFacts.Qltb_ge in E; exact E]. }
  split; split; try assumption.
  - destruct X3 as [X3|X3]; rewrite X3; lra.
  - destruct Y3 as [Y3|Y3]; rewrite Y3; lra.
Qed.

(** X13. Whatever the input, the physics and the place the player was in,
    the movement step of [handle_player_input] leaves the player inside
    the arena -- between 16 and 1184 across, between 16 and the ground line
    500 down -- and changes nothing but position and velocity. *)
Theorem move_player_stays_inside ph input p :
  Arena.holds_player (move_player ph input p)
  /\ PlayerState.id (move_player ph input p) = PlayerState.id p
  /\ PlayerState.health (move_player ph input p) = PlayerState.health p
  /\ PlayerState.is_alive (move_player ph input p) = PlayerState.is_alive p
  /\ PlayerState.weapons (move_player ph input p) = PlayerState.weapons p
  /\ PlayerState.weapon_cooldown (move_player ph input p) = PlayerState.weapon_cooldown p
  /\ PlayerState.kills (move_player ph input p) = PlayerState.kills p
  /\ PlayerState.deaths (move_player ph input p) = PlayerState.deaths p.
Proof. split; [apply move_player_inside | repeat split]. Qed.

Lemma flat_map_option_length (A B : Type) (f : A -> option B) l :
  (length (flat_map (fun a => match f a with Some b => [b] | None => [] end) l)
   <= length l)%nat.
Proof.
  induction l as [|a l IH]; simpl; [lia|].
  destruct (f a); simpl; lia.
Qed.

(** X14. After [_update_projectiles] every projectile of the match is
    inside the arena and was not expired, and is one of the projectiles
    the match had, moved: same id, weapon, owner, damage and lifetime. No
    projectile is added, and the players are not touched. *)
Theorem update_projectiles_survivors now m eng :
  let m' := fst (_update_projectiles now m eng) in
  (forall pr', In pr' (MatchState.projectiles m') ->
     Arena.holds_projectile pr'
     /\ exists pr, In pr (MatchState.projectiles m)
          /\ (now <= Projectile.expires_at pr)%Q
          /\ Projectile.id pr' = Projectile.id pr
          /\ Projectile.weapon_id pr' = Projectile.weapon_id pr
          /\ Projectile.player_id pr' = Projectile.player_id pr
          /\ Projectile.damage pr' = Projectile.damage pr
          /\ Projectile.created_at pr' = Projectile.created_at pr
          /\ Projectile.expires_at pr' = Projectile.expires_at pr)
  /\ (length (MatchState.projectiles m') <= length (MatchState.projectiles m))%nat
  /\ MatchState.players m' = MatchState.players m.
Proof.
  unfold _update_projectiles.
  destruct (PhysicsEngine.calculate_current_physics now (MatchState.id m) eng) as [ph e1].
  cbn [fst MatchState.projectiles MatchState.set_projectiles MatchState.players].
  split; [|split; [apply flat_map_option_length | reflexivity]].
  intros pr' H. apply in_flat_map in H as (pr & Hin & H).
  destruct (advance_projectile now ph pr) as [q|] eqn:E; [|destruct H].
  destruct H as [<-|[]]. unfold advance_projectile in E.
  destruct (Projectile.is_expired now pr) eqn:X; [discriminate|].
  match type of E with (if ?c then _ else _) = _ => destruct c eqn:B end; [|discriminate].
  inversion E. clear E. subst q.
  apply andb_true_iff in B as [B B4]. apply andb_true_iff in B as [B B3].
  apply andb_true_iff in B as [B1 B2].
  apply Qle_bool_iff in B1, B2, B3, B4.
  split; [split; split; assumption|].
  exists pr. split; [exact Hin|]. split; [|repeat split].
  unfold Projectile.is_expired in X. now apply NumFacts.Qltb_ge in X.
Qed.

Lemma find_filter_neg (A : Type) (p : A -> bool) l :
  find p (filter (fun a => negb (p a)) l) = None.
Proof.
  induction l as [|a l IH]; simpl; trivial.
  destruct (p a) eqn:E; simpl; [exact IH | now rewrite E].
Qed.

(** X15. [remove_player] takes the player out: afterwards the player is
    mapped to no match and is not among the players of the match the
    mapping named; a player who is mapped to no match is ignored, so
    removing a player a second time changes nothing. *)
Theorem remove_player_removes now pid mm :
  let mm' := remove_player now pid mm in
  Dict.get pid (player_match_map mm') = None
  /\ (forall k m', Dict.get pid (player_match_map mm) = Some k ->
        Dict.get k (matches mm') = Some m' -> player_of pid m' = None)
  /\ (Dict.get pid (player_match_map mm) = None -> mm' = mm)
  /\ (forall now', remove_player now' pid mm' = mm').
Proof.
  intro mm'.
  assert (G : Dict.get pid (player_match_map mm') = None).
  { unfold mm', remove_player.
    destruct (Dict.get pid (player_match_map mm)) as [k|] eqn:E; [|exact E].
    cbn [player_match_map set_player_match_map]. apply DictFacts.get_del_same. }
  split; [exact G|]. split; [|split].
  - intros k m' Hk Hm'. unfold mm' in Hm'.
    rewrite EffectFacts.remove_player_effect, Hk, String.eqb_refl in Hm'.
    destruct (Dict.get k (matches mm)) as [m|]; [|discriminate].
    injection Hm' as <-. unfold player_of.
    assert (L : MatchState.players
                  (if abandoned (leave pid m)
                   then fst (_end_match now (leave pid m) (physics_engine mm))
                   else leave pid m)
                = filter (fun p => negb (has_id pid p)) (MatchState.players m)).
    { destruct (abandoned (leave pid m)); [|reflexivity].
      destruct (CombatFacts.end_match_spec now (leave pid m) (physics_engine mm))
        as [E _]. exact E. }
    exact (eq_trans (f_equal (find (has_id pid)) L) (find_filter_neg _ _)).
  - intro E. unfold mm', remove_player. now rewrite E.
  - intro now'. unfold remove_player at 1. now rewrite G.
Qed.

Lemma get_unmapped pid ps : forall d : Dict.t string,
  Dict.get pid (fold_left (fun pmm p => Dict.del (PlayerState.id p) pmm) ps d)
  = if existsb (has_id pid) ps then None else Dict.get pid d.
Proof.
  induction ps as [|p ps IH]; intro d; simpl; trivial.
  rewrite IH, DictFacts.get_del. unfold has_id at 2.
  destruct (String.eqb (PlayerState.id p) pid); simpl; trivial.
  now destruct (existsb (has_id pid) ps).
Qed.

(** X16. [_cleanup_match] forgets a stored match completely: the match is
    gone, every player it held is mapped to no match, and its physics
    modifications are dropped; every other match and the mapping of every
    other player are as they were. *)
Theorem cleanup_match_forgets k mm m :
  Dict.get k (matches mm) = Some m ->
  let mm' := _cleanup_match k mm in
  Dict.get k (matches mm') = None
  /\ (forall k', k' <> k -> Dict.get k' (matches mm') = Dict.get k' (matches mm))
  /\ (forall p, In p (MatchState.players m) ->
        Dict.get (PlayerState.id p) (player_match_map mm') = None)
  /\ (forall pid, (forall p, In p (MatchState.players m) -> PlayerState.id p <> pid) ->
        Dict.get pid (player_match_map mm') = Dict.get pid (player_match_map mm))
  /\ PhysicsEngine.mods_of k (physics_engine mm') = []
  /\ (forall k', k' <> k ->
        PhysicsEngine.mods_of k' (physics_engine mm')
        = PhysicsEngine.mods_of k' (physics_engine mm)).
Proof.
  intros Hm mm'. unfold mm', _cleanup_match. rewrite Hm.
  cbn [matches player_match_map physics_engine].
  split; [apply DictFacts.get_del_same|].
  split; [intros k' N; apply DictFacts.get_del_other; congruence|].
  split; [|split; [|split]].
  - intros p Hp. rewrite get_unmapped.
    assert (E : existsb (has_id (PlayerState.id p)) (MatchState.players m) = true).
    { apply existsb_exists. exists p. split; trivial. apply String.eqb_refl. }
    now rewrite E.
  - intros pid H. rewrite get_unmapped.
    destruct (existsb (has_id pid) (MatchState.players m)) eqn:E; trivial.
    apply existsb_exists in E as (p & Hp & Hid). apply String.eqb_eq in Hid.
    exfalso. exact (H p Hp Hid).
  - unfold PhysicsEngine.mods_of, Dict.get_default, PhysicsEngine.remove_match_modifications.
    cbn [PhysicsEngine.active_modifications]. now rewrite DictFacts.get_del_same.
  - intros k' N. unfold PhysicsEngine.mods_of, Dict.get_default,
      PhysicsEngine.remove_match_modifications.
    cbn [PhysicsEngine.active_modifications].
    rewrite DictFacts.get_del_other; trivial. congruence.
Qed.

(** X17. Input and weapon use are ignored -- the manager is left exactly as
    it is -- when the match is not stored or not ACTIVE, or when the player
    is not in it or is dead; weapon use is also ignored when the player
    does not hold the weapon. *)
Theorem requests_ignored sqrt now k pid mm :
  (Arena.cannot_act k pid mm ->
   (forall input, handle_player_input now k pid input mm = mm)
   /\ (forall wid target, use_weapon sqrt now k pid wid target mm = mm))
  /\ (forall wid target,
        (forall p, get_player_state k pid mm = Some p -> find_weapon wid p = None) ->
        use_weapon sqrt now k pid wid target mm = mm).
Proof.
  split.
  - unfold Arena.cannot_act, handle_player_input, use_weapon. intro H.
    destruct (Dict.get k (matches mm)) as [m|]; [|split; reflexivity].
    destruct H as [H|H].
    + assert (E : MatchStatus_eqb (MatchState.status m) ACTIVE = false)
        by (destruct (MatchState.status m); trivial; congruence).
      rewrite E. split; reflexivity.
    + destruct (negb _); [split; reflexivity|].
      destruct (player_of pid m) as [p|]; [|split; reflexivity].
      rewrite H. split; reflexivity.
  - intros wid target H. unfold use_weapon, get_player_state, get_match in *.
    destruct (Dict.get k (matches mm)) as [m|]; trivial.
    destruct (negb _); trivial.
    destruct (player_of pid m) as [p|]; trivial.
    destruct (negb _); trivial. now rewrite (H p eq_refl).
Qed.

Lemma cleanup_match_forgets_witness :
  Dict.get "alice" (player_match_map (_cleanup_match "match_0" Example.armed)) = None.
Proof.
  pose proof (@cleanup_match_forgets "match_0" Example.armed Example.armed_duel eq_refl)
    as H.
  cbv zeta in H. destruct H as (_ & _ & H & _).
  apply (H Example.alice_armed). now left.
Defined.

End ManagerFacts.

(** ** What every stored match satisfies *)

Module EvolutionFacts.
Import MatchManager Server EffectFacts ServerFacts Evolution.
Local Open Scope list_scope.

(** *** Players *)

Lemma take_damage_position dmg p :
  PlayerState.position (take_damage dmg p) = PlayerState.position p.
Proof. unfold take_damage. simpl. now destruct (_ <=? 0)%Z. Qed.

Lemma touched_sound p p' : touched p p' -> player_sound p -> player_sound p'.
Proof.
  intro T. induction T as [p|a b c _ IH1 _ IH2|dmg p Ha|k p|v p|ph input p|v w p];
    intro S; [exact S | exact (IH2 (IH1 S)) | | exact S | exact S | | exact S].
  - destruct S as [Hin Hal]. split.
    + unfold Arena.holds_player. rewrite take_damage_position. exact Hin.
    + destruct (HitFacts.take_damage_spec dmg p) as (_ & Hh & _ & Hdead & Hlive).
      destruct (Z_le_gt_dec (PlayerState.health (take_damage dmg p)) 0) as [L|L].
      * destruct (Hdead L) as [D _]. rewrite D. split; [discriminate | lia].
      * destruct (Hlive ltac:(lia)) as [D _]. rewrite D, Ha. split; [lia | reflexivity].
  - destruct S as [Hin Hal]. split; [apply ManagerFacts.move_player_inside | exact Hal].
Qed.

Lemma touched_players l l' :
  Forall2 touched l l' -> Forall player_sound l -> Forall player_sound l'.
Proof.
  intro H. induction H as [|p p' l l' T _ IH]; intro F; [constructor|].
  inversion F; subst. constructor; [eapply touched_sound; eassumption | auto].
Qed.

Lemma Forall2_length (A : Type) (R : A -> A -> Prop) l l' :
  Forall2 R l l' -> length l' = length l.
Proof. intro H. induction H; simpl; congruence. Qed.

Lemma created_sound pid name pos :
  pos = mkVec2 200 500 \/ pos = mkVec2 1000 500 ->
  player_sound (PlayerState.create pid name pos).
Proof.
  intro H. split.
  - unfold Arena.holds_player. destruct H as [-> | ->]; simpl; split; split; lra.
  - simpl. split; [lia | reflexivity].
Qed.

Lemma reset_sound p : Arena.holds_player p -> player_sound (reset_player p).
Proof. intro H. split; [exact H|]. simpl. split; [lia | reflexivity]. Qed.

Lemma placed_inside l :
  Forall player_sound l -> Forall Arena.holds_player (place_players l).
Proof.
  intro F. assert (G : Forall Arena.holds_player l).
  { eapply Forall_impl; [|exact F]. now intros a [H _]. }
  destruct l as [|p0 [|p1 rest]]; trivial.
  inversion G as [|? ? _ G1]; subst. inversion G1 as [|? ? _ G2]; subst.
  simpl. constructor; [|constructor; [|exact G2]];
    unfold Arena.holds_player; simpl; split; split; lra.
Qed.

Lemma length_place l : length (place_players l) = length l.
Proof. destruct l as [|p0 [|p1 rest]]; reflexivity. Qed.

(** *** One match *)

Lemma header_refl m : header_step m m.
Proof. repeat split. now left. Qed.

Lemma header_trans a b c : header_step a b -> header_step b c -> header_step a c.
Proof.
  intros (I1 & T1 & S1) (I2 & T2 & S2). split; [congruence|]. split; [congruence|].
  destruct S1 as [S1|[S1 S1']]; destruct S2 as [S2|[S2 S2']];
    [left; congruence | right; split; congruence | right; split; congruence
    | right; split; congruence].
Qed.

Lemma tick_header now m eng :
  MatchState.status m = ACTIVE -> header_step m (fst (tick_active now m eng)).
Proof.
  intro S. unfold tick_active.
  destruct (CombatFacts.update_projectiles_spec now m eng) as (F1 & _).
  destruct (_update_projectiles now m eng) as [m1 e1]. simpl in F1.
  destruct (CombatFacts.check_collisions_frame_gen now (MatchState.projectiles m1) m1 e1)
    as (F2 & _).
  fold (_check_collisions now m1 e1) in F2.
  destruct (_check_collisions now m1 e1) as [m2 e2]. simpl in F2.
  pose proof (CombatFacts.same_frame_trans F1 F2) as (Hid & Hst & Hs & _).
  destruct (MatchState.is_finished now m2).
  - destruct (CombatFacts.end_match_spec now m2 e2) as (_ & _ & Hi & Hstat & Hstart & _).
    split; [congruence|]. split; [congruence|]. right. split; [exact S | exact Hstat].
  - cbn [fst]. split; [exact Hid|]. split; [exact Hs|]. left. exact Hst.
Qed.

Lemma fire_header sqrt now pid player weapon target ph m :
  header_step m (fire sqrt now pid player weapon target ph m).
Proof.
  unfold header_step, fire, _create_projectile, _create_area_effect.
  destruct (Weapon.category weapon); simpl; auto; destruct target; simpl; auto.
  - destruct (Qeq_bool _ 0); auto. destruct (_ =? 0)%Z; auto.
  - destruct (Qeq_bool _ 0); auto. destruct (_ =? 0)%Z; auto.
Qed.

Lemma evolved_sound mid m m' : sound mid m -> evolved m m' -> sound mid m'.
Proof.
  intros (Hid & Hlen & Hact & Hwait & Hst & Hpl)
         [[(I & T & S) F] | [(pid & A & ->) | [(now & pid & eng & A & ->)
           | [(pid & J & ->) | (now & m1 & M1 & L & ->)]]]].
  - (* in place *)
    pose proof (Forall2_length F) as Len.
    split; [congruence|]. split; [lia|]. split; [|split; [|split]].
    + intro E. rewrite Len. apply Hact. destruct S as [S|[_ S]]; congruence.
    + intro E. rewrite T. apply Hwait. destruct S as [S|[_ S]]; congruence.
    + destruct S as [S|[_ S]]; rewrite S; auto.
    + eapply touched_players; eassumption.
  - (* a player left *)
    assert (Len : (length (MatchState.players (leave pid m))
                   <= length (MatchState.players m))%nat)
      by (unfold leave; simpl; apply filter_length_le).
    split; [exact Hid|]. split; [lia|]. split; [|split; [|split]].
    + intro E. change (MatchState.status m = ACTIVE) in E.
      unfold abandoned in A. change (MatchState.status (leave pid m))
        with (MatchState.status m) in A. rewrite E in A.
      cbn [MatchStatus_eqb] in A.
      rewrite andb_true_r in A. apply Nat.ltb_ge in A. specialize (Hact E). lia.
    + exact Hwait.
    + exact Hst.
    + unfold leave. simpl. apply Forall_forall. intros p Hp.
      apply filter_In in Hp as [Hp _]. rewrite Forall_forall in Hpl. now apply Hpl.
  - (* a player left and the match was ended *)
    destruct (CombatFacts.end_match_spec now (leave pid m) eng)
      as (Hp & _ & Hi & Hs & _).
    assert (Len : (length (MatchState.players (leave pid m))
                   <= length (MatchState.players m))%nat)
      by (unfold leave; simpl; apply filter_length_le).
    split; [rewrite Hi; exact Hid|]. rewrite Hp. split; [lia|].
    rewrite Hs. split; [discriminate|]. split; [discriminate|]. split; [auto|].
    unfold leave. simpl. apply Forall_forall. intros p Hq.
    apply filter_In in Hq as [Hq _]. rewrite Forall_forall in Hpl. now apply Hpl.
  - (* a player joined *)
    unfold joinable in J. apply andb_true_iff in J as [J1 J2].
    apply MatchStatus_eqb_eq in J1. apply Nat.ltb_lt in J2.
    split; [exact Hid|]. unfold join. simpl. rewrite length_app. simpl.
    split; [lia|]. split; [congruence|]. split; [exact Hwait|]. split; [exact Hst|].
    apply Forall_app. split; [exact Hpl|]. constructor; [|constructor].
    apply created_sound. now right.
  - (* the match was started *)
    assert (S1 : MatchState.id m1 = mid
                 /\ (length (MatchState.players m1) <= 2)%nat
                 /\ Forall player_sound (MatchState.players m1)).
    { destruct M1 as [-> | (pid & J & ->)]; [auto|].
      unfold joinable in J. apply andb_true_iff in J as [_ J2]. apply Nat.ltb_lt in J2.
      split; [exact Hid|]. unfold join. simpl. rewrite length_app. simpl.
      split; [lia|]. apply Forall_app. split; [exact Hpl|].
      constructor; [|constructor]. apply created_sound. now right. }
    destruct S1 as (I1 & L1 & P1).
    split; [exact I1|]. unfold started. simpl. rewrite length_map, length_place.
    split; [exact L1|]. split; [intros _; lia|]. split; [discriminate|].
    split; [auto|]. apply Forall_forall. intros p Hp.
    apply in_map_iff in Hp as (q & <- & Hq). apply reset_sound.
    pose proof (placed_inside P1) as PI. rewrite Forall_forall in PI. now apply PI.
Qed.

Lemma opened_sound mid m' : opened mid m' -> sound mid m'.
Proof.
  intros (pid & ->). split; [reflexivity|]. simpl.
  split; [lia|]. split; [discriminate|]. split; [reflexivity|]. split; [auto|].
  constructor; [|constructor]. apply created_sound. now left.
Qed.

(** *** The keys of the dictionary of matches *)

Lemma In_keys_set (V : Type) k (v : V) d a :
  In a (Dict.keys (Dict.set k v d)) -> a = k \/ In a (Dict.keys d).
Proof.
  induction d as [|[k' v'] d IH]; simpl.
  - intros [H|[]]. now left.
  - destruct (String.eqb k k'); simpl; [auto|].
    intros [H|H]; [auto|]. destruct (IH H); auto.
Qed.

Lemma NoDup_set (V : Type) k (v : V) d :
  NoDup (Dict.keys d) -> NoDup (Dict.keys (Dict.set k v d)).
Proof.
  induction d as [|[k' v'] d IH]; simpl; intro N.
  - constructor; [intros []|constructor].
  - inversion N as [|? ? N1 N2]. subst.
    destruct (String.eqb k k') eqn:E; simpl; [exact N|].
    constructor; [|now apply IH]. intro H. apply In_keys_set in H as [H|H]; [|contradiction].
    subst k'. now rewrite String.eqb_refl in E.
Qed.

Lemma NoDup_del (V : Type) k (d : Dict.t V) :
  NoDup (Dict.keys d) -> NoDup (Dict.keys (Dict.del k d)).
Proof.
  induction d as [|[k' v'] d IH]; simpl; intro N; [constructor|].
  inversion N as [|? ? N1 N2]. subst.
  destruct (String.eqb k k'); simpl; [now apply IH|].
  constructor; [|now apply IH]. intro H. apply N1.
  clear -H. induction d as [|[k0 v0] d IH]; simpl in *; [destruct H|].
  destruct (String.eqb k k0); simpl in *; [right; auto|]. destruct H; auto.
Qed.

Lemma join_first_keys pid d m' d' :
  join_first pid d = Some (m', d') -> Dict.keys d' = Dict.keys d.
Proof.
  revert m' d'. induction d as [|[k m] d IH]; intros m' d'; simpl; [discriminate|].
  destruct (joinable m).
  - intro H. inversion H. reflexivity.
  - destruct (join_first pid d) as [[m1 d1]|]; [|discriminate].
    intro H. inversion H. simpl. f_equal. now apply (IH m1).
Qed.

Lemma find_or_create_keys now pid mm :
  keys_ok mm -> keys_ok (snd (find_or_create_match now pid mm)).
Proof.
  unfold keys_ok, find_or_create_match. intro N.
  destruct (match Dict.get pid (player_match_map mm) with
            | Some match_id => Dict.get match_id (matches mm)
            | None => None end); [exact N|].
  destruct (join_first pid (matches mm)) as [[m1 d1]|] eqn:J; simpl.
  - now rewrite (join_first_keys _ _ J).
  - now apply NoDup_set.
Qed.

Lemma start_match_keys now k mm : keys_ok mm -> keys_ok (snd (start_match now k mm)).
Proof.
  unfold keys_ok, start_match. intro N.
  destruct (Dict.get k (matches mm)); [|exact N].
  destruct (_ <? 2)%nat; [exact N|]. simpl. now apply NoDup_set.
Qed.

Lemma update_match_keys now mm k : keys_ok mm -> keys_ok (update_match now mm k).
Proof.
  unfold keys_ok, update_match. intro N.
  destruct (Dict.get k (matches mm)) as [m|] eqn:E; [|exact N].
  assert (C : NoDup (Dict.keys (matches (_cleanup_match k mm)))).
  { unfold _cleanup_match. rewrite E. simpl. now apply NoDup_del. }
  destruct (MatchState.status m); trivial.
  - destruct (MatchState.truthy _); destruct (Num.Qltb 120 _); trivial.
  - destruct (tick_active now m (physics_engine mm)). simpl. now apply NoDup_set.
  - destruct (MatchState.truthy _); trivial. destruct (Num.Qltb 300 _); trivial.
Qed.

Lemma schedule_match_keys now rnd pick mm k :
  keys_ok mm -> keys_ok (schedule_match now rnd pick mm k).
Proof.
  unfold keys_ok, schedule_match. intro N.
  destruct (Dict.get k (matches mm)) as [m|]; [|exact N].
  destruct (_ && _); [|exact N].
  destruct (PhysicsEngine.apply_master_prompt rnd now _ (MatchState.id m) _)
    as [[md|] e1]; simpl; [now apply NoDup_set | exact N].
Qed.

Lemma fold_keys (f : MatchManager.t -> string -> MatchManager.t) :
  (forall mm k, keys_ok mm -> keys_ok (f mm k)) ->
  forall ks mm, keys_ok mm -> keys_ok (fold_left f ks mm).
Proof. intros H ks. induction ks as [|k ks IH]; simpl; auto. Qed.

(** *** One operation of the server *)

Section Server.
Variable sqrt : Q -> Q.
Variable hash : string -> Z.
Variable md5 : string -> string.
Variable _generate_weapon_sprite : string -> WeaponCategory -> string.
Variable _get_default_sprite : string.

Lemma step_keys op s :
  keys_ok (match_manager s) ->
  keys_ok (match_manager
     (step sqrt hash md5 _generate_weapon_sprite _get_default_sprite op s)).
Proof.
  intro N. destruct op; cbn [step].
  - destruct (HealthFacts.handle_find_match_manager now player_id s) as [-> | (k & ->)].
    + now apply find_or_create_keys.
    + now apply start_match_keys, find_or_create_keys.
  - unfold Server.handle_player_input.
    destruct input as [input|]; trivial.
    destruct (String.length match_id =? 0)%nat; trivial.
    destruct (get_match match_id (match_manager s)); trivial.
    unfold with_manager. cbn [match_manager].
    unfold keys_ok, MatchManager.handle_player_input.
    destruct (Dict.get match_id (matches (match_manager s))); trivial.
    destruct (negb _); trivial. destruct (player_of _ _); trivial.
    destruct (negb _); trivial.
    destruct (PhysicsEngine.calculate_current_physics _ _ _). simpl. now apply NoDup_set.
  - unfold handle_weapon_generation.
    destruct (prompt_rejected _); trivial.
    destruct (get_match _ _) as [m|]; trivial.
    destruct (player_of _ _) as [p|]; trivial.
    destruct (Num.Qltb _ _); trivial.
    destruct (WeaponGenerator.generate_weapon _ _ _ _ _ _ _ _ _ _ _) as [[w|] c]; trivial.
    unfold keys_ok. simpl. now apply NoDup_set.
  - unfold handle_weapon_use. destruct (_ || _); trivial.
    unfold with_manager. cbn [match_manager]. unfold keys_ok, use_weapon.
    destruct (Dict.get match_id (matches (match_manager s))); trivial.
    destruct (negb _); trivial. destruct (player_of _ _); trivial.
    destruct (negb _); trivial. destruct (find_weapon _ _); trivial.
    destruct (PhysicsEngine.calculate_current_physics _ _ _). simpl. now apply NoDup_set.
  - unfold handle_master_prompt.
    destruct (_ =? _)%nat; trivial. destruct (get_match _ _); trivial.
    destruct (PhysicsEngine.apply_master_prompt _ _ _ _ _) as [[md|] e]; trivial.
    unfold keys_ok. simpl. now apply NoDup_set.
  - unfold handle_player_disconnect, with_manager. cbn [match_manager].
    unfold keys_ok, remove_player.
    destruct (Dict.get player_id (player_match_map (match_manager s))); trivial.
    cbn [matches set_player_match_map].
    destruct (Dict.get _ (matches (match_manager s))); trivial.
    destruct (abandoned _).
    + destruct (_end_match _ _ _). simpl. now apply NoDup_set.
    + simpl. now apply NoDup_set.
  - unfold game_loop, with_manager, update_matches. cbn [match_manager].
    apply fold_keys; trivial. intros. now apply update_match_keys.
  - unfold master_prompt_scheduler, with_manager. cbn [match_manager].
    apply fold_keys; trivial. intros. now apply schedule_match_keys.
  - unfold with_manager. cbn [match_manager]. now apply find_or_create_keys.
  - unfold with_manager. cbn [match_manager]. now apply start_match_keys.
Qed.

Lemma in_place_touched op s mid m m' :
  in_place op = true ->
  Dict.get mid (matches (match_manager s)) = Some m ->
  Dict.get mid (matches (match_manager
     (step sqrt hash md5 _generate_weapon_sprite _get_default_sprite op s))) = Some m' ->
  Forall2 touched (MatchState.players m) (MatchState.players m').
Proof.
  apply FrameFacts.in_place_rel
    with (D := fun _ => True) (G := fun _ => True) (Eph := fun _ => True)
         (Eeng := fun _ => True); auto.
  - exact touched_refl.
  - exact touched_trans.
  - intros. now apply touched_damage.
  - exact touched_kills.
  - exact touched_cooldown.
  - exact touched_move.
  - exact touched_weapon.
  - apply LifeFacts.manager_ok_trivial.
Qed.

Lemma in_place_header op s mid m m' :
  in_place op = true ->
  Dict.get mid (matches (match_manager s)) = Some m ->
  Dict.get mid (matches (match_manager
     (step sqrt hash md5 _generate_weapon_sprite _get_default_sprite op s))) = Some m' ->
  header_step m m'.
Proof.
  intros Hop Hm Hm'.
  assert (Same : Dict.get mid (matches (match_manager s)) = Some m' -> header_step m m').
  { intro E. rewrite Hm in E. inversion E. apply header_refl. }
  destruct op; try discriminate; cbn [step] in Hm'.
  - unfold Server.handle_player_input in Hm'.
    destruct input as [input|]; [|now apply Same].
    destruct (String.length match_id =? 0)%nat; [now apply Same|].
    destruct (get_match match_id (match_manager s)); [|now apply Same].
    unfold with_manager in Hm'. cbn [match_manager] in Hm'.
    destruct (handle_player_input_effect now match_id player_id input (match_manager s) mid)
      as [E | (m0 & _ & E0 & _ & E)]; rewrite E in Hm'; [now apply Same|].
    inversion Hm'. assert (m0 = m) by congruence. subst.
    unfold header_step. simpl. auto.
  - destruct (handle_weapon_generation_effect hash md5 _generate_weapon_sprite
                _get_default_sprite now now_done fresh_id ai player_id prompt match_id s mid)
      as (_ & [E | (m0 & w & _ & E0 & _ & _ & E)]); rewrite E in Hm'; [now apply Same|].
    inversion Hm'. assert (m0 = m) by congruence. subst.
    unfold header_step. simpl. auto.
  - unfold handle_weapon_use in Hm'.
    destruct (_ || _); [now apply Same|].
    unfold with_manager in Hm'. cbn [match_manager] in Hm'.
    destruct (use_weapon_effect sqrt now match_id player_id weapon_id target
                (match_manager s) mid)
      as [E | (m0 & pl & w & _ & E0 & _ & Hpl & _ & Hw & E)]; rewrite E in Hm';
      [now apply Same|].
    inversion Hm'. assert (m0 = m) by congruence. subst. apply fire_header.
  - destruct (handle_master_prompt_effect now rnd player_id prompt match_id s mid)
      as [E | (m0 & md & _ & E0 & E)]; rewrite E in Hm'; [now apply Same|].
    inversion Hm'. assert (m0 = m) by congruence. subst.
    unfold header_step. simpl. auto.
  - unfold game_loop, with_manager, update_matches in Hm'. cbn [match_manager] in Hm'.
    apply (@fold_visited (update_match now) mid header_step (fun _ => True))
      with (ks := Dict.keys (matches (match_manager s))) (mm := match_manager s); trivial.
    + exact header_trans.
    + intros. now apply update_match_local.
    + intros. now apply update_match_gone.
    + intros mm0 m0 m0' _ H0 H0'.
      pose proof (update_match_at now mm0 mid H0 H0') as A.
      destruct (MatchStatus_eqb (MatchState.status m0) ACTIVE) eqn:S; subst m0'.
      * apply tick_header. now apply MatchStatus_eqb_eq.
      * apply header_refl.
    + eapply DictFacts.get_keys; eassumption.
  - unfold master_prompt_scheduler, with_manager in Hm'. cbn [match_manager] in Hm'.
    apply (@fold_visited (schedule_match now rnd pick) mid header_step (fun _ => True))
      with (ks := Dict.keys (matches (match_manager s))) (mm := match_manager s); trivial.
    + exact header_trans.
    + intros. now apply schedule_match_local.
    + intros. now apply schedule_match_gone.
    + intros mm0 m0 m0' _ H0 H0'.
      destruct (schedule_match_at now rnd pick mm0 mid H0 H0') as [->|(md & ->)];
        unfold header_step; simpl; auto.
    + eapply DictFacts.get_keys; eassumption.
Qed.

Lemma find_or_create_shape now pid mm mid m' :
  Dict.get mid (matches (snd (find_or_create_match now pid mm))) = Some m' ->
  Dict.get mid (matches mm) = Some m'
  \/ (exists m, Dict.get mid (matches mm) = Some m /\ joinable m = true
                /\ m' = join pid m)
  \/ opened mid m'.
Proof.
  intro H.
  destruct (find_or_create_match_effect now pid mm mid)
    as [_ [E|[(m0 & E0 & J & E)|E]]]; simpl in E; rewrite E in H.
  - now left.
  - right. left. exists m0. inversion H. auto.
  - right. right. exists pid. now inversion H.
Qed.

Lemma evolved_refl m : evolved m m.
Proof.
  left. split; [apply header_refl|]. apply CombatFacts.Forall2_refl. exact touched_refl.
Qed.

(** The match stored under a key after an operation evolved from the one
    stored under it before, or was opened by the operation. *)
Lemma step_shape op s mid m' :
  Dict.get mid (matches (match_manager
     (step sqrt hash md5 _generate_weapon_sprite _get_default_sprite op s))) = Some m' ->
  (exists m, Dict.get mid (matches (match_manager s)) = Some m /\ evolved m m')
  \/ opened mid m'.
Proof.
  intro H. destruct (in_place op) eqn:Hop.
  - destruct (FrameFacts.in_place_no_creation sqrt hash md5 _generate_weapon_sprite
                _get_default_sprite op s mid Hop H) as [m Hm].
    left. exists m. split; [exact Hm|]. left. split.
    + eapply in_place_header; eassumption.
    + eapply in_place_touched; eassumption.
  - destruct op; try discriminate; cbn [step] in H.
    + (* find match *)
      destruct (HealthFacts.handle_find_match_manager now player_id s) as [E|(k & E)];
        rewrite E in H.
      * destruct (find_or_create_shape _ _ _ _ H) as [F|[(m & Hm & J & ->)|F]].
        -- left. exists m'. split; [exact F | apply evolved_refl].
        -- left. exists m. split; [exact Hm|]. right. right. right. left.
           exists player_id. auto.
        -- now right.
      * destruct (start_match_effect now k
                    (snd (find_or_create_match now player_id (match_manager s))) mid)
          as [_ [E1|(m1 & _ & H1 & L & E1)]]; simpl in E1; rewrite E1 in H.
        -- destruct (find_or_create_shape _ _ _ _ H) as [F|[(m & Hm & J & ->)|F]].
           ++ left. exists m'. split; [exact F | apply evolved_refl].
           ++ left. exists m. split; [exact Hm|]. right. right. right. left.
              exists player_id. auto.
           ++ now right.
        -- injection H as <-.
           destruct (find_or_create_shape _ _ _ _ H1) as [F|[(m & Hm & J & ->)|(pid & ->)]].
           ++ left. exists m1. split; [exact F|]. right. right. right. right.
              exists now, m1. auto.
           ++ left. exists m. split; [exact Hm|]. right. right. right. right.
              exists now, (join player_id m). split; [right; exists player_id; auto|].
              auto.
           ++ simpl in L. lia.
    + (* disconnect *)
      unfold handle_player_disconnect, with_manager in H. cbn [match_manager] in H.
      rewrite remove_player_effect in H.
      destruct (Dict.get player_id (player_match_map (match_manager s))) as [k|];
        [|left; exists m'; split; [exact H | apply evolved_refl]].
      destruct (String.eqb k mid);
        [|left; exists m'; split; [exact H | apply evolved_refl]].
      destruct (Dict.get mid (matches (match_manager s))) as [m|]; [|discriminate].
      left. exists m. split; [reflexivity|]. injection H as <-.
      destruct (abandoned (leave player_id m)) eqn:A.
      * right. right. left.
        exists now, player_id, (physics_engine (match_manager s)). auto.
      * right. left. exists player_id. auto.
    + (* find or create *)
      unfold with_manager in H. cbn [match_manager] in H.
      destruct (find_or_create_shape _ _ _ _ H) as [F|[(m & Hm & J & ->)|F]].
      * left. exists m'. split; [exact F | apply evolved_refl].
      * left. exists m. split; [exact Hm|]. right. right. right. left.
        exists player_id. auto.
      * now right.
    + (* start *)
      unfold with_manager in H. cbn [match_manager] in H.
      destruct (start_match_effect now match_id (match_manager s) mid)
        as [_ [E1|(m1 & _ & H1 & L & E1)]]; simpl in E1; rewrite E1 in H.
      * left. exists m'. split; [exact H | apply evolved_refl].
      * injection H as <-. left. exists m1. split; [exact H1|].
        right. right. right. right. exists now, m1. auto.
Qed.

Lemma manager_sound_init : manager_sound (match_manager init).
Proof. split; [constructor | intros mid m H; discriminate]. Qed.

Lemma manager_sound_step op s :
  manager_sound (match_manager s) ->
  manager_sound (match_manager
     (step sqrt hash md5 _generate_weapon_sprite _get_default_sprite op s)).
Proof.
  intros [N S]. split; [now apply step_keys|].
  intros mid m' H. destruct (step_shape op s mid H) as [(m & Hm & E)|O].
  - eapply evolved_sound; [|exact E]. now apply S.
  - now apply opened_sound.
Qed.

Lemma reachable_sound s :
  reachable sqrt hash md5 _generate_weapon_sprite _get_default_sprite s ->
  manager_sound (match_manager s).
Proof.
  intro R. induction R as [|op s _ IH];
    [exact manager_sound_init | now apply manager_sound_step].
Qed.

End Server.
End EvolutionFacts.

(** ** What holds in every state the server can reach *)

Module ReachFacts.
Import MatchManager Server EffectFacts Evolution.
Local Open Scope list_scope.

Lemma update_matches_keeps_waiting now mid m ks : forall mm,
  Dict.get mid (matches mm) = Some m ->
  MatchState.status m = WAITING ->
  MatchState.start_time m = None ->
  Dict.get mid (matches (fold_left (update_match now) ks mm)) = Some m.
Proof.
  induction ks as [|k ks IH]; intros mm Hm Hs Ht; simpl; [exact Hm|].
  apply IH; trivial. destruct (string_dec k mid) as [->|N].
  - unfold update_match. rewrite Hm, Hs, Ht. cbn [MatchState.truthy].
    assert (E : Num.Qltb 120 (now - now) = false) by (apply NumFacts.Qltb_ge; lra).
    rewrite E. exact Hm.
  - rewrite update_match_local; trivial.
Qed.

Lemma join_first_found pid d m1 d1 :
  NoDup (Dict.keys d) ->
  join_first pid d = Some (m1, d1) ->
  exists k m0, Dict.get k d = Some m0 /\ m1 = join pid m0 /\ Dict.get k d1 = Some m1.
Proof.
  revert m1 d1. induction d as [|[k m] d IH]; intros m1 d1 N; simpl; [discriminate|].
  inversion N as [|? ? N1 N2]. subst.
  destruct (joinable m).
  - intro H. inversion H. subst. exists k, m. simpl. rewrite String.eqb_refl. auto.
  - destruct (join_first pid d) as [[m2 d2]|] eqn:J; [|discriminate].
    intro H. inversion H. subst.
    destruct (IH m1 d2 N2 eq_refl) as (k0 & m0 & G0 & E & G1).
    assert (K : String.eqb k0 k = false).
    { apply eqb_neq. intro. subst k0. apply N1. eapply DictFacts.get_keys. exact G0. }
    exists k0, m0. simpl. rewrite K. auto.
Qed.

Lemma In_values_get (V : Type) (d : Dict.t V) v :
  NoDup (Dict.keys d) -> In v (Dict.values d) -> exists k, Dict.get k d = Some v.
Proof.
  induction d as [|[k0 v0] d IH]; simpl; intros N H; [destruct H|].
  destruct H as [H|H].
  - subst. exists k0. now rewrite String.eqb_refl.
  - inversion N as [|? ? N1 N2]. subst. destruct (IH N2 H) as (k & G).
    exists k. destruct (String.eqb k k0) eqn:E; trivial.
    apply String.eqb_eq in E. subst. exfalso. apply N1. eapply DictFacts.get_keys. exact G.
Qed.

Lemma count_by_status l :
  Forall (fun m => MatchState.status m = WAITING \/ MatchState.status m = ACTIVE
                   \/ MatchState.status m = FINISHED) l ->
  length l
  = (length (filter (fun m => MatchStatus_eqb (MatchState.status m) ACTIVE) l)
     + length (filter (fun m => MatchStatus_eqb (MatchState.status m) WAITING) l)
     + length (filter (fun m => MatchStatus_eqb (MatchState.status m) FINISHED) l))%nat.
Proof.
  induction 1 as [|m l H _ IH]; simpl; trivial.
  destruct H as [H|[H|H]]; rewrite H; simpl; lia.
Qed.

Section Server.
Variable sqrt : Q -> Q.
Variable hash : string -> Z.
Variable md5 : string -> string.
Variable _generate_weapon_sprite : string -> WeaponCategory -> string.
Variable _get_default_sprite : string.

(** X18. A match never holds more than two players, and an ACTIVE match
    holds exactly two: nobody joins a match that is full or under way, and
    a match a player leaves alone is ended at once. *)
Theorem two_players_per_match s mid m :
  reachable sqrt hash md5 _generate_weapon_sprite _get_default_sprite s ->
  Dict.get mid (matches (match_manager s)) = Some m ->
  (length (MatchState.players m) <= 2)%nat
  /\ (MatchState.status m = ACTIVE -> length (MatchState.players m) = 2%nat).
Proof.
  intros R H. apply EvolutionFacts.reachable_sound in R. destruct R as [_ S].
  destruct (S mid m H) as (_ & L & A & _). auto.
Qed.

(** X19. In every stored match a player is marked alive exactly when the
    player's health is above zero. *)
Theorem alive_iff_health_positive s mid m p :
  reachable sqrt hash md5 _generate_weapon_sprite _get_default_sprite s ->
  Dict.get mid (matches (match_manager s)) = Some m ->
  In p (MatchState.players m) ->
  (PlayerState.is_alive p = true <-> (0 < PlayerState.health p)%Z).
Proof.
  intros R H Hp. apply EvolutionFacts.reachable_sound in R. destruct R as [_ S].
  destruct (S mid m H) as (_ & _ & _ & _ & _ & F).
  rewrite Forall_forall in F. now destruct (F p Hp).
Qed.

(** X20. Every player of every stored match is inside the arena: between
    16 and 1184 across and between 16 and the ground line 500 down. *)
Theorem players_inside_arena s mid m p :
  reachable sqrt hash md5 _generate_weapon_sprite _get_default_sprite s ->
  Dict.get mid (matches (match_manager s)) = Some m ->
  In p (MatchState.players m) ->
  Arena.holds_player p.
Proof.
  intros R H Hp. apply EvolutionFacts.reachable_sound in R. destruct R as [_ S].
  destruct (S mid m H) as (_ & _ & _ & _ & _ & F).
  rewrite Forall_forall in F. now destruct (F p Hp).
Qed.

(** X21. A WAITING match is never reclaimed by the game loop, however long
    it has waited: a match that has not started has no start time, so the
    age [update_matches] compares with two minutes is always zero. *)
Theorem waiting_match_never_reclaimed s mid m now :
  reachable sqrt hash md5 _generate_weapon_sprite _get_default_sprite s ->
  Dict.get mid (matches (match_manager s)) = Some m ->
  MatchState.status m = WAITING ->
  MatchState.start_time m = None
  /\ Dict.get mid (matches (match_manager (game_loop now s))) = Some m.
Proof.
  intros R H W. apply EvolutionFacts.reachable_sound in R. destruct R as [_ S].
  destruct (S mid m H) as (_ & _ & _ & T & _). split; [now apply T|].
  unfold game_loop, with_manager, update_matches. cbn [match_manager].
  apply update_matches_keeps_waiting; auto.
Qed.

(** X22. Matchmaking is idempotent: [find_or_create_match] always returns
    a match, stored under its own id, and
    asking again for the same player, at any later time, returns that
    same match and changes nothing. *)
Theorem find_or_create_match_again s now pid :
  reachable sqrt hash md5 _generate_weapon_sprite _get_default_sprite s ->
  exists m,
    fst (find_or_create_match now pid (match_manager s)) = Some m
    /\ Dict.get (MatchState.id m)
         (matches (snd (find_or_create_match now pid (match_manager s)))) = Some m
    /\ forall now',
         find_or_create_match now' pid (snd (find_or_create_match now pid (match_manager s)))
         = (Some m, snd (find_or_create_match now pid (match_manager s))).
Proof.
  intro R. apply EvolutionFacts.reachable_sound in R. destruct R as [N S].
  set (mm := match_manager s) in *.
  unfold find_or_create_match at 1 2 4 5.
  destruct (Dict.get pid (player_match_map mm)) as [k|] eqn:Ek.
  - destruct (Dict.get k (matches mm)) as [m|] eqn:Em.
    + exists m. cbn [fst snd]. destruct (S k m Em) as (I & _).
      split; [reflexivity|]. split; [now rewrite I|].
      intro now'. unfold find_or_create_match. now rewrite Ek, Em.
    + destruct (join_first pid (matches mm)) as [[m1 d1]|] eqn:J; cbn [fst snd].
      * destruct (@join_first_found pid _ _ _ N J) as (k0 & m0 & G0 & E & G1).
        destruct (S k0 m0 G0) as (I & _).
        assert (I1 : MatchState.id m1 = k0) by (subst m1; exact I).
        exists m1. split; [reflexivity|]. cbn [matches]. rewrite I1.
        split; [exact G1|]. intro now'. unfold find_or_create_match.
        cbn [player_match_map matches]. rewrite DictFacts.get_set_same.
        cbv beta iota. rewrite ?I1, G1. reflexivity.
      * eexists. split; [reflexivity|]. cbn [matches MatchState.id MatchState.create].
        rewrite DictFacts.get_set_same. split; [reflexivity|].
        intro now'. unfold find_or_create_match.
        cbn [player_match_map matches]. rewrite DictFacts.get_set_same.
        cbv beta iota. rewrite DictFacts.get_set_same. reflexivity.
  - destruct (join_first pid (matches mm)) as [[m1 d1]|] eqn:J; cbn [fst snd].
    + destruct (@join_first_found pid _ _ _ N J) as (k0 & m0 & G0 & E & G1).
      destruct (S k0 m0 G0) as (I & _).
      assert (I1 : MatchState.id m1 = k0) by (subst m1; exact I).
      exists m1. split; [reflexivity|]. cbn [matches]. rewrite I1.
      split; [exact G1|]. intro now'. unfold find_or_create_match.
      cbn [player_match_map matches]. rewrite DictFacts.get_set_same.
      cbv beta iota. rewrite ?I1, G1. reflexivity.
    + eexists. split; [reflexivity|]. cbn [matches MatchState.id MatchState.create].
      rewrite DictFacts.get_set_same. split; [reflexivity|].
      intro now'. unfold find_or_create_match.
      cbn [player_match_map matches]. rewrite DictFacts.get_set_same.
        cbv beta iota. rewrite DictFacts.get_set_same. reflexivity.
Qed.

(** X23. The counts [get_stats] reports add up: every stored match is
    WAITING, ACTIVE or FINISHED, so the total is the sum of the three
    counts, and [get_active_match_count] is the ACTIVE one. *)
Theorem get_stats_adds_up s :
  reachable sqrt hash md5 _generate_weapon_sprite _get_default_sprite s ->
  let st := ManagerQueries.get_stats (match_manager s) in
  ManagerQueries.total_matches st
  = (ManagerQueries.active_matches st + ManagerQueries.waiting_matches st
     + ManagerQueries.finished_matches st)%nat
  /\ ManagerQueries.get_active_match_count (match_manager s)
     = ManagerQueries.active_matches st.
Proof.
  intro R. apply EvolutionFacts.reachable_sound in R. destruct R as [N S].
  cbv zeta. split; [|reflexivity].
  unfold ManagerQueries.get_stats, ManagerQueries.with_status, get_active_matches.
  cbn [ManagerQueries.total_matches ManagerQueries.active_matches
       ManagerQueries.waiting_matches ManagerQueries.finished_matches].
  rewrite <- count_by_status.
  - unfold Dict.values. now rewrite length_map.
  - apply Forall_forall. intros m Hm.
    destruct (@In_values_get _ _ m N Hm) as (k & G).
    destruct (S k m G) as (_ & _ & _ & _ & St & _). exact St.
Qed.

End Server.

Lemma lobby_reachable :
  reachable Example.sqrt0 Example.hash0 Example.md50 Example.sprite0
    Example.default_sprite0 Example.lobby.
Proof.
  unfold Example.lobby, Example.step0. apply reachable_step, reachable_step.
  apply reachable_init.
Qed.

Lemma waiting_room_reachable :
  reachable Example.sqrt0 Example.hash0 Example.md50 Example.sprite0
    Example.default_sprite0 Scenario.waiting_room.
Proof.
  unfold Scenario.waiting_room, Example.step0. apply reachable_step, reachable_init.
Qed.

Lemma two_players_per_match_witness :
  exists m, Scenario.lobby_match = Some m /\ length (MatchState.players m) = 2%nat.
Proof.
  unfold Scenario.lobby_match.
  destruct (Dict.get "match_0" (matches (match_manager Example.lobby))) as [m|] eqn:E;
    [|vm_compute in E; discriminate].
  exists m. split; [reflexivity|].
  destruct (@two_players_per_match Example.sqrt0 Example.hash0 Example.md50
              Example.sprite0 Example.default_sprite0 Example.lobby
              "match_0" m lobby_reachable E) as [_ A]. apply A.
  vm_compute in E. inversion E. reflexivity.
Defined.

Lemma alive_iff_health_positive_witness :
  exists m, Scenario.lobby_match = Some m
    /\ forall p, In p (MatchState.players m) ->
         (PlayerState.is_alive p = true <-> (0 < PlayerState.health p)%Z).
Proof.
  unfold Scenario.lobby_match.
  destruct (Dict.get "match_0" (matches (match_manager Example.lobby))) as [m|] eqn:E;
    [|vm_compute in E; discriminate].
  exists m. split; [reflexivity|]. intros p Hp.
  exact (@alive_iff_health_positive Example.sqrt0 Example.hash0 Example.md50
              Example.sprite0 Example.default_sprite0 Example.lobby
           "match_0" m p lobby_reachable E Hp).
Defined.

Lemma players_inside_arena_witness :
  exists m, Scenario.lobby_match = Some m
    /\ forall p, In p (MatchState.players m) -> Arena.holds_player p.
Proof.
  unfold Scenario.lobby_match.
  destruct (Dict.get "match_0" (matches (match_manager Example.lobby))) as [m|] eqn:E;
    [|vm_compute in E; discriminate].
  exists m. split; [reflexivity|]. intros p Hp.
  exact (@players_inside_arena Example.sqrt0 Example.hash0 Example.md50
              Example.sprite0 Example.default_sprite0 Example.lobby
           "match_0" m p lobby_reachable E Hp).
Defined.

Lemma waiting_match_never_reclaimed_witness :
  exists m,
    Dict.get "match_0" (matches (match_manager Scenario.waiting_room)) = Some m
    /\ Dict.get "match_0"
         (matches (match_manager (game_loop 100000 Scenario.waiting_room))) = Some m.
Proof.
  destruct (Dict.get "match_0" (matches (match_manager Scenario.waiting_room)))
    as [m|] eqn:E; [|vm_compute in E; discriminate].
  exists m. split; [reflexivity|].
  apply (@waiting_match_never_reclaimed Example.sqrt0 Example.hash0 Example.md50
              Example.sprite0 Example.default_sprite0
           Scenario.waiting_room "match_0" m 100000 waiting_room_reachable E).
  vm_compute in E. inversion E. reflexivity.
Defined.

Lemma find_or_create_match_again_witness :
  exists m,
    fst (find_or_create_match 5 "alice" (match_manager Example.lobby)) = Some m
    /\ find_or_create_match 9 "alice"
         (snd (find_or_create_match 5 "alice" (match_manager Example.lobby)))
       = (Some m, snd (find_or_create_match 5 "alice" (match_manager Example.lobby))).
Proof.
  destruct (@find_or_create_match_again Example.sqrt0 Example.hash0 Example.md50
              Example.sprite0 Example.default_sprite0 Example.lobby 5 "alice"
              lobby_reachable) as (m & F & _ & A).
  exists m. split; [exact F | apply A].
Defined.

Lemma get_stats_adds_up_witness :
  ManagerQueries.total_matches (ManagerQueries.get_stats (match_manager Example.lobby))
  = (ManagerQueries.active_matches (ManagerQueries.get_stats (match_manager Example.lobby))
     + ManagerQueries.waiting_matches
         (ManagerQueries.get_stats (match_manager Example.lobby))
     + ManagerQueries.finished_matches
         (ManagerQueries.get_stats (match_manager Example.lobby)))%nat.
Proof.
  pose proof (@get_stats_adds_up Example.sqrt0 Example.hash0 Example.md50 Example.sprite0
                Example.default_sprite0 Example.lobby lobby_reachable) as H.
  cbv zeta in H. exact (proj1 H).
Defined.

End ReachFacts.

(** ** The replies of the server and its automatic prompts *)

Module ReplyFacts.
Import MatchManager Server.
Local Open Scope list_scope.

Lemma rstrip_idem s : PyStr.rstrip (PyStr.rstrip s) = PyStr.rstrip s.
Proof.
  induction s as [|c s IH]; simpl; trivial.
  destruct (PyStr.rstrip s) as [|a r] eqn:E.
  - destruct (PyStr.is_space c) eqn:Sp; simpl; trivial. now rewrite Sp.
  - change (PyStr.rstrip (String c (String a r)))
      with (match PyStr.rstrip (String a r) with
            | EmptyString => if PyStr.is_space c then EmptyString else String c EmptyString
            | r0 => String c r0
            end).
    now rewrite IH.
Qed.

Lemma lstrip_head s :
  PyStr.lstrip s = EmptyString
  \/ exists c r, PyStr.lstrip s = String c r /\ PyStr.is_space c = false.
Proof.
  induction s as [|c s IH]; simpl; [now left|].
  destruct (PyStr.is_space c) eqn:E; [exact IH|]. right. now exists c, s.
Qed.

Lemma strip_idem s : PyStr.strip (PyStr.strip s) = PyStr.strip s.
Proof.
  unfold PyStr.strip.
  destruct (lstrip_head s) as [-> | (c & r & -> & Sp)]; [reflexivity|].
  assert (H : exists r', PyStr.rstrip (String c r) = String c r').
  { simpl. destruct (PyStr.rstrip r); [rewrite Sp|]; eauto. }
  destruct H as (r' & H).
  assert (L : PyStr.lstrip (PyStr.rstrip (String c r)) = PyStr.rstrip (String c r)).
  { rewrite H. simpl. now rewrite Sp. }
  rewrite L. apply rstrip_idem.
Qed.

Section Requests.
Variable hash : string -> Z.
Variable md5 : string -> string.
Variable _generate_weapon_sprite : string -> WeaponCategory -> string.
Variable _get_default_sprite : string.

Lemma generate_weapon_some now fresh_id ai prompt pid mid cache :
  String.length (PyStr.strip prompt) <> 0%nat ->
  exists w c,
    WeaponGenerator.generate_weapon hash md5 _generate_weapon_sprite _get_default_sprite
      now fresh_id ai prompt pid mid cache = (Some w, c).
Proof.
  intro H. unfold WeaponGenerator.generate_weapon.
  apply Nat.eqb_neq in H. rewrite H.
  destruct (Dict.get _ cache); [eauto|].
  unfold WeaponGenerator._generate_with_ai, WeaponGenerator._generate_from_template.
  destruct ai; eauto.
Qed.

(** X24. The reply "Weapon generation failed" is never sent: a prompt that
    passes the check of the handler is not blank, and the generator fails
    on blank prompts only. Every request that is refused -- for its
    prompt, the match, the player or the cooldown -- leaves the server
    exactly as it was. *)
Theorem refused_generation now now_done fresh_id ai pid prompt mid s :
  let r := handle_weapon_generation hash md5 _generate_weapon_sprite _get_default_sprite
             now now_done fresh_id ai pid prompt mid s in
  fst r <> GenerationFailed
  /\ ((forall w, fst r <> Generated w) -> snd r = s).
Proof.
  cbv zeta. unfold handle_weapon_generation.
  destruct (prompt_rejected (PyStr.strip prompt)) eqn:P;
    [split; [discriminate | reflexivity]|].
  destruct (get_match mid (match_manager s)) as [m|];
    [|split; [discriminate | reflexivity]].
  destruct (player_of pid m) as [p|]; [|split; [discriminate | reflexivity]].
  destruct (Num.Qltb now (PlayerState.weapon_cooldown p));
    [split; [discriminate | reflexivity]|].
  assert (NB : String.length (PyStr.strip (PyStr.strip prompt)) <> 0%nat).
  { rewrite strip_idem. unfold prompt_rejected in P.
    apply orb_false_iff in P as [P _]. now apply Nat.eqb_neq. }
  destruct (@generate_weapon_some now fresh_id ai (PyStr.strip prompt) pid mid
              (weapon_generator s) NB)
    as (w & c & ->).
  cbn [fst snd]. split; [discriminate|]. intro H. exfalso. now apply (H w).
Qed.

End Requests.

(** *** The scheduler *)

Lemma scheduled_prompt_effect rnd now n k :
  exists md,
    PhysicsEngine._parse_physics_prompt rnd now
      (nth (n mod 7) random_prompts "low gravity"%string) k = Some md
    /\ In (PhysicsModification.description md) Scheduled.effects
    /\ PhysicsModification.type md <> WEAPON_BEHAVIOR.
Proof.
  assert (B : (n mod 7 < 7)%nat) by (apply Nat.mod_upper_bound; discriminate).
  destruct (n mod 7)%nat as [|[|[|[|[|[|[|x]]]]]]]; try lia;
    (eexists; split; [reflexivity|]; split; [simpl; auto 10 | discriminate]).
Qed.

(** X25. One round of the scheduler on a stored match. When the match is
    ACTIVE and its last automatic prompt is more than 30 seconds old, one
    modification is recorded, both in the engine and in the match, the
    match remembers the time, and the scheduler does nothing more on that
    match during the next 30 seconds; the modification is one of seven
    library effects and never a weapon-behaviour one. Otherwise nothing
    changes at all. *)
Theorem scheduler_round now rnd pick mm k m :
  Dict.get k (matches mm) = Some m ->
  let mm' := schedule_match now rnd pick mm k in
  (Scheduled.due now m = false -> mm' = mm)
  /\ (Scheduled.due now m = true ->
      exists md m',
        Dict.get k (matches mm') = Some m'
        /\ In (PhysicsModification.description md) Scheduled.effects
        /\ PhysicsModification.type md <> WEAPON_BEHAVIOR
        /\ PhysicsEngine.mods_of (MatchState.id m) (physics_engine mm')
           = PhysicsEngine.mods_of (MatchState.id m) (physics_engine mm) ++ [md]
        /\ PhysicsState.active_modifications (MatchState.physics m')
           = PhysicsState.active_modifications (MatchState.physics m) ++ [md]
        /\ MatchState.last_master_prompt m' = now
        /\ MatchState.players m' = MatchState.players m
        /\ forall now' rnd' pick', (now' <= now + 30)%Q ->
             schedule_match now' rnd' pick' mm' k = mm').
Proof.
  intros Hm mm'. unfold mm', schedule_match, Scheduled.due. rewrite Hm.
  split; [intros ->; reflexivity|]. intros D. rewrite D.
  unfold PhysicsEngine.apply_master_prompt.
  destruct (scheduled_prompt_effect rnd now (pick k) (MatchState.id m))
    as (md & -> & Hd & Ht).
  exists md. eexists. cbn [matches physics_engine].
  split; [apply DictFacts.get_set_same|]. split; [exact Hd|]. split; [exact Ht|].
  split; [|split; [|split; [|split]]].
  - unfold PhysicsEngine.mods_of at 1, Dict.get_default.
    cbn [PhysicsEngine.active_modifications]. now rewrite DictFacts.get_set_same.
  - unfold record_modification, PhysicsState.apply_modifications.
    cbn [MatchState.physics MatchState.set_last_master_prompt MatchState.set_physics].
    rewrite EngineFacts.fold_apply_one. reflexivity.
  - reflexivity.
  - reflexivity.
  - intros now' rnd' pick' Hle. unfold schedule_match. cbn [matches].
    rewrite DictFacts.get_set_same.
    cbn [MatchState.status MatchState.set_last_master_prompt MatchState.last_master_prompt].
    assert (E : Num.Qltb 30 (now' - now) = false) by (apply NumFacts.Qltb_ge; lra).
    rewrite E, andb_false_r. reflexivity.
Qed.

Lemma scheduler_round_witness :
  exists m',
    Dict.get "match_0"
      (matches (schedule_match 31 Example.no_random (fun _ => 0%nat) Example.armed
                  "match_0")) = Some m'
    /\ MatchState.last_master_prompt m' = 31.
Proof.
  pose proof (@scheduler_round 31 Example.no_random (fun _ => 0%nat) Example.armed
                "match_0" Example.armed_duel eq_refl) as H.
  cbv zeta in H. destruct H as [_ H].
  destruct (H eq_refl) as (md & m' & G & _ & _ & _ & _ & L & _).
  exists m'. split; assumption.
Defined.

End ReplyFacts.

(** ** Starting a match, and what firing leaves alone *)

Module StartFacts.
Import MatchManager Server EffectFacts Evolution.
Local Open Scope list_scope.

(** X26. Firing never uses anything up: [use_weapon] and the frames of the
    game loop leave the weapons every player holds exactly as they are,
    ammo included. *)
Theorem weapons_never_spent :
  (forall sqrt now k pid wid target mm mid m m',
     Dict.get mid (matches mm) = Some m ->
     Dict.get mid (matches (use_weapon sqrt now k pid wid target mm)) = Some m' ->
     Forall2 Restart.same_weapons (MatchState.players m) (MatchState.players m'))
  /\ (forall now m eng,
        Forall2 Restart.same_weapons (MatchState.players m)
          (MatchState.players (fst (tick_active now m eng)))).
Proof.
  split.
  - intros sqrt now k pid wid target mm mid m m' Hm Hm'.
    destruct (use_weapon_effect sqrt now k pid wid target mm mid)
      as [E | (m0 & pl & w & _ & E0 & _ & _ & _ & _ & E)]; rewrite E in Hm'.
    + assert (m' = m) by congruence. subst. apply CombatFacts.Forall2_refl. reflexivity.
    + injection Hm' as <-. assert (m0 = m) by congruence. subst.
      apply FrameFacts.fire_rel
        with (D := fun _ => True) (G := fun _ => True) (Eph := fun _ => True);
        unfold Restart.same_weapons; auto.
      * intros. congruence.
      * intros. apply FrameFacts.take_damage_weapons.
  - intros now m eng. apply FrameFacts.tick_keeps_weapons.
Qed.

Lemma started_players l :
  (2 <= length l)%nat ->
  Forall2 Restart.reset l (map reset_player (place_players l))
  /\ exists p0 p1 rest,
       map reset_player (place_players l) = p0 :: p1 :: rest
       /\ PlayerState.position p0 = mkVec2 200 500
       /\ PlayerState.position p1 = mkVec2 1000 500.
Proof.
  intro H. destruct l as [|a [|b rest]]; simpl in H; try lia. split.
  - simpl. constructor; [repeat split|]. constructor; [repeat split|].
    apply CombatFacts.map_rel. intros p _. repeat split.
  - simpl. eexists _, _, _. repeat split.
Qed.

(** X27. [start_match] refuses, changing nothing, when the match is not
    stored or holds fewer than two players. It does not look at the
    status: any stored match with two players or more is started, or
    started again, with every player reset to full health, alive, without
    weapons or cooldown, the first two at their starting positions; the
    kill and death counts of the players, the end time and the winner of
    an earlier round and the projectiles still in flight are kept. *)
Theorem start_match_restarts now k mm :
  (Dict.get k (matches mm) = None -> start_match now k mm = (false, mm))
  /\ (forall m, Dict.get k (matches mm) = Some m ->
        (length (MatchState.players m) < 2)%nat -> start_match now k mm = (false, mm))
  /\ (forall m, Dict.get k (matches mm) = Some m ->
        (2 <= length (MatchState.players m))%nat ->
        exists m',
          start_match now k mm = (true, set_matches (Dict.set k m' (matches mm)) mm)
          /\ MatchState.status m' = ACTIVE
          /\ MatchState.start_time m' = Some now
          /\ MatchState.last_master_prompt m' = now
          /\ MatchState.id m' = MatchState.id m
          /\ MatchState.end_time m' = MatchState.end_time m
          /\ MatchState.winner_id m' = MatchState.winner_id m
          /\ MatchState.projectiles m' = MatchState.projectiles m
          /\ Forall2 Restart.reset (MatchState.players m) (MatchState.players m')
          /\ exists p0 p1 rest,
               MatchState.players m' = p0 :: p1 :: rest
               /\ PlayerState.position p0 = mkVec2 200 500
               /\ PlayerState.position p1 = mkVec2 1000 500).
Proof.
  unfold start_match. split; [intros ->; reflexivity|]. split.
  - intros m -> L. apply Nat.ltb_lt in L. now rewrite L.
  - intros m -> L. pose proof L as L'. apply Nat.ltb_ge in L'. rewrite L'.
    exists (started now m). split; [reflexivity|]. unfold started.
    cbn [MatchState.status MatchState.start_time MatchState.last_master_prompt
         MatchState.id MatchState.end_time MatchState.winner_id MatchState.projectiles
         MatchState.players MatchState.set_players MatchState.set_last_master_prompt
         MatchState.set_start_time MatchState.set_status].
    repeat (split; [reflexivity|]). now apply started_players.
Qed.

Lemma find_or_create_stored now pid mm :
  manager_sound mm ->
  exists m,
    fst (find_or_create_match now pid mm) = Some m
    /\ Dict.get (MatchState.id m) (matches (snd (find_or_create_match now pid mm))) = Some m
    /\ Dict.get pid (player_match_map (snd (find_or_create_match now pid mm)))
       = Some (MatchState.id m).
Proof.
  intros [N S]. unfold find_or_create_match.
  destruct (match Dict.get pid (player_match_map mm) with
            | Some match_id => Dict.get match_id (matches mm)
            | None => None end) as [m|] eqn:Ex.
  - exists m. cbn [fst snd].
    destruct (Dict.get pid (player_match_map mm)) as [k|]; [|discriminate].
    destruct (S k m Ex) as (I & _). rewrite I. auto.
  - destruct (join_first pid (matches mm)) as [[m1 d1]|] eqn:J; cbn [fst snd].
    + destruct (@ReachFacts.join_first_found pid _ _ _ N J) as (k0 & m0 & G0 & E & G1).
      destruct (S k0 m0 G0) as (I & _).
      assert (I1 : MatchState.id m1 = k0) by (subst m1; exact I).
      exists m1. split; [reflexivity|]. cbn [matches player_match_map]. rewrite I1.
      split; [exact G1 | apply DictFacts.get_set_same].
    + eexists. split; [reflexivity|].
      cbn [matches player_match_map MatchState.id MatchState.create].
      split; apply DictFacts.get_set_same.
Qed.

Section Server.
Variable sqrt : Q -> Q.
Variable hash : string -> Z.
Variable md5 : string -> string.
Variable _generate_weapon_sprite : string -> WeaponCategory -> string.
Variable _get_default_sprite : string.

(** X28. After [handle_find_match] the player is mapped to a stored match,
    and that match is not left WAITING with two players: when the request
    fills a waiting match, the match is started at once. *)
Theorem find_match_starts_full_match s now pid :
  reachable sqrt hash md5 _generate_weapon_sprite _get_default_sprite s ->
  exists m',
    Dict.get pid (player_match_map (match_manager (handle_find_match now pid s)))
      = Some (MatchState.id m')
    /\ Dict.get (MatchState.id m') (matches (match_manager (handle_find_match now pid s)))
       = Some m'
    /\ (MatchState.status m' = WAITING -> (length (MatchState.players m') < 2)%nat).
Proof.
  intro R. apply EvolutionFacts.reachable_sound in R.
  destruct (find_or_create_stored now pid R) as (m & F & G & M).
  unfold handle_find_match.
  destruct (find_or_create_match now pid (match_manager s)) as [o mm1].
  cbn [fst snd] in F, G, M. subst o.
  destruct ((2 <=? length (MatchState.players m))%nat
            && MatchStatus_eqb (MatchState.status m) WAITING) eqn:C.
  - apply andb_true_iff in C as [C _]. apply Nat.leb_le in C.
    assert (L : (length (MatchState.players m) <? 2)%nat = false) by now apply Nat.ltb_ge.
    unfold start_match. rewrite G, L. cbn [snd match_manager].
    exists (started now m). cbn [matches player_match_map set_matches].
    split; [exact M|]. split; [apply DictFacts.get_set_same|]. discriminate.
  - exists m. cbn [match_manager]. split; [exact M|]. split; [exact G|].
    intro W. rewrite W in C. cbn [MatchStatus_eqb] in C. rewrite andb_true_r in C.
    apply Nat.leb_gt in C. exact C.
Qed.

End Server.

Lemma find_match_starts_full_match_witness :
  exists m',
    Dict.get "carol"
      (player_match_map (match_manager (handle_find_match 7 "carol" Example.lobby)))
      = Some (MatchState.id m')
    /\ Dict.get (MatchState.id m')
         (matches (match_manager (handle_find_match 7 "carol" Example.lobby))) = Some m'.
Proof.
  destruct (@find_match_starts_full_match Example.sqrt0 Example.hash0 Example.md50
              Example.sprite0 Example.default_sprite0 Example.lobby 7 "carol"
              ReachFacts.lobby_reachable) as (m' & A & B & _).
  exists m'. split; assumption.
Defined.

End StartFacts.

(** ** Modifications stack and expire; prompts sent by players *)

Module PromptFacts.
Import MatchManager Server.
Local Open Scope list_scope.

Lemma physics_fold now k eng :
  fst (PhysicsEngine.calculate_current_physics now k eng)
  = fold_left PhysicsEngine.apply_mod
      (filter (PhysicsModification.is_active now) (PhysicsEngine.mods_of k eng))
      Physics.base.
Proof.
  unfold PhysicsEngine.calculate_current_physics.
  pose proof (PhysicsFacts.get_active_modifications_fst now k eng) as F.
  destruct (PhysicsEngine.get_active_modifications now k eng) as [a e']. simpl in *.
  now rewrite F.
Qed.

(** X29. Modifications stack and expire on their own: after
    [apply_master_prompt] the physics of the match at any time is the
    physics it would have had without the prompt, with the new
    modification applied on top while that modification lasts, and
    exactly the physics without the prompt once it has run out; the
    physics of every other match is not affected. *)
Theorem master_prompt_stacks rnd now prompt k eng :
  exists md,
    fst (PhysicsEngine.apply_master_prompt rnd now prompt k eng) = Some md
    /\ (forall t,
          fst (PhysicsEngine.calculate_current_physics t k
                 (snd (PhysicsEngine.apply_master_prompt rnd now prompt k eng)))
          = if PhysicsModification.is_active t md
            then PhysicsEngine.apply_mod
                   (fst (PhysicsEngine.calculate_current_physics t k eng)) md
            else fst (PhysicsEngine.calculate_current_physics t k eng))
    /\ (forall t k', k' <> k ->
          fst (PhysicsEngine.calculate_current_physics t k'
                 (snd (PhysicsEngine.apply_master_prompt rnd now prompt k eng)))
          = fst (PhysicsEngine.calculate_current_physics t k' eng)).
Proof.
  unfold PhysicsEngine.apply_master_prompt.
  destruct (PhysicsEngine._parse_physics_prompt rnd now prompt k) as [md|] eqn:P.
  - exists md. cbn [fst snd]. split; [reflexivity|]. split.
    + intro t. rewrite !physics_fold, EngineFacts.mods_of_set, String.eqb_refl.
      rewrite filter_app, fold_left_app. cbn [filter].
      destruct (PhysicsModification.is_active t md); reflexivity.
    + intros t k' N. rewrite !physics_fold, EngineFacts.mods_of_set.
      destruct (String.eqb k k') eqn:E; [apply String.eqb_eq in E; congruence|].
      reflexivity.
  - exfalso. unfold PhysicsEngine._parse_physics_prompt in P.
    destruct (PhysicsEngine.find_entry _); discriminate.
Qed.

(** X30. A prompt sent by a player: a blank prompt or a match that is not
    stored changes nothing; otherwise one modification is recorded for the
    match, in the engine and in the match alike, whatever the status of
    the match and however recent the last prompt -- the time of the last
    automatic prompt is not touched, so player prompts are not spaced. *)
Theorem player_prompt_recorded now rnd pid prompt k s :
  (String.length (PyStr.strip prompt) = 0%nat ->
   handle_master_prompt now rnd pid prompt k s = s)
  /\ (Dict.get k (matches (match_manager s)) = None ->
      handle_master_prompt now rnd pid prompt k s = s)
  /\ (forall m,
        String.length (PyStr.strip prompt) <> 0%nat ->
        Dict.get k (matches (match_manager s)) = Some m ->
        exists md m',
          Dict.get k (matches (match_manager (handle_master_prompt now rnd pid prompt k s)))
            = Some m'
          /\ PhysicsEngine.mods_of k
               (physics_engine (match_manager (handle_master_prompt now rnd pid prompt k s)))
             = PhysicsEngine.mods_of k (physics_engine (match_manager s)) ++ [md]
          /\ PhysicsState.active_modifications (MatchState.physics m')
             = PhysicsState.active_modifications (MatchState.physics m) ++ [md]
          /\ MatchState.last_master_prompt m' = MatchState.last_master_prompt m
          /\ MatchState.status m' = MatchState.status m
          /\ MatchState.players m' = MatchState.players m
          /\ MatchState.projectiles m' = MatchState.projectiles m).
Proof.
  unfold handle_master_prompt, get_match. split; [intros ->; reflexivity|]. split.
  - intros ->. now destruct (_ =? 0)%nat.
  - intros m NB Hm. apply Nat.eqb_neq in NB. rewrite NB, Hm.
    unfold PhysicsEngine.apply_master_prompt.
    destruct (PhysicsEngine._parse_physics_prompt rnd now (PyStr.strip prompt) k)
      as [md|] eqn:P.
    + exists md. eexists. cbn [match_manager matches physics_engine].
      split; [apply DictFacts.get_set_same|]. split; [|split; [|repeat split]].
      * rewrite EngineFacts.mods_of_set, String.eqb_refl. reflexivity.
      * unfold record_modification, PhysicsState.apply_modifications.
        cbn [MatchState.physics MatchState.set_physics].
        rewrite EngineFacts.fold_apply_one. reflexivity.
    + exfalso. unfold PhysicsEngine._parse_physics_prompt in P.
      destruct (PhysicsEngine.find_entry _); discriminate.
Qed.

End PromptFacts.
